(** * Q-Tech: the queue state machine and the ticket-ordering engine

    A shallow embedding of the backend's [Queue], [Counter] and [Service]
    models and of the queue and counter controllers, followed by the
    properties the specification states about them.

    Conventions of the embedding.
    - Every SQL statement the code sends through [query] is a function on
      the tables it mentions; a table is the list of its rows in physical
      order.  The database promises no order for a [SELECT] without
      [ORDER BY], nor among rows that an [ORDER BY] does not tell apart;
      the lists fix one (a row stays where it was inserted).  What is
      stated about the first row of such a result is stated where that row
      is the only candidate, or without naming which candidate it is.
    - A handler is a computation in the monad [M]: it threads the database
      and can throw.  Each [query] may fail when the store is unavailable;
      the schedule of such failures is part of the world, so that the
      handlers' [try]/[catch] blocks are exercised.
    - JavaScript numbers are integers of [Z] plus [NaN]; this is exact below
      2^53, and the statements that depend on it carry that bound.
    - Strings are sequences of 8-bit characters; [trim], [toUpperCase] and
      [substring] follow JavaScript on the ASCII range, and the statements
      about the prefix of a queue number are made for services whose name
      and configured prefix are ASCII ([Spec.ascii_service]).
    - A handler runs at one instant: every [NOW()] and [new Date()] it
      evaluates reads the same clock value of its environment.
    - A handler runs alone unless said otherwise.  Where two requests are
      in flight together, the function is cut at its awaits into a [task]
      and a schedule tells whose query the store answers next; a statement
      is atomic, and nothing else is.
    - The tables are read off the statements of the models: a table has
      the columns those statements name, a nullable column is an
      [option], and no key or uniqueness constraint is enforced (the
      statements that need ids to be a key say so). *)

From Stdlib Require Import ZArith List String Ascii Bool Lia.
From Stdlib Require Import DecimalString DecimalZ Sorting.Sorted.
From Stdlib Require Import Sorting.Permutation.
Import ListNotations.

Local Open Scope string_scope.
Local Open Scope Z_scope.

#[local] Arguments Ascii.eqb : simpl never.
#[local] Arguments String.eqb : simpl never.

(* ===================================================================== *)
(** * JavaScript built-ins used by the models *)
(* ===================================================================== *)

Module JS.

(** A JavaScript number, as far as this code produces them. *)
Inductive number : Type :=
| NaN : number
| Num : Z -> number.

(** [a + b] on numbers (exact, as JavaScript is below 2^53). *)
Definition add (a b : number) : number :=
  match a, b with
  | Num x, Num y => Num (x + y)
  | _, _ => NaN
  end.

(** [a * b] on numbers. *)
Definition mul (a b : number) : number :=
  match a, b with
  | Num x, Num y => Num (x * y)
  | _, _ => NaN
  end.

(** White space and line terminators of the ASCII range. *)
Definition isWhiteSpace (c : ascii) : bool :=
  let n := nat_of_ascii c in
  ((9 <=? n) && (n <=? 13) || (n =? 32))%nat.

Fixpoint trimStart (s : string) : string :=
  match s with
  | EmptyString => EmptyString
  | String c s' => if isWhiteSpace c then trimStart s' else s
  end.

(** [trimEnd] drops the trailing run of white space: a character is kept
    when something that is not white space follows or it is not white
    space itself. *)
Fixpoint trimEnd (s : string) : string :=
  match s with
  | EmptyString => EmptyString
  | String c s' =>
      match trimEnd s' with
      | EmptyString => if isWhiteSpace c then EmptyString
                       else String c EmptyString
      | r => String c r
      end
  end.

(** [s.trim()], for ASCII text. *)
Definition trim (s : string) : string := trimEnd (trimStart s).

(** The upper case of an ASCII character. *)
Definition upper (c : ascii) : ascii :=
  let n := nat_of_ascii c in
  if ((97 <=? n) && (n <=? 122))%nat then ascii_of_nat (n - 32) else c.

(** [s.toUpperCase()], for ASCII text. *)
Fixpoint toUpperCase (s : string) : string :=
  match s with
  | EmptyString => EmptyString
  | String c s' => String (upper c) (toUpperCase s')
  end.

(** [s.substring(0, n)], for ASCII text (one character per code unit). *)
Definition substring0 (n : nat) (s : string) : string :=
  String.substring 0 n s.

(** [s.split(sep)] for a one-character separator. *)
Fixpoint split (sep : ascii) (s : string) : list string :=
  match s with
  | EmptyString => [EmptyString]
  | String c s' =>
      if Ascii.eqb c sep then EmptyString :: split sep s'
      else match split sep s' with
           | [] => [String c EmptyString]
           | h :: t => String c h :: t
           end
  end.

(** [xs[i]], [None] standing for [undefined]. *)
Definition at_index {A : Type} (xs : list A) (i : nat) : option A :=
  nth_error xs i.

(** The value of a character as a digit in bases up to 36. *)
Definition digitValue (c : ascii) : option Z :=
  let n := nat_of_ascii c in
  if ((48 <=? n) && (n <=? 57))%nat then Some (Z.of_nat (n - 48))
  else if ((97 <=? n) && (n <=? 122))%nat then Some (Z.of_nat (n - 87))
  else if ((65 <=? n) && (n <=? 90))%nat then Some (Z.of_nat (n - 55))
  else None.

(** The longest prefix of [s] made of digits of base [radix], read
    left to right; [seen] tells whether a digit was consumed. *)
Fixpoint readDigits (radix : Z) (s : string) (acc : Z) (seen : bool)
  : number :=
  match s with
  | EmptyString => if seen then Num acc else NaN
  | String c s' =>
      match digitValue c with
      | Some d =>
          if d <? radix then readDigits radix s' (radix * acc + d) true
          else if seen then Num acc else NaN
      | None => if seen then Num acc else NaN
      end
  end.

Definition neg (x : number) : number :=
  match x with
  | NaN => NaN
  | Num z => Num (- z)
  end.

(** [parseInt(s)] with no radix: leading white space is skipped, a sign
    is read, a [0x]/[0X] prefix selects base 16, and the longest run of
    digits is converted; no digit gives [NaN]. *)
Definition parseIntString (s : string) : number :=
  let s1 := trimStart s in
  let '(negative, s2) :=
    match s1 with
    | String c r =>
        if Ascii.eqb c "-" then (true, r)
        else if Ascii.eqb c "+" then (false, r)
        else (false, s1)
    | EmptyString => (false, s1)
    end in
  let '(radix, s3) :=
    match s2 with
    | String c (String x r) =>
        if Ascii.eqb c "0" && (Ascii.eqb x "x" || Ascii.eqb x "X")
        then (16, r) else (10, s2)
    | _ => (10, s2)
    end in
  let v := readDigits radix s3 0 false in
  if negative then neg v else v.

(** [parseInt(x)] where [x] may be [undefined] (whose string form has
    no digit). *)
Definition parseInt (x : option string) : number :=
  match x with
  | None => NaN
  | Some s => parseIntString s
  end.

(** [String(x)] for a number: plain decimal digits, as JavaScript prints
    an integer below 10^21. *)
Definition String_ (x : number) : string :=
  match x with
  | NaN => "NaN"
  | Num z => NilZero.string_of_int (Z.to_int z)
  end.

Fixpoint repeat_char (c : ascii) (n : nat) : string :=
  match n with
  | O => EmptyString
  | S n' => String c (repeat_char c n')
  end.

(** [s.padStart(n, c)] for a one-character filler. *)
Definition padStart (n : nat) (c : ascii) (s : string) : string :=
  repeat_char c (n - String.length s) ++ s.

(** [s.includes(t)]. *)
Definition includes (s t : string) : bool :=
  match String.index 0 t s with
  | Some _ => true
  | None => false
  end.

(** [x || d] on a nullable number column: [null] and [0] are falsy. *)
Definition or_default (x : option Z) (d : Z) : Z :=
  match x with
  | None => d
  | Some 0 => d
  | Some v => v
  end.

End JS.

(* ===================================================================== *)
(** * SQL operators used by the statements *)
(* ===================================================================== *)

Module Sql.

(** [s LIKE p]: [%] stands for any run of characters, [_] for any one
    character, and a backslash takes the next character literally.  (A
    pattern that ends in a lone backslash is rejected by the database;
    the patterns built here end in [-%], so the case does not arise and
    is given [false].) *)
Fixpoint like (p s : string) {struct p} : bool :=
  match p with
  | EmptyString =>
      match s with EmptyString => true | _ => false end
  | String c p' =>
      if Ascii.eqb c "%" then
        (fix any (t : string) : bool :=
           like p' t ||
           match t with
           | EmptyString => false
           | String _ t' => any t'
           end) s
      else if Ascii.eqb c "_" then
        match s with
        | EmptyString => false
        | String _ s' => like p' s'
        end
      else if Ascii.eqb c "\" then
        match p' with
        | EmptyString => false
        | String c' p'' =>
            match s with
            | EmptyString => false
            | String d s' => Ascii.eqb c' d && like p'' s'
            end
        end
      else
        match s with
        | EmptyString => false
        | String d s' => Ascii.eqb c d && like p' s'
        end
  end.

Section OrderBy.
Context {A : Type} (le : A -> A -> bool).

(** [ORDER BY]: a stable insertion sort; rows that compare equal keep
    their physical order (the database leaves that order open). *)
Fixpoint insert (x : A) (l : list A) : list A :=
  match l with
  | [] => [x]
  | y :: l' => if le x y then x :: l else y :: insert x l'
  end.

Fixpoint order_by (l : list A) : list A :=
  match l with
  | [] => []
  | x :: l' => insert x (order_by l')
  end.
End OrderBy.

(** [LIMIT 1] followed by [rows[0]]. *)
Definition first_row {A : Type} (rows : list A) : option A := hd_error rows.

(** [UPDATE t SET ... WHERE cond RETURNING *]: the new table and the
    rows that were changed. *)
Definition update_where {A : Type} (cond : A -> bool) (set : A -> A)
    (rows : list A) : list A * list A :=
  (map (fun r => if cond r then set r else r) rows,
   map set (filter cond rows)).

End Sql.

(* ===================================================================== *)
(** * The tables *)
(* ===================================================================== *)

(** [queue_entries.status]: the five values the statements write and
    test. *)
Inductive queue_status : Type :=
| waiting | called | serving | completed | cancelled.

(** [counters.status]: the [allowedStatuses] of [Counter.updateStatus]. *)
Inductive counter_status : Type :=
| open | busy | closed | break.

(** The role carried by the authentication token. *)
Inductive role : Type :=
| student | counter_staff | admin.

Definition queue_status_eqb (a b : queue_status) : bool :=
  match a, b with
  | waiting, waiting | called, called | serving, serving
  | completed, completed | cancelled, cancelled => true
  | _, _ => false
  end.

Definition counter_status_eqb (a b : counter_status) : bool :=
  match a, b with
  | open, open | busy, busy | closed, closed | break, break => true
  | _, _ => false
  end.

Definition option_Z_eqb (a b : option Z) : bool :=
  match a, b with
  | Some x, Some y => x =? y
  | None, None => true
  | _, _ => false
  end.

(** The rows of [services], [queue_entries], [counters] and [queue_logs]:
    the columns the handlers read or write, each prefixed by its table
    since record fields share one name space.  Ids, instants and minutes
    are integers. *)
Record service : Type := {
  svc_id : Z;
  svc_name : string;
  svc_queue_prefix : option string;
  svc_estimated_service_time : option Z;
  svc_is_active : bool
}.

Record queue_entry : Type := {
  qe_id : Z;
  qe_user_id : Z;
  qe_service_id : Z;
  qe_queue_number : string;
  qe_queue_position : Z;
  qe_status : queue_status;
  qe_counter_id : option Z;
  qe_estimated_wait_time : Z;
  qe_requested_at : Z;
  qe_called_at : option Z;
  qe_started_serving_at : option Z;
  qe_completed_at : option Z;
  qe_cancelled_at : option Z
}.

Record counter : Type := {
  ctr_id : Z;
  ctr_service_id : Z;
  ctr_counter_number : Z;
  ctr_status : counter_status;
  ctr_current_serving_queue_id : option Z
}.

Record queue_log : Type := {
  log_queue_entry_id : Z;
  log_service_id : Z;
  log_counter_id : option Z;
  log_action : string;
  log_metadata : option string
}.

(** The [settings] document of [system_settings]. *)
Record settings : Type := {
  system_maintenance_mode : bool;
  maintenance_message : string
}.

(** The database: one list of rows per table, the [users] table reduced
    to its ids, and the sequence that numbers new queue entries. *)
Record db : Type := {
  services : list service;
  users : list Z;
  queue_entries : list queue_entry;
  counters : list counter;
  queue_logs : list queue_log;
  system_settings : list settings;
  queue_entries_id_seq : Z
}.

(** What a handler reads from its surroundings: the instant of the
    request ([NOW()] in the database), the day [new Date()] gives in
    ISO form, and the database's [DATE()] of an instant. *)
Record environment : Type := {
  now : Z;
  today : Z;
  DATE : Z -> Z
}.

(** The world a handler runs in.  [plan] schedules the store's failures:
    entry [Some msg] makes the next query throw [msg], [None] lets it
    through; past the end of the plan every query goes through. *)
Record world : Type := {
  store : db;
  env : environment;
  plan : list (option string)
}.

Definition set_queue_entries (s : db) (q : list queue_entry)
    (seq : Z) : db :=
  {| services := services s; users := users s; queue_entries := q;
     counters := counters s; queue_logs := queue_logs s;
     system_settings := system_settings s; queue_entries_id_seq := seq |}.

Definition set_counters (s : db) (c : list counter) : db :=
  {| services := services s; users := users s;
     queue_entries := queue_entries s; counters := c;
     queue_logs := queue_logs s; system_settings := system_settings s;
     queue_entries_id_seq := queue_entries_id_seq s |}.

Definition set_queue_logs (s : db) (l : list queue_log) : db :=
  {| services := services s; users := users s;
     queue_entries := queue_entries s; counters := counters s;
     queue_logs := l; system_settings := system_settings s;
     queue_entries_id_seq := queue_entries_id_seq s |}.

(* ===================================================================== *)
(** * The monad of handlers: state, exceptions, store failures *)
(* ===================================================================== *)

Inductive outcome (A : Type) : Type :=
| Val : A -> outcome A
| Exn : string -> outcome A.
Arguments Val {A} _.
Arguments Exn {A} _.

Definition M (A : Type) : Type := world -> outcome A * world.

Definition ret {A : Type} (a : A) : M A := fun w => (Val a, w).

Definition bind {A B : Type} (m : M A) (k : A -> M B) : M B :=
  fun w =>
    match m w with
    | (Val a, w') => k a w'
    | (Exn e, w') => (Exn e, w')
    end.

(** [throw new Error(msg)]. *)
Definition throw {A : Type} (msg : string) : M A := fun w => (Exn msg, w).

(** [try { m } catch (error) { h(error.message) }]. *)
Definition try_catch {A : Type} (m : M A) (h : string -> M A) : M A :=
  fun w =>
    match m w with
    | (Val a, w') => (Val a, w')
    | (Exn e, w') => h e w'
    end.

Declare Scope handler_scope.
Delimit Scope handler_scope with handler.
Notation "x <- m ;; k" := (bind m (fun x => k))
  (at level 61, m at next level, right associativity) : handler_scope.
Notation "m ;;; k" := (bind m (fun _ => k))
  (at level 61, right associativity) : handler_scope.
Local Open Scope handler_scope.

(** [await query(sql, params)]: the statement [stmt] runs on the store
    unless the plan makes this query fail. *)
Definition query {A : Type} (stmt : environment -> db -> A * db) : M A :=
  fun w =>
    match plan w with
    | Some msg :: rest =>
        (Exn msg, {| store := store w; env := env w; plan := rest |})
    | None :: rest =>
        let '(a, s') := stmt (env w) (store w) in
        (Val a, {| store := s'; env := env w; plan := rest |})
    | [] =>
        let '(a, s') := stmt (env w) (store w) in
        (Val a, {| store := s'; env := env w; plan := [] |})
    end.

(** A statement that only reads. *)
Definition select {A : Type} (rows : environment -> db -> A) : M A :=
  query (fun e s => (rows e s, s)).

(** [new Date().toISOString().split('T')[0]]. *)
Definition todayISO : M Z := fun w => (Val (today (env w)), w).

(** [rows[0]] of an [UPDATE ... RETURNING *] whose row is then
    dereferenced: an empty result makes the access throw. *)
Definition first_or_TypeError {A : Type} (rows : list A) : M A :=
  match rows with
  | r :: _ => ret r
  | [] => throw "Cannot read properties of undefined"
  end.

(* ===================================================================== *)
(** * models/Service.js *)
(* ===================================================================== *)

Module Service.

(** [Service.findById]: [SELECT ... FROM services WHERE id = $1]. *)
Definition findById (id : Z) : M (option service) :=
  select (fun _ s =>
    Sql.first_row (filter (fun r => svc_id r =? id) (services s))).

(** [Service.getQueueStatus]: an aggregate over [queue_entries]; its
    row only feeds the broadcast payloads. *)
Definition getQueueStatus (serviceId : Z) : M unit :=
  select (fun _ _ => tt).

End Service.

(* ===================================================================== *)
(** * models/Counter.js *)
(* ===================================================================== *)

Module Counter.

(** [Counter.findById]: the counter joined with its service. *)
Definition findById (id : Z) : M (option counter) :=
  select (fun _ s =>
    Sql.first_row
      (filter (fun c =>
                 (ctr_id c =? id) &&
                 existsb (fun sv => svc_id sv =? ctr_service_id c)
                         (services s))
              (counters s))).

(** The [allowedStatuses] of [updateStatus]. *)
Definition allowedStatuses (status : string) : option counter_status :=
  if String.eqb status "open" then Some open
  else if String.eqb status "busy" then Some busy
  else if String.eqb status "closed" then Some closed
  else if String.eqb status "break" then Some break
  else None.

Definition with_status (st : counter_status) (c : counter) : counter :=
  {| ctr_id := ctr_id c; ctr_service_id := ctr_service_id c;
     ctr_counter_number := ctr_counter_number c; ctr_status := st;
     ctr_current_serving_queue_id := ctr_current_serving_queue_id c |}.

Definition with_current_serving (q : option Z) (c : counter) : counter :=
  {| ctr_id := ctr_id c; ctr_service_id := ctr_service_id c;
     ctr_counter_number := ctr_counter_number c;
     ctr_status := ctr_status c;
     ctr_current_serving_queue_id := q |}.

(** [Counter.updateStatus]. *)
Definition updateStatus (counterId : Z) (status : string)
  : M (option counter) :=
  match allowedStatuses status with
  | None => throw "Invalid counter status"
  | Some st =>
      query (fun _ s =>
        let '(rows, changed) :=
          Sql.update_where (fun c => ctr_id c =? counterId)
                           (with_status st) (counters s) in
        (Sql.first_row changed, set_counters s rows))
  end.

(** [Counter.setCurrentServing]. *)
Definition setCurrentServing (counterId : Z) (queueEntryId : option Z)
  : M (option counter) :=
  query (fun _ s =>
    let '(rows, changed) :=
      Sql.update_where (fun c => ctr_id c =? counterId)
                       (with_current_serving queueEntryId) (counters s) in
    (Sql.first_row changed, set_counters s rows)).

(** [ORDER BY queue_position ASC, requested_at ASC]. *)
Definition position_then_requested (a b : queue_entry) : bool :=
  (qe_queue_position a <? qe_queue_position b) ||
  ((qe_queue_position a =? qe_queue_position b) &&
   (qe_requested_at a <=? qe_requested_at b)).

(** [Counter.getNextWaitingQueue]. *)
Definition getNextWaitingQueue (serviceId : Z) : M (option queue_entry) :=
  select (fun _ s =>
    Sql.first_row
      (Sql.order_by position_then_requested
         (filter (fun q =>
                    (qe_service_id q =? serviceId) &&
                    queue_status_eqb (qe_status q) waiting)
                 (queue_entries s)))).

End Counter.

(* ===================================================================== *)
(** * models/Queue.js *)
(* ===================================================================== *)

Module Queue.

(** [Queue.logQueueAction]: one row appended to [queue_logs]. *)
Definition logQueueAction (queueEntryId serviceId : Z)
    (counterId : option Z) (action : string) : M unit :=
  query (fun _ s =>
    (tt, set_queue_logs s
           (queue_logs s ++
            [ {| log_queue_entry_id := queueEntryId;
                 log_service_id := serviceId;
                 log_counter_id := counterId;
                 log_action := action;
                 log_metadata := None |} ])%list)).

(** The prefix of a service's numbers: the configured prefix when it is
    set and not blank, else the first three characters of the name. *)
Definition prefix_of (serviceName queue_prefix : string) : string :=
  if negb (String.eqb queue_prefix "") &&
     negb (String.eqb (JS.trim queue_prefix) "")
  then JS.toUpperCase (JS.trim queue_prefix)
  else JS.toUpperCase (JS.substring0 3 serviceName).

(** [ORDER BY id DESC]. *)
Definition id_desc (a b : queue_entry) : bool := qe_id b <=? qe_id a.

(** The statement that fetches the last number of the day. *)
Definition lastNumberSql (serviceId day : Z) (pattern : string)
    (e : environment) (s : db) : list string :=
  map qe_queue_number
    (firstn 1
       (Sql.order_by id_desc
          (filter (fun q =>
                     (qe_service_id q =? serviceId) &&
                     (DATE e (qe_requested_at q) =? day) &&
                     Sql.like pattern (qe_queue_number q))
                  (queue_entries s)))).

(** [Queue.generateQueueNumber]. *)
Definition generateQueueNumber (serviceId : Z) : M string :=
  serviceResult <- select (fun _ s =>
      map (fun r => (svc_name r,
                     match svc_queue_prefix r with
                     | Some p => p
                     | None => ""
                     end))
          (filter (fun r => svc_id r =? serviceId) (services s))) ;;
  match serviceResult with
  | [] => throw "Service not found"
  | (serviceName, queue_prefix) :: _ =>
      let prefix := prefix_of serviceName queue_prefix in
      day <- todayISO ;;
      lastResult <- select (lastNumberSql serviceId day (prefix ++ "-%")) ;;
      let nextNumber :=
        match lastResult with
        | [] => JS.Num 1
        | lastNumber :: _ =>
            let numberPart :=
              JS.parseInt (JS.at_index (JS.split "-" lastNumber) 1) in
            JS.add numberPart (JS.Num 1)
        end in
      ret (prefix ++ "-" ++ JS.padStart 3 "0" (JS.String_ nextNumber))
  end.

(** [Queue.calculateQueuePosition]. *)
Definition calculateQueuePosition (serviceId : Z) : M Z :=
  position <- select (fun e s =>
      Z.of_nat (List.length
        (filter (fun q =>
                   (qe_service_id q =? serviceId) &&
                   queue_status_eqb (qe_status q) waiting &&
                   (qe_requested_at q <? now e))
                (queue_entries s)))) ;;
  ret (position + 1).

(** The row [INSERT INTO queue_entries] stores: the id comes from the
    sequence, [requested_at] defaults to the instant of the insertion and
    the remaining columns to [NULL]. *)
Definition insertSql (userId serviceId : Z) (queueNumber : string)
    (queuePosition estimatedWaitTime : Z) (e : environment) (s : db)
  : queue_entry * db :=
  let row :=
    {| qe_id := queue_entries_id_seq s;
       qe_user_id := userId;
       qe_service_id := serviceId;
       qe_queue_number := queueNumber;
       qe_queue_position := queuePosition;
       qe_status := waiting;
       qe_counter_id := None;
       qe_estimated_wait_time := estimatedWaitTime;
       qe_requested_at := now e;
       qe_called_at := None;
       qe_started_serving_at := None;
       qe_completed_at := None;
       qe_cancelled_at := None |} in
  (row, set_queue_entries s (queue_entries s ++ [row])%list
                          (queue_entries_id_seq s + 1)).

(** [Queue.create]. *)
Definition create (userId serviceId : Z) : M queue_entry :=
  queueNumber <- generateQueueNumber serviceId ;;
  queuePosition <- calculateQueuePosition serviceId ;;
  serviceResult <- select (fun _ s =>
      map svc_estimated_service_time
          (filter (fun r => svc_id r =? serviceId) (services s))) ;;
  let estimatedWaitTime :=
    match serviceResult with
    | [] => 5
    | t :: _ => JS.or_default t 5
    end in
  row <- query (insertSql userId serviceId queueNumber queuePosition
                          (estimatedWaitTime * queuePosition)) ;;
  logQueueAction (qe_id row) serviceId None "created" ;;;
  ret row.

(** [Queue.findById]: the entry joined with its service and its user. *)
Definition findById (id : Z) : M (option queue_entry) :=
  select (fun _ s =>
    Sql.first_row
      (filter (fun q =>
                 (qe_id q =? id) &&
                 existsb (fun sv => svc_id sv =? qe_service_id q)
                         (services s) &&
                 existsb (fun u => u =? qe_user_id q) (users s))
              (queue_entries s))).

(** [status IN ('waiting', 'called', 'serving')]. *)
Definition active (st : queue_status) : bool :=
  match st with
  | waiting | called | serving => true
  | completed | cancelled => false
  end.

(** [Queue.findByUserAndService].  The statement has no [ORDER BY]: when
    several rows qualify, which of them the database returns first is
    open, and the list gives the one inserted first. *)
Definition findByUserAndService (userId serviceId : Z)
  : M (option queue_entry) :=
  select (fun _ s =>
    Sql.first_row
      (filter (fun q =>
                 (qe_user_id q =? userId) &&
                 (qe_service_id q =? serviceId) &&
                 active (qe_status q))
              (queue_entries s))).

(** [Queue.getServiceQueueStatus]: a listing whose rows only feed the
    broadcast payloads. *)
Definition getServiceQueueStatus (serviceId : Z) : M unit :=
  select (fun _ _ => tt).

Definition set_cancelled (t : Z) (q : queue_entry) : queue_entry :=
  {| qe_id := qe_id q; qe_user_id := qe_user_id q;
     qe_service_id := qe_service_id q;
     qe_queue_number := qe_queue_number q;
     qe_queue_position := qe_queue_position q;
     qe_status := cancelled;
     qe_counter_id := qe_counter_id q;
     qe_estimated_wait_time := qe_estimated_wait_time q;
     qe_requested_at := qe_requested_at q;
     qe_called_at := qe_called_at q;
     qe_started_serving_at := qe_started_serving_at q;
     qe_completed_at := qe_completed_at q;
     qe_cancelled_at := Some t |}.

(** [Queue.cancel]. *)
Definition cancel (queueId userId : Z) : M (option queue_entry) :=
  queueResult <- select (fun _ s =>
      filter (fun q => (qe_id q =? queueId) && (qe_user_id q =? userId))
             (queue_entries s)) ;;
  match queueResult with
  | [] => throw "Queue entry not found or access denied"
  | queue :: _ =>
      if queue_status_eqb (qe_status queue) completed ||
         queue_status_eqb (qe_status queue) cancelled
      then throw "Queue entry cannot be cancelled"
      else
        result <- query (fun e s =>
            let '(rows, changed) :=
              Sql.update_where (fun q => qe_id q =? queueId)
                               (set_cancelled (now e)) (queue_entries s) in
            (changed, set_queue_entries s rows (queue_entries_id_seq s))) ;;
        logQueueAction queueId (qe_service_id queue) (qe_counter_id queue)
                       "cancelled" ;;;
        ret (Sql.first_row result)
  end.

End Queue.

(* ===================================================================== *)
(** * socket/queueEvents.js *)
(* ===================================================================== *)

(** Every emitter wraps its body in [try]/[catch] and only logs a failure;
    it reads the store to build the payload and publishes it, and the
    publication itself is outside the store. *)
Module QueueEvents.

Definition swallow (body : M unit) : M unit :=
  try_catch body (fun _ => ret tt).

Definition refresh (serviceId : Z) : M unit :=
  Service.getQueueStatus serviceId ;;;
  Queue.getServiceQueueStatus serviceId.

(** The emitters read [queueEntry.service_id] first: an [undefined]
    entry makes the body throw, inside the [try]. *)
Definition with_entry (q : option queue_entry) (k : queue_entry -> M unit)
  : M unit :=
  match q with
  | Some q' => k q'
  | None => throw "Cannot read properties of undefined"
  end.

Definition emitQueueCreated (q : queue_entry) : M unit :=
  swallow (refresh (qe_service_id q)).

Definition emitQueueCalled (q : queue_entry) (c : counter) : M unit :=
  swallow (refresh (qe_service_id q)).

Definition emitQueueServingStarted (q : option queue_entry) (c : counter)
  : M unit :=
  swallow (with_entry q (fun _ => ret tt)).

Definition emitQueueCompleted (q : option queue_entry) (c : counter)
  : M unit :=
  swallow (with_entry q (fun q' => refresh (qe_service_id q'))).

Definition emitQueueCancelled (q : option queue_entry) : M unit :=
  swallow (with_entry q (fun q' => refresh (qe_service_id q'))).

End QueueEvents.

(* ===================================================================== *)
(** * Requests and responses *)
(* ===================================================================== *)

(** [req.user], as the authentication middleware attaches it. *)
Record req_user : Type := {
  userId : Z;
  user_role : role
}.

(** The [error] object of a failure response. *)
Record error_body : Type := {
  message : string;
  queueId : option Z;
  maintenanceMode : bool
}.

Definition error_message (msg : string) : error_body :=
  {| message := msg; queueId := None; maintenanceMode := false |}.

(** What a handler sends: the HTTP status with either the queue entry the
    [data] object is built from, or the [error] object. *)
Inductive response : Type :=
| json_success (status : Z) (data : queue_entry)
| json_error (status : Z) (error : error_body).

Definition fail (status : Z) (msg : string) : M response :=
  ret (json_error status (error_message msg)).

Definition is_staff (r : role) : bool :=
  match r with
  | counter_staff | admin => true
  | student => false
  end.

(* ===================================================================== *)
(** * controllers/queueController.js *)
(* ===================================================================== *)

Module queueController.

Definition default_settings : settings :=
  {| system_maintenance_mode := false; maintenance_message := "" |}.

(** [getSystemSettings]: a failing query gives the defaults. *)
Definition getSystemSettings : M settings :=
  try_catch
    (rows <- select (fun _ s => system_settings s) ;;
     match rows with
     | r :: _ => ret r
     | [] => ret default_settings
     end)
    (fun _ => ret default_settings).

(** [requestQueue]; [serviceId] is the field of the request body. *)
Definition requestQueue (user : req_user) (serviceId : option Z)
  : M response :=
  try_catch
    (match serviceId with
     | None | Some 0 => fail 400 "Service ID is required"
     | Some serviceId =>
         systemSettings <- getSystemSettings ;;
         if system_maintenance_mode systemSettings then
           ret (json_error 503
                  {| message :=
                       if String.eqb (maintenance_message systemSettings) ""
                       then "System is currently under maintenance. Please try again later."
                       else maintenance_message systemSettings;
                     queueId := None;
                     maintenanceMode := true |})
         else
           service <- Service.findById serviceId ;;
           match service with
           | None => fail 404 "Service not found or inactive"
           | Some sv =>
               if negb (svc_is_active sv)
               then fail 404 "Service not found or inactive"
               else
                 existingQueue <-
                   Queue.findByUserAndService (userId user) serviceId ;;
                 match existingQueue with
                 | Some q =>
                     ret (json_error 400
                            {| message :=
                                 "You already have an active queue for this service";
                               queueId := Some (qe_id q);
                               maintenanceMode := false |})
                 | None =>
                     queueEntry <- Queue.create (userId user) serviceId ;;
                     QueueEvents.emitQueueCreated queueEntry ;;;
                     ret (json_success 201 queueEntry)
                 end
           end
     end)
    (fun _ => fail 500 "Error creating queue entry").

(** [cancelQueue]. *)
Definition cancelQueue (user : req_user) (queueId : Z) : M response :=
  try_catch
    (cancelledQueue <- Queue.cancel queueId (userId user) ;;
     QueueEvents.emitQueueCancelled cancelledQueue ;;;
     match cancelledQueue with
     | Some row => ret (json_success 200 row)
     | None => throw "Cannot read properties of undefined"
     end)
    (fun msg =>
       if JS.includes msg "not found" ||
          JS.includes msg "cannot be cancelled"
       then fail 400 msg
       else fail 500 "Error cancelling queue").

End queueController.

(* ===================================================================== *)
(** * controllers/counterController.js *)
(* ===================================================================== *)

Module counterController.

Definition set_called (counterId t : Z) (q : queue_entry) : queue_entry :=
  {| qe_id := qe_id q; qe_user_id := qe_user_id q;
     qe_service_id := qe_service_id q;
     qe_queue_number := qe_queue_number q;
     qe_queue_position := qe_queue_position q;
     qe_status := called;
     qe_counter_id := Some counterId;
     qe_estimated_wait_time := qe_estimated_wait_time q;
     qe_requested_at := qe_requested_at q;
     qe_called_at := Some t;
     qe_started_serving_at := qe_started_serving_at q;
     qe_completed_at := qe_completed_at q;
     qe_cancelled_at := qe_cancelled_at q |}.

Definition set_serving (t : Z) (q : queue_entry) : queue_entry :=
  {| qe_id := qe_id q; qe_user_id := qe_user_id q;
     qe_service_id := qe_service_id q;
     qe_queue_number := qe_queue_number q;
     qe_queue_position := qe_queue_position q;
     qe_status := serving;
     qe_counter_id := qe_counter_id q;
     qe_estimated_wait_time := qe_estimated_wait_time q;
     qe_requested_at := qe_requested_at q;
     qe_called_at := qe_called_at q;
     qe_started_serving_at := Some t;
     qe_completed_at := qe_completed_at q;
     qe_cancelled_at := qe_cancelled_at q |}.

Definition set_completed (t : Z) (q : queue_entry) : queue_entry :=
  {| qe_id := qe_id q; qe_user_id := qe_user_id q;
     qe_service_id := qe_service_id q;
     qe_queue_number := qe_queue_number q;
     qe_queue_position := qe_queue_position q;
     qe_status := completed;
     qe_counter_id := qe_counter_id q;
     qe_estimated_wait_time := qe_estimated_wait_time q;
     qe_requested_at := qe_requested_at q;
     qe_called_at := qe_called_at q;
     qe_started_serving_at := qe_started_serving_at q;
     qe_completed_at := Some t;
     qe_cancelled_at := qe_cancelled_at q |}.

(** An [UPDATE queue_entries SET ... WHERE id = $1 RETURNING *]. *)
Definition updateQueueSql (id : Z) (set : Z -> queue_entry -> queue_entry)
  : M (list queue_entry) :=
  query (fun e s =>
    let '(rows, changed) :=
      Sql.update_where (fun q => qe_id q =? id) (set (now e))
                       (queue_entries s) in
    (changed, set_queue_entries s rows (queue_entries_id_seq s))).

(** [callNext]. *)
Definition callNext (user : req_user) (counterId : Z) : M response :=
  try_catch
    (if negb (is_staff (user_role user))
     then fail 403 "Access denied. Counter staff only."
     else
       counter <- Counter.findById counterId ;;
       match counter with
       | None => fail 404 "Counter not found"
       | Some counter =>
           if counter_status_eqb (ctr_status counter) closed
           then fail 400 "Counter is closed"
           else
             nextQueue <-
               Counter.getNextWaitingQueue (ctr_service_id counter) ;;
             match nextQueue with
             | None => fail 404 "No waiting queues available"
             | Some nextQueue =>
                 queueResult <-
                   updateQueueSql (qe_id nextQueue) (set_called counterId) ;;
                 updatedQueue <- first_or_TypeError queueResult ;;
                 Counter.setCurrentServing counterId
                   (Some (qe_id updatedQueue)) ;;;
                 Counter.updateStatus counterId "busy" ;;;
                 Queue.logQueueAction (qe_id updatedQueue)
                   (ctr_service_id counter) (Some counterId) "called" ;;;
                 QueueEvents.emitQueueCalled updatedQueue counter ;;;
                 ret (json_success 200 updatedQueue)
             end
       end)
    (fun _ => fail 500 "Error calling next queue").

(** [startServing]. *)
Definition startServing (user : req_user) (counterId queueId : Z)
  : M response :=
  try_catch
    (if negb (is_staff (user_role user))
     then fail 403 "Access denied. Counter staff only."
     else
       counter <- Counter.findById counterId ;;
       match counter with
       | None => fail 404 "Counter not found"
       | Some counter =>
           queueEntry <- Queue.findById queueId ;;
           match queueEntry with
           | None => fail 404 "Queue entry not found"
           | Some queueEntry =>
               if negb (option_Z_eqb (qe_counter_id queueEntry)
                                     (Some counterId))
               then fail 400 "Queue entry is not assigned to this counter"
               else
                 result <- updateQueueSql queueId set_serving ;;
                 Queue.logQueueAction queueId (ctr_service_id counter)
                   (Some counterId) "started" ;;;
                 QueueEvents.emitQueueServingStarted
                   (Sql.first_row result) counter ;;;
                 updatedQueue <- first_or_TypeError result ;;
                 ret (json_success 200 updatedQueue)
           end
       end)
    (fun _ => fail 500 "Error starting service").

(** [completeService]. *)
Definition completeService (user : req_user) (counterId queueId : Z)
  : M response :=
  try_catch
    (if negb (is_staff (user_role user))
     then fail 403 "Access denied. Counter staff only."
     else
       counter <- Counter.findById counterId ;;
       match counter with
       | None => fail 404 "Counter not found"
       | Some counter =>
           queueEntry <- Queue.findById queueId ;;
           match queueEntry with
           | None => fail 404 "Queue entry not found"
           | Some queueEntry =>
               if negb (option_Z_eqb (qe_counter_id queueEntry)
                                     (Some counterId))
               then fail 400 "Queue entry is not assigned to this counter"
               else
                 result <- updateQueueSql queueId set_completed ;;
                 Counter.setCurrentServing counterId None ;;;
                 Counter.updateStatus counterId "open" ;;;
                 Queue.logQueueAction queueId (ctr_service_id counter)
                   (Some counterId) "completed" ;;;
                 QueueEvents.emitQueueCompleted
                   (Sql.first_row result) counter ;;;
                 updatedQueue <- first_or_TypeError result ;;
                 ret (json_success 200 updatedQueue)
           end
       end)
    (fun _ => fail 500 "Error completing service").

End counterController.

(* ===================================================================== *)
(** * The specification's wording, for comparison *)
(* ===================================================================== *)

Module Spec.

Definition isDigit (c : ascii) : bool :=
  let n := nat_of_ascii c in ((48 <=? n) && (n <=? 57))%nat.

Fixpoint decimal_acc (s : string) (acc : Z) : option Z :=
  match s with
  | EmptyString => Some acc
  | String c s' =>
      if isDigit c
      then decimal_acc s' (10 * acc + Z.of_nat (nat_of_ascii c - 48))
      else None
  end.

(** The number a non-empty string of decimal digits denotes. *)
Definition decimal_value (s : string) : option Z :=
  match s with
  | EmptyString => None
  | _ => decimal_acc s 0
  end.

Fixpoint strip_prefix (p s : string) : option string :=
  match p, s with
  | EmptyString, _ => Some s
  | String a p', String b s' =>
      if Ascii.eqb a b then strip_prefix p' s' else None
  | String _ _, EmptyString => None
  end.

(** The numeric suffix of a number of the form PREFIX-NNN. *)
Definition numeric_suffix (prefix number : string) : option Z :=
  match strip_prefix (prefix ++ "-") number with
  | Some r => decimal_value r
  | None => None
  end.

(** "finds the highest numeric suffix" (0 when there is none). *)
Definition highest_suffix (prefix : string) (rows : list queue_entry) : Z :=
  fold_right
    (fun q m =>
       match numeric_suffix prefix (qe_queue_number q) with
       | Some n => Z.max n m
       | None => m
       end)
    0 rows.

(** "explicit configured prefix if present and non-blank (trimmed,
    upper-cased), else the first three letters of the service name,
    upper-cased". *)
Definition prefix (sv : service) : string :=
  match svc_queue_prefix sv with
  | Some p =>
      if String.eqb (JS.trim p) ""
      then JS.toUpperCase (JS.substring0 3 (svc_name sv))
      else JS.toUpperCase (JS.trim p)
  | None => JS.toUpperCase (JS.substring0 3 (svc_name sv))
  end.

(** A ticket number counts for a prefix when it starts with PREFIX-. *)
Definition has_prefix (prefix number : string) : bool :=
  match strip_prefix (prefix ++ "-") number with
  | Some _ => true
  | None => false
  end.

(** Section 4.1, [nextTicketNumber(serviceId, day)]: the prefix, then
    the highest suffix of the day's tickets of the service plus one,
    zero-padded to three digits; [None] when the service does not
    resolve. *)
Definition nextTicketNumber (e : environment) (s : db) (serviceId : Z)
  : option string :=
  match find (fun r => svc_id r =? serviceId) (services s) with
  | None => None
  | Some sv =>
      let todays :=
        filter (fun q => (qe_service_id q =? serviceId) &&
                         (DATE e (qe_requested_at q) =? today e))
               (queue_entries s) in
      Some (prefix sv ++ "-" ++
            JS.padStart 3 "0"
              (JS.String_ (JS.Num (highest_suffix (prefix sv) todays + 1))))
  end.

(** A prefix without the characters the sequencer treats specially: the
    hyphen it splits on and the wildcards and escape of [LIKE]. *)
Fixpoint plain (s : string) : bool :=
  match s with
  | EmptyString => true
  | String c s' =>
      negb (Ascii.eqb c "-") && negb (Ascii.eqb c "%") &&
      negb (Ascii.eqb c "_") && negb (Ascii.eqb c "\") && plain s'
  end.

(** Text within the ASCII range, where the built-ins of [JS] agree with
    JavaScript. *)
Fixpoint ascii_text (s : string) : bool :=
  match s with
  | EmptyString => true
  | String c s' => (nat_of_ascii c <? 128)%nat && ascii_text s'
  end.

(** A service whose name and configured prefix are ASCII. *)
Definition ascii_service (sv : service) : bool :=
  ascii_text (svc_name sv) &&
  match svc_queue_prefix sv with
  | Some p => ascii_text p
  | None => true
  end.

Fixpoint no_hyphen (s : string) : bool :=
  match s with
  | EmptyString => true
  | String c s' => negb (Ascii.eqb c "-") && no_hyphen s'
  end.

(** The day's tickets of a service that carry a prefix. *)
Definition todays (s : db) (e : environment) (sid : Z) (prefix : string)
    (q : queue_entry) : Prop :=
  In q (queue_entries s) /\ qe_service_id q = sid /\
  DATE e (qe_requested_at q) = today e /\
  has_prefix prefix (qe_queue_number q) = true.

(** The key "next waiting" minimises: (queue_position, requested_at),
    compared lexicographically. *)
Definition key_le (a b : queue_entry) : Prop :=
  qe_queue_position a < qe_queue_position b \/
  (qe_queue_position a = qe_queue_position b /\
   qe_requested_at a <= qe_requested_at b).

(** The tickets a (user, service) pair holds in a non-terminal status. *)
Definition active_tickets (u sid : Z) (s : db) : list queue_entry :=
  filter (fun q => (qe_user_id q =? u) && (qe_service_id q =? sid) &&
                   Queue.active (qe_status q))
         (queue_entries s).

(** "at most one ticket per (user, service) in a non-terminal status". *)
Definition single_active (s : db) : Prop :=
  forall u sid, (List.length (active_tickets u sid s) <= 1)%nat.

(** The waiting tickets of a service. *)
Definition waiting_of (sid : Z) (s : db) : list queue_entry :=
  filter (fun q => (qe_service_id q =? sid) &&
                   queue_status_eqb (qe_status q) waiting)
         (queue_entries s).

(** The columns admission freezes, per row. *)
Definition frozen (q : queue_entry) : Z * Z * Z :=
  (qe_id q, qe_queue_position q, qe_estimated_wait_time q).

(** The position [calculateQueuePosition] gives at instant [now e]:
    the waiting tickets of the service requested before that instant,
    plus one. *)
Definition admission_position (sid : Z) (e : environment) (s : db) : Z :=
  Z.of_nat (List.length
    (filter (fun q => (qe_service_id q =? sid) &&
                      queue_status_eqb (qe_status q) waiting &&
                      (qe_requested_at q <? now e))
            (queue_entries s))) + 1.

(** The frozen columns of the rows of [s] are those of the same rows
    in [s']. *)
Definition frozen_same (s s' : db) : Prop :=
  map frozen (queue_entries s') = map frozen (queue_entries s).

(** As [frozen_same], but rows may have been added after the old
    ones. *)
Definition frozen_kept (s s' : db) : Prop :=
  exists added,
    map frozen (queue_entries s')
    = (map frozen (queue_entries s) ++ added)%list.

End Spec.

(* ===================================================================== *)
(** * Running handlers *)
(* ===================================================================== *)

(** A world whose store never fails. *)
Definition reliable (s : db) (e : environment) : world :=
  {| store := s; env := e; plan := [] |}.

(** Counters of one service calling "next" one after the other, nothing
    else happening in between: the entries claimed, in the order of the
    calls, up to the first call that does not succeed. *)
Fixpoint call_repeatedly (user : req_user) (counterIds : list Z) (w : world)
  : list queue_entry * world :=
  match counterIds with
  | [] => ([], w)
  | c :: rest =>
      match counterController.callNext user c w with
      | (Val (json_success _ q), w') =>
          let '(qs, w'') := call_repeatedly user rest w' in (q :: qs, w'')
      | (_, w') => ([], w')
      end
  end.

(** [m] relates the store it starts from to the store it leaves by [R],
    whatever it returns or throws and whatever the plan, and it leaves
    the environment alone. *)
Definition preserves {A : Type} (R : db -> db -> Prop) (m : M A) : Prop :=
  forall w r w', m w = (r, w') -> R (store w) (store w') /\ env w' = env w.

(** The claim [callNext] performs on entry [m] for counter [c]. *)
Definition claimed (c t : Z) (m : queue_entry) (rows : list queue_entry)
  : list queue_entry :=
  map (fun x => if qe_id x =? qe_id m
                then counterController.set_called c t x else x) rows.

(** The five ticket operations, as requests. *)
Inductive operation : Type :=
| op_request (user : req_user) (serviceId : option Z)
| op_call (user : req_user) (counterId : Z)
| op_start (user : req_user) (counterId queueId : Z)
| op_complete (user : req_user) (counterId queueId : Z)
| op_cancel (user : req_user) (queueId : Z).

Definition handle (o : operation) : M response :=
  match o with
  | op_request u sid => queueController.requestQueue u sid
  | op_call u c => counterController.callNext u c
  | op_start u c q => counterController.startServing u c q
  | op_complete u c q => counterController.completeService u c q
  | op_cancel u q => queueController.cancelQueue u q
  end.

Definition is_error (r : outcome response) : bool :=
  match r with
  | Val (json_error _ _) => true
  | _ => false
  end.

Definition is_success (r : outcome response) : bool :=
  match r with
  | Val (json_success _ _) => true
  | _ => false
  end.

(* ===================================================================== *)
(** * Sample data *)
(* ===================================================================== *)

Module Sample.

(** Instants in milliseconds, days counted in UTC. *)
Definition clock (t : Z) : environment :=
  {| now := t; today := t / 86400000; DATE := fun x => x / 86400000 |}.

Definition registrar : service :=
  {| svc_id := 1; svc_name := "Registrar"; svc_queue_prefix := None;
     svc_estimated_service_time := Some 5; svc_is_active := true |}.

Definition xray : service :=
  {| svc_id := 2; svc_name := "X-Ray"; svc_queue_prefix := None;
     svc_estimated_service_time := Some 10; svc_is_active := true |}.

Definition walkin : service :=
  {| svc_id := 3; svc_name := "Walk-in desk"; svc_queue_prefix := Some "  ";
     svc_estimated_service_time := Some 0; svc_is_active := true |}.

Definition window (id : Z) (st : counter_status) (cur : option Z)
  : counter :=
  {| ctr_id := id; ctr_service_id := 1; ctr_counter_number := id;
     ctr_status := st; ctr_current_serving_queue_id := cur |}.

Definition ticket (id user sid : Z) (number : string) (pos : Z)
    (st : queue_status) (ctr : option Z) (req : Z) : queue_entry :=
  {| qe_id := id; qe_user_id := user; qe_service_id := sid;
     qe_queue_number := number; qe_queue_position := pos;
     qe_status := st; qe_counter_id := ctr;
     qe_estimated_wait_time := 5 * pos; qe_requested_at := req;
     qe_called_at := None; qe_started_serving_at := None;
     qe_completed_at := None; qe_cancelled_at := None |}.

Definition base (q : list queue_entry) (c : list counter) : db :=
  {| services := [registrar; xray; walkin]; users := [10; 11; 12];
     queue_entries := q; counters := c; queue_logs := [];
     system_settings := [];
     queue_entries_id_seq := 1 + Z.of_nat (List.length q) |}.

Definition student10 : req_user := {| userId := 10; user_role := student |}.
Definition student11 : req_user := {| userId := 11; user_role := student |}.
Definition staff : req_user := {| userId := 12; user_role := counter_staff |}.

(** The world in which the next request arrives, at instant [t], after
    a handler has answered. *)
Definition later (r : outcome response * world) (t : Z) : world :=
  reliable (store (snd r)) (clock t).

(** One user, one service, one counter: request, call, start, complete,
    request again, and then the counter starts the completed ticket
    anew. *)
Definition day_start : world :=
  reliable (base [] [window 1 open None]) (clock 1000).
Definition step1 := queueController.requestQueue student10 (Some 1) day_start.
Definition step2 := counterController.callNext staff 1 (later step1 2000).
Definition step3 := counterController.startServing staff 1 1 (later step2 3000).
Definition step4 := counterController.completeService staff 1 1 (later step3 4000).
Definition step5 := queueController.requestQueue student10 (Some 1) (later step4 5000).
Definition step6 := counterController.startServing staff 1 1 (later step5 6000).

End Sample.

(* ===================================================================== *)
(** * Invariants of the store *)
(* ===================================================================== *)

(** Ids are a key of [queue_entries] and the sequence that numbers new
    rows is ahead of every stored id. *)
Definition ids_fresh (s : db) : Prop :=
  NoDup (map qe_id (queue_entries s)) /\
  forall q, In q (queue_entries s) -> qe_id q < queue_entries_id_seq s.

(** The columns of a queue entry that only [INSERT] assigns. *)
Definition written_once (q : queue_entry)
  : Z * Z * Z * string * Z * Z * Z :=
  (qe_id q, qe_user_id q, qe_service_id q, qe_queue_number q,
   qe_queue_position q, qe_estimated_wait_time q, qe_requested_at q).

(** No row is deleted and no written-once column is changed: the
    written-once columns of the rows of [s] are found among those of
    [s'], each as often as before, in whatever order the rows are kept. *)
Definition tickets_kept (s s' : db) : Prop :=
  exists added,
    Permutation (map written_once (queue_entries s'))
                (map written_once (queue_entries s) ++ added)%list.

(** The columns of a counter the handlers never assign. *)
Definition counter_identity (c : counter) : Z * Z * Z :=
  (ctr_id c, ctr_service_id c, ctr_counter_number c).

(** The tables other than [queue_entries]: the counters keep their
    identity, the log only grows, and services, users and settings are
    as they were. *)
Definition surroundings_kept (s s' : db) : Prop :=
  map counter_identity (counters s') = map counter_identity (counters s) /\
  (exists added, queue_logs s' = (queue_logs s ++ added)%list) /\
  services s' = services s /\ users s' = users s /\
  system_settings s' = system_settings s.

(** The invariant [ids_fresh] carried from one store to the next. *)
Definition keeps_ids_fresh (s s' : db) : Prop :=
  ids_fresh s -> ids_fresh s'.

(** The row [Counter.findById] selects: the first counter with the id
    whose service exists. *)
Definition counter_row (s : db) (c : Z) : option counter :=
  Sql.first_row
    (filter (fun x => (ctr_id x =? c) &&
                      existsb (fun sv => svc_id sv =? ctr_service_id x)
                              (services s))
            (counters s)).

(** The row [Queue.findById] selects: the first entry with the id whose
    service and user exist. *)
Definition entry_row (s : db) (qid : Z) : option queue_entry :=
  Sql.first_row
    (filter (fun q => (qe_id q =? qid) &&
                      existsb (fun sv => svc_id sv =? qe_service_id q)
                              (services s) &&
                      existsb (fun u => u =? qe_user_id q) (users s))
            (queue_entries s)).

(** The counters [cs] exist, belong to service [sid] and are not
    closed. *)
Definition counters_serve (s : db) (sid : Z) (cs : list Z) : Prop :=
  forall c, In c cs ->
    exists ctr, counter_row s c = Some ctr /\ ctr_service_id ctr = sid /\
                ctr_status ctr <> closed.

(** The number [Queue.generateQueueNumber] computes for service [sv]. *)
Definition next_number (s : db) (e : environment) (sid : Z) (sv : service)
  : string :=
  Spec.prefix sv ++ "-" ++
  JS.padStart 3 "0"
    (JS.String_
       match Queue.lastNumberSql sid (today e) (Spec.prefix sv ++ "-%") e s with
       | [] => JS.Num 1
       | lastNumber :: _ =>
           JS.add (JS.parseInt (JS.at_index (JS.split "-" lastNumber) 1))
                  (JS.Num 1)
       end).

(** The HTTP status of a response. *)
Definition status_code (r : response) : Z :=
  match r with
  | json_success st _ => st
  | json_error st _ => st
  end.

Definition is_request (o : operation) : bool :=
  match o with
  | op_request _ _ => true
  | _ => false
  end.

(** The [action] each operation writes to [queue_logs]. *)
Definition action_of (o : operation) : string :=
  match o with
  | op_request _ _ => "created"
  | op_call _ _ => "called"
  | op_start _ _ _ => "started"
  | op_complete _ _ _ => "completed"
  | op_cancel _ _ => "cancelled"
  end.

(** The counter an operation acts for, if any. *)
Definition counter_of (o : operation) : option Z :=
  match o with
  | op_call _ c | op_start _ c _ | op_complete _ c _ => Some c
  | op_request _ _ | op_cancel _ _ => None
  end.

(** The settings [getSystemSettings] reads from a store that answers. *)
Definition current_settings (s : db) : settings :=
  match system_settings s with
  | row :: _ => row
  | [] => queueController.default_settings
  end.

(** Requests for one service handled one after the other over a store
    that answers, the request of user [u] arriving at instant [t] ([D] is
    the database's [DATE], which also gives the day of the server's
    clock): the entries created, in order, and the final store. *)
Fixpoint request_each (D : Z -> Z) (sid : Z) (reqs : list (req_user * Z))
    (s : db) : list queue_entry * db :=
  match reqs with
  | [] => ([], s)
  | (u, t) :: rest =>
      let e := {| now := t; today := D t; DATE := D |} in
      let r := queueController.requestQueue u (Some sid) (reliable s e) in
      let '(qs, s') := request_each D sid rest (store (snd r)) in
      (match fst r with
       | Val (json_success _ q) => q :: qs
       | _ => qs
       end, s')
  end.

(** The queue number with prefix [p] and sequence number [i]. *)
Definition number_of (p : string) (i : nat) : string :=
  p ++ "-" ++ JS.padStart 3 "0" (JS.String_ (JS.Num (Z.of_nat i))).

(** What the entries of service [sid] on day [d] look like after [k]
    numbers have been given: none yet, or a last one that carries number
    [k] and the highest id. *)
Definition day_state (D : Z -> Z) (d sid : Z) (sv : service) (s : db)
    (k : nat) : Prop :=
  ids_fresh s /\
  find (fun row => svc_id row =? sid) (services s) = Some sv /\
  match k with
  | O => forall q, In q (queue_entries s) -> qe_service_id q = sid ->
                   D (qe_requested_at q) <> d
  | S _ =>
      exists last,
        In last (queue_entries s) /\ qe_service_id last = sid /\
        D (qe_requested_at last) = d /\
        qe_queue_number last = number_of (Spec.prefix sv) k /\
        forall q, In q (queue_entries s) -> q = last \/ qe_id q < qe_id last
  end.

(* ===================================================================== *)
(** * Further functions of the models and the controllers *)
(* ===================================================================== *)


(** A response whose [data] is of type [A]. *)
Inductive reply (A : Type) : Type :=
| reply_success (status : Z) (data : A)
| reply_error (status : Z) (error : error_body).
Arguments reply_success {A} _ _.
Arguments reply_error {A} _ _.

(** [x || d] on a parsed number: [NaN] and [0] are falsy. *)
Definition number_or (x : JS.number) (d : Z) : Z :=
  match x with
  | JS.NaN => d
  | JS.Num 0 => d
  | JS.Num v => v
  end.


(** A [COUNT] of rows, which the driver hands over as the decimal string of
    a [bigint]. *)
Definition count_text {A : Type} (rows : list A) : string :=
  JS.String_ (JS.Num (Z.of_nat (List.length rows))).

(** [MIN(x)] over rows, [NULL] over none. *)
Definition min_of (xs : list Z) : option Z :=
  match xs with
  | [] => None
  | x :: rest => Some (fold_left Z.min rest x)
  end.





(** models/Service.js, continued. *)
Module ServiceExt.



(** The row of [Service.getQueueStatus], without its [avg_wait_time]
    (an average, which is not an integer). *)
Record queue_status_row : Type := {
  waiting_count : string;
  called_count : string;
  serving_count : string;
  next_position : option Z
}.

(** [Service.getQueueStatus]: the counts over the active entries of the
    service.  An aggregate without [GROUP BY] has exactly one row, so the
    fallback object of the source is never used. *)
Definition getQueueStatus (serviceId : Z) : M queue_status_row :=
  select (fun _ s =>
    let rows :=
      filter (fun q => (qe_service_id q =? serviceId) &&
                       Queue.active (qe_status q))
             (queue_entries s) in
    let of_status st :=
      filter (fun q => queue_status_eqb (qe_status q) st) rows in
    {| waiting_count := count_text (of_status waiting);
       called_count := count_text (of_status called);
       serving_count := count_text (of_status serving);
       next_position := min_of (map qe_queue_position (of_status waiting)) |}).

End ServiceExt.

(** models/Queue.js, continued. *)
Module QueueExt.

(** The [CASE qe.status ... END] of the listing's [ORDER BY]; it has no
    [ELSE], and the [NULL] of the other statuses sorts last. *)
Definition status_rank (st : queue_status) : Z :=
  match st with
  | serving => 1
  | called => 2
  | waiting => 3
  | completed | cancelled => 4
  end.

(** [ORDER BY CASE qe.status ... END, qe.queue_position]. *)
Definition rank_then_position (a b : queue_entry * option Z) : bool :=
  let ra := status_rank (qe_status (fst a)) in
  let rb := status_rank (qe_status (fst b)) in
  (ra <? rb) ||
  ((ra =? rb) && (qe_queue_position (fst a) <=? qe_queue_position (fst b))).

(** [Queue.getServiceQueueStatus]: the active entries of the service,
    each with the number of its counter ([LEFT JOIN counters]). *)
Definition getServiceQueueStatus (serviceId : Z)
  : M (list (queue_entry * option Z)) :=
  select (fun _ s =>
    Sql.order_by rank_then_position
      (flat_map
         (fun q =>
            match filter (fun c => option_Z_eqb (qe_counter_id q)
                                                (Some (ctr_id c)))
                         (counters s) with
            | [] => [(q, None)]
            | cs => map (fun c => (q, Some (ctr_counter_number c))) cs
            end)
         (filter (fun q => (qe_service_id q =? serviceId) &&
                           Queue.active (qe_status q))
                 (queue_entries s)))).





End QueueExt.

(** controllers/queueController.js, continued. *)
Module queueControllerExt.

(** [getQueueStatus]. *)
Definition getQueueStatus (user : req_user) (queueId : Z)
  : M (reply queue_entry) :=
  try_catch
    (queueEntry <- Queue.findById queueId ;;
     match queueEntry with
     | None => ret (reply_error 404 (error_message "Queue entry not found"))
     | Some queueEntry =>
         if negb (qe_user_id queueEntry =? userId user) &&
            negb (is_staff (user_role user))
         then ret (reply_error 403 (error_message "Access denied"))
         else ret (reply_success 200 queueEntry)
     end)
    (fun _ =>
       ret (reply_error 500 (error_message "Error fetching queue status"))).

(** The [data] of [getServiceQueueStatus], without its
    [averageWaitTime]. *)
Record service_queue_status : Type := {
  status_serviceId : Z;
  serviceName : string;
  currentServing : option string;
  waitingCount : Z;
  calledCount : Z;
  servingCount : Z
}.

(** [getServiceQueueStatus]. *)
Definition getServiceQueueStatus (serviceId : Z)
  : M (reply service_queue_status) :=
  try_catch
    (service <- Service.findById serviceId ;;
     match service with
     | None => ret (reply_error 404 (error_message "Service not found"))
     | Some service =>
         queueStatus <- ServiceExt.getQueueStatus serviceId ;;
         queueEntries <- QueueExt.getServiceQueueStatus serviceId ;;
         let currentServing :=
           match find (fun q => queue_status_eqb (qe_status (fst q)) serving)
                      queueEntries with
           | Some q =>
               if String.eqb (qe_queue_number (fst q)) "" then None
               else Some (qe_queue_number (fst q))
           | None => None
           end in
         ret (reply_success 200
                {| status_serviceId := serviceId;
                   serviceName := svc_name service;
                   currentServing := currentServing;
                   waitingCount :=
                     number_or (JS.parseInt
                                  (Some (ServiceExt.waiting_count queueStatus))) 0;
                   calledCount :=
                     number_or (JS.parseInt
                                  (Some (ServiceExt.called_count queueStatus))) 0;
                   servingCount :=
                     number_or (JS.parseInt
                                  (Some (ServiceExt.serving_count queueStatus))) 0
                |})
     end)
    (fun _ =>
       ret (reply_error 500
              (error_message "Error fetching service queue status"))).




End queueControllerExt.

(** controllers/counterController.js, continued. *)
Module counterControllerExt.

(** [updateCounterStatus]; [status] is the field of the request body. *)
Definition updateCounterStatus (user : req_user) (counterId : Z)
    (status : option string) : M (reply (option counter)) :=
  try_catch
    (if negb (is_staff (user_role user))
     then ret (reply_error 403
                 (error_message "Access denied. Counter staff only."))
     else
       match status with
       | None => ret (reply_error 400 (error_message "Status is required"))
       | Some status =>
           if String.eqb status ""
           then ret (reply_error 400 (error_message "Status is required"))
           else
             updatedCounter <- Counter.updateStatus counterId status ;;
             ret (reply_success 200 updatedCounter)
       end)
    (fun msg =>
       if String.eqb msg "Invalid counter status"
       then ret (reply_error 400 (error_message msg))
       else ret (reply_error 500
                   (error_message "Error updating counter status"))).

(** The [data] of [getCounterById]: the counter, the entry it points to
    and the counts of its service's queue. *)
Record counter_details : Type := {
  details_counter : counter;
  details_currentServing : option (Z * string * queue_status);
  details_waitingCount : Z;
  details_calledCount : Z;
  details_servingCount : Z
}.

(** [getCounterById]. *)
Definition getCounterById (id : Z) : M (reply counter_details) :=
  try_catch
    (counter <- Counter.findById id ;;
     match counter with
     | None => ret (reply_error 404 (error_message "Counter not found"))
     | Some counter =>
         currentServing <-
           match ctr_current_serving_queue_id counter with
           | None | Some 0 => ret None
           | Some queueId => Queue.findById queueId
           end ;;
         queueStatus <- ServiceExt.getQueueStatus (ctr_service_id counter) ;;
         ret (reply_success 200
                {| details_counter := counter;
                   details_currentServing :=
                     match currentServing with
                     | Some q =>
                         Some (qe_id q, qe_queue_number q, qe_status q)
                     | None => None
                     end;
                   details_waitingCount :=
                     number_or (JS.parseInt
                                  (Some (ServiceExt.waiting_count queueStatus))) 0;
                   details_calledCount :=
                     number_or (JS.parseInt
                                  (Some (ServiceExt.called_count queueStatus))) 0;
                   details_servingCount :=
                     number_or (JS.parseInt
                                  (Some (ServiceExt.serving_count queueStatus))) 0
                |})
     end)
    (fun _ => ret (reply_error 500 (error_message "Error fetching counter"))).

End counterControllerExt.

Definition is_start (o : operation) : bool :=
  match o with
  | op_start _ _ _ => true
  | _ => false
  end.

(* ===================================================================== *)
(** * Handlers in flight together *)
(* ===================================================================== *)

(** An async function, one awaited query at a time: it has returned, it
    has thrown, or it waits for the answer to a query and goes on with
    it.  Between two awaits nothing else runs; at an await the store may
    answer the query of another request first. *)
Inductive task (A : Type) : Type :=
| Return (a : A)
| Raise (msg : string)
| Await {X : Type} (q : M X) (k : X -> task A).
Arguments Return {A} _.
Arguments Raise {A} _.
Arguments Await {A X} _ _.

(** A task that runs alone, from its first await to its end. *)
Fixpoint run {A : Type} (t : task A) : M A :=
  match t with
  | Return a => ret a
  | Raise msg => throw msg
  | Await q k => x <- q ;; run (k x)
  end.




(** [Queue.create] with [Queue.generateQueueNumber] and
    [Queue.calculateQueuePosition] inlined, cut at its six awaits; each
    definition is the function from one await on. *)
Module QueueTask.

Definition log_created (serviceId : Z) (row : queue_entry)
  : task queue_entry :=
  Await (Queue.logQueueAction (qe_id row) serviceId None "created")
        (fun _ => Return row).

Definition insert_row (userId serviceId : Z) (queueNumber : string)
    (queuePosition : Z) (serviceResult : list (option Z))
  : task queue_entry :=
  let estimatedWaitTime :=
    match serviceResult with
    | [] => 5
    | t :: _ => JS.or_default t 5
    end in
  Await (query (Queue.insertSql userId serviceId queueNumber queuePosition
                                (estimatedWaitTime * queuePosition)))
        (log_created serviceId).

Definition read_estimate (userId serviceId : Z) (queueNumber : string)
    (queuePosition : Z) : task queue_entry :=
  Await (select (fun _ s =>
           map svc_estimated_service_time
               (filter (fun r => svc_id r =? serviceId) (services s))))
        (insert_row userId serviceId queueNumber queuePosition).

Definition read_position (userId serviceId : Z) (queueNumber : string)
  : task queue_entry :=
  Await (Queue.calculateQueuePosition serviceId)
        (read_estimate userId serviceId queueNumber).

Definition read_last_number (userId serviceId : Z) (prefix : string)
  : task queue_entry :=
  Await (day <- todayISO ;;
         select (Queue.lastNumberSql serviceId day (prefix ++ "-%")))
        (fun lastResult =>
           let nextNumber :=
             match lastResult with
             | [] => JS.Num 1
             | lastNumber :: _ =>
                 let numberPart :=
                   JS.parseInt (JS.at_index (JS.split "-" lastNumber) 1) in
                 JS.add numberPart (JS.Num 1)
             end in
           read_position userId serviceId
             (prefix ++ "-" ++ JS.padStart 3 "0" (JS.String_ nextNumber))).

Definition create (userId serviceId : Z) : task queue_entry :=
  Await (select (fun _ s =>
           map (fun r => (svc_name r,
                          match svc_queue_prefix r with
                          | Some p => p
                          | None => ""
                          end))
               (filter (fun r => svc_id r =? serviceId) (services s))))
        (fun serviceResult =>
           match serviceResult with
           | [] => Raise "Service not found"
           | (serviceName, queue_prefix) :: _ =>
               read_last_number userId serviceId
                 (Queue.prefix_of serviceName queue_prefix)
           end).

End QueueTask.











(* ===================================================================== *)
(** * The scenarios of the specification *)
(* ===================================================================== *)

(** Scenario A: the first two requests of the day for "Registrar" get
    REG-001 at position 1 and REG-002 at position 2. *)
Example scenario_A :
  let first := queueController.requestQueue Sample.student10 (Some 1)
                 Sample.day_start in
  let second := queueController.requestQueue Sample.student11 (Some 1)
                  (Sample.later first 1500) in
  map (fun q => (qe_queue_number q, qe_queue_position q, qe_status q))
      (queue_entries (store (snd second)))
  = [("REG-001", 1, waiting); ("REG-002", 2, waiting)].
Proof. vm_compute. reflexivity. Qed.

(** Scenario B: the counter calls next and claims REG-001; the counter
    becomes busy and the ticket called. *)
Example scenario_B :
  let first := queueController.requestQueue Sample.student10 (Some 1)
                 Sample.day_start in
  let second := queueController.requestQueue Sample.student11 (Some 1)
                  (Sample.later first 1500) in
  let call := counterController.callNext Sample.staff 1
                (Sample.later second 2000) in
  map (fun q => (qe_queue_number q, qe_status q, qe_counter_id q))
      (queue_entries (store (snd call)))
  = [("REG-001", called, Some 1); ("REG-002", waiting, None)] /\
  map (fun c => (ctr_status c, ctr_current_serving_queue_id c))
      (counters (store (snd call)))
  = [(busy, Some 1)].
Proof. vm_compute. split; reflexivity. Qed.

(** Scenario C: while REG-001 is called, the owner of REG-002 cancels it;
    the counters are unaffected. *)
Example scenario_C :
  let first := queueController.requestQueue Sample.student10 (Some 1)
                 Sample.day_start in
  let second := queueController.requestQueue Sample.student11 (Some 1)
                  (Sample.later first 1500) in
  let call := counterController.callNext Sample.staff 1
                (Sample.later second 2000) in
  let cancel := queueController.cancelQueue Sample.student11 2
                  (Sample.later call 2500) in
  is_success (fst cancel) = true /\
  map qe_status (queue_entries (store (snd cancel))) = [called; cancelled] /\
  counters (store (snd cancel)) = counters (store (snd call)).
Proof. vm_compute. repeat split. Qed.

(** Scenario D: start then complete on REG-001; the counter is open again
    and serves nothing. *)
Example scenario_D :
  map qe_status (queue_entries (store (snd Sample.step4))) = [completed] /\
  map (fun c => (ctr_status c, ctr_current_serving_queue_id c))
      (counters (store (snd Sample.step4)))
  = [(open, None)].
Proof. vm_compute. split; reflexivity. Qed.

(** Scenario E: in maintenance mode a request is refused with status 503
    and the configured message, while the counter still serves the
    tickets already waiting. *)
Example scenario_E :
  let closed_for_new :=
    {| services := services (store (snd Sample.step1));
       users := users (store (snd Sample.step1));
       queue_entries := queue_entries (store (snd Sample.step1));
       counters := counters (store (snd Sample.step1));
       queue_logs := queue_logs (store (snd Sample.step1));
       system_settings :=
         [ {| system_maintenance_mode := true;
              maintenance_message := "Back at noon" |} ];
       queue_entries_id_seq :=
         queue_entries_id_seq (store (snd Sample.step1)) |} in
  let w := reliable closed_for_new (Sample.clock 2000) in
  fst (queueController.requestQueue Sample.student11 (Some 1) w)
  = Val (json_error 503
           {| message := "Back at noon"; queueId := None;
              maintenanceMode := true |}) /\
  is_success (fst (counterController.callNext Sample.staff 1 w)) = true.
Proof. vm_compute. split; reflexivity. Qed.

(** The built-ins on the inputs the sequencer meets. *)
Example prefix_of_name :
  Queue.prefix_of "Registrar" "" = "REG" /\
  Queue.prefix_of "Clinic" " cli " = "CLI" /\
  Queue.prefix_of "Clinic" "   " = "CLI".
Proof. vm_compute. repeat split. Qed.

Example zero_padding :
  map (fun n => JS.padStart 3 "0" (JS.String_ (JS.Num n))) [1; 42; 999; 1000]
  = ["001"; "042"; "999"; "1000"].
Proof. vm_compute. reflexivity. Qed.

Example parseInt_cases :
  map JS.parseIntString ["005"; "42abc"; "R"; ""; " +7"; "0x1F"]
  = [JS.Num 5; JS.Num 42; JS.NaN; JS.NaN; JS.Num 7; JS.Num 31].
Proof. vm_compute. reflexivity. Qed.

Example like_cases :
  map (Sql.like "REG-%") ["REG-001"; "REG-"; "REGX-001"; "reg-001"]
  = [true; true; false; false] /\
  map (Sql.like "R_G-%") ["REG-001"; "RxG-9"; "RG-1"] = [true; true; false].
Proof. vm_compute. split; reflexivity. Qed.

(* ===================================================================== *)
(** * Facts about the monad *)
(* ===================================================================== *)

Section MonadFacts.
Context {A B : Type}.

Lemma bind_val (m : M A) (k : A -> M B) w a w1 :
  m w = (Val a, w1) -> bind m k w = k a w1.
Proof. intros H. unfold bind. now rewrite H. Qed.

Lemma bind_val_inv (m : M A) (k : A -> M B) w b w' :
  bind m k w = (Val b, w') ->
  exists a w1, m w = (Val a, w1) /\ k a w1 = (Val b, w').
Proof.
  unfold bind. destruct (m w) as [[a|msg] w1]; intros H.
  - now exists a, w1.
  - discriminate.
Qed.

Lemma bind_inv (m : M A) (k : A -> M B) w r w' :
  bind m k w = (r, w') ->
  (exists msg, m w = (Exn msg, w') /\ r = Exn msg) \/
  (exists a w1, m w = (Val a, w1) /\ k a w1 = (r, w')).
Proof.
  unfold bind. destruct (m w) as [[a|msg] w1]; intros H.
  - right. now exists a, w1.
  - left. inversion H; subst. now exists msg.
Qed.

Lemma try_catch_val_inv (m : M A) (h : string -> M A) w a w' :
  try_catch m h w = (Val a, w') ->
  m w = (Val a, w') \/ exists msg w1, m w = (Exn msg, w1) /\ h msg w1 = (Val a, w').
Proof.
  unfold try_catch. destruct (m w) as [[x|msg] w1]; intros H.
  - now left.
  - right. now exists msg, w1.
Qed.

(** A query either throws and leaves the store alone, or runs its
    statement. *)
Lemma query_cases (stmt : environment -> db -> A * db) w :
  (exists msg w', query stmt w = (Exn msg, w') /\
                  store w' = store w /\ env w' = env w) \/
  (exists w', query stmt w = (Val (fst (stmt (env w) (store w))), w') /\
              store w' = snd (stmt (env w) (store w)) /\ env w' = env w).
Proof.
  unfold query. destruct (plan w) as [|[msg|] rest].
  - right. destruct (stmt (env w) (store w)) as [a s']. eexists. simpl. eauto.
  - left. eexists _, _. simpl. eauto.
  - right. destruct (stmt (env w) (store w)) as [a s']. eexists. simpl. eauto.
Qed.

Lemma query_val_inv (stmt : environment -> db -> A * db) w a w' :
  query stmt w = (Val a, w') ->
  a = fst (stmt (env w) (store w)) /\
  store w' = snd (stmt (env w) (store w)) /\ env w' = env w.
Proof.
  destruct (query_cases stmt w) as [(msg & w1 & E & _)|(w1 & E & Hs & He)];
    rewrite E; intros H; inversion H; subst; auto.
Qed.

Lemma select_inv (rows : environment -> db -> A) w r w' :
  select rows w = (r, w') ->
  store w' = store w /\ env w' = env w /\
  (forall a, r = Val a -> a = rows (env w) (store w)).
Proof.
  unfold select.
  destruct (query_cases (fun e s => (rows e s, s)) w)
    as [(m & w1 & E & Hs & He)|(w1 & E & Hs & He)];
    rewrite E; intros H; inversion H; subst; simpl in *;
    repeat split; auto; intros a Ha; now inversion Ha.
Qed.

Lemma query_reliable (stmt : environment -> db -> A * db) s e :
  query stmt (reliable s e) =
  (Val (fst (stmt e s)), reliable (snd (stmt e s)) e).
Proof. unfold query, reliable. simpl. now destruct (stmt e s). Qed.

Lemma select_reliable (rows : environment -> db -> A) s e :
  select rows (reliable s e) = (Val (rows e s), reliable s e).
Proof. unfold select. now rewrite query_reliable. Qed.

End MonadFacts.

(* ===================================================================== *)
(** * Terminal states *)
(* ===================================================================== *)

(** C1 (terminal immutability) at a concrete store.  Ticket 1 is
    [completed] and ticket 2 is [cancelled]; both still carry the id of
    counter 1, which called them.  A staff member asks counter 1 to start
    ticket 1 and to complete ticket 2.  Both requests are answered with
    status 200 and both tickets leave their terminal state: ticket 1
    becomes [serving] and ticket 2 becomes [completed].  [startServing]
    and [completeService] compare the counter only and never look at the
    ticket's status, whereas [Queue.cancel] refuses terminal tickets. *)
Theorem terminal_ticket_restarted_by_its_counter :
  let t1 := Sample.ticket 1 10 1 "REG-001" 1 completed (Some 1) 1000 in
  let t2 := Sample.ticket 2 11 1 "REG-002" 2 cancelled (Some 1) 2000 in
  let s := Sample.base [t1; t2] [Sample.window 1 open None] in
  let w := reliable s (Sample.clock 5000) in
  let started := counterController.startServing Sample.staff 1 1 w in
  let finished := counterController.completeService Sample.staff 1 2 w in
  let refused := queueController.cancelQueue Sample.student10 1 w in
  (exists q, fst started = Val (json_success 200 q) /\
             qe_id q = 1 /\ qe_status q = serving) /\
  map qe_status (queue_entries (store (snd started))) = [serving; cancelled] /\
  (exists q, fst finished = Val (json_success 200 q) /\
             qe_id q = 2 /\ qe_status q = completed) /\
  map qe_status (queue_entries (store (snd finished)))
  = [completed; completed] /\
  fst refused
  = Val (json_error 400 (error_message "Queue entry cannot be cancelled")) /\
  store (snd refused) = s.
Proof.
  vm_compute. repeat split; eexists; repeat split.
Qed.

(* ===================================================================== *)
(** * Strings: prefixes, [LIKE], [split] and [parseInt] *)
(* ===================================================================== *)

Section StringFacts.

(** Under [LIKE], a lone [%] matches everything. *)
Lemma like_percent s : Sql.like "%" s = true.
Proof.
  induction s as [|c s IH]; [reflexivity|].
  simpl in *. exact IH.
Qed.

Lemma plain_cons c p :
  Spec.plain (String c p) = true ->
  Ascii.eqb c "-" = false /\ Ascii.eqb c "%" = false /\
  Ascii.eqb c "_" = false /\ Ascii.eqb c "\" = false /\
  Spec.plain p = true.
Proof.
  simpl. rewrite !andb_true_iff, !negb_true_iff. tauto.
Qed.

(** For a prefix free of wildcards, [LIKE 'PREFIX-%'] is "starts with
    PREFIX-". *)
Lemma like_plain_prefix p s :
  Spec.plain p = true ->
  Sql.like (p ++ "-%") s = Spec.has_prefix p s.
Proof.
  unfold Spec.has_prefix. revert s.
  induction p as [|c p IH]; intros s Hp.
  - destruct s as [|d s]; [reflexivity|].
    change (Sql.like ("" ++ "-%") (String d s))
      with (Ascii.eqb "-" d && Sql.like "%" s).
    rewrite like_percent, andb_true_r. simpl.
    now destruct (Ascii.eqb "-" d).
  - apply plain_cons in Hp as (H1 & H2 & H3 & H4 & Hp).
    simpl. rewrite H2, H3, H4.
    destruct s as [|d s]; [reflexivity|].
    destruct (Ascii.eqb c d); simpl; [now apply IH | reflexivity].
Qed.

Lemma plain_no_hyphen p : Spec.plain p = true -> Spec.no_hyphen p = true.
Proof.
  induction p as [|c p IH]; [reflexivity|].
  intros H. apply plain_cons in H as (H1 & _ & _ & _ & Hp).
  simpl. now rewrite H1, IH.
Qed.

Lemma split_no_hyphen s : Spec.no_hyphen s = true -> JS.split "-" s = [s].
Proof.
  induction s as [|c s IH]; [reflexivity|].
  simpl. rewrite andb_true_iff, negb_true_iff. intros [Hc Hs].
  now rewrite Hc, IH.
Qed.

Lemma split_hyphen_app p r :
  Spec.no_hyphen p = true ->
  JS.split "-" (p ++ String "-" r) = p :: JS.split "-" r.
Proof.
  induction p as [|c p IH]; [reflexivity|].
  simpl. rewrite andb_true_iff, negb_true_iff. intros [Hc Hp].
  now rewrite Hc, IH.
Qed.

Lemma isDigit_bounds c :
  Spec.isDigit c = true -> (48 <= nat_of_ascii c <= 57)%nat.
Proof.
  unfold Spec.isDigit. rewrite andb_true_iff, !Nat.leb_le. tauto.
Qed.

Lemma nat_of_ascii_eqb_false c d :
  nat_of_ascii c <> nat_of_ascii d -> Ascii.eqb c d = false.
Proof.
  intros H. destruct (Ascii.eqb_spec c d); [subst; congruence | reflexivity].
Qed.

Lemma digit_not_hyphen c : Spec.isDigit c = true -> Ascii.eqb c "-" = false.
Proof.
  intros H. apply isDigit_bounds in H. apply nat_of_ascii_eqb_false.
  change (nat_of_ascii "-") with 45%nat. lia.
Qed.

Lemma decimal_acc_no_hyphen ds acc n :
  Spec.decimal_acc ds acc = Some n -> Spec.no_hyphen ds = true.
Proof.
  revert acc. induction ds as [|c ds IH]; intros acc H; [reflexivity|].
  simpl in *. destruct (Spec.isDigit c) eqn:Hc; [|discriminate].
  rewrite (digit_not_hyphen _ Hc). simpl. eauto.
Qed.

Lemma digitValue_digit c :
  Spec.isDigit c = true ->
  JS.digitValue c = Some (Z.of_nat (nat_of_ascii c - 48)) /\
  (Z.of_nat (nat_of_ascii c - 48) <? 10) = true.
Proof.
  intros H. unfold JS.digitValue. unfold Spec.isDigit in H. rewrite H.
  split; [reflexivity|].
  apply isDigit_bounds in H. apply Z.ltb_lt. lia.
Qed.

Lemma readDigits_decimal ds acc n :
  Spec.decimal_acc ds acc = Some n -> JS.readDigits 10 ds acc true = JS.Num n.
Proof.
  revert acc. induction ds as [|c ds IH]; intros acc H; simpl in *.
  - now inversion H.
  - destruct (Spec.isDigit c) eqn:Hc; [|discriminate].
    destruct (digitValue_digit _ Hc) as [-> ->]. now apply IH.
Qed.

(** [parseInt] of a string of decimal digits is the number they
    denote. *)
Lemma parseInt_decimal ds n :
  Spec.decimal_value ds = Some n -> JS.parseIntString ds = JS.Num n.
Proof.
  destruct ds as [|c ds]; [discriminate|].
  unfold Spec.decimal_value. intros H.
  assert (Hc : Spec.isDigit c = true).
  { simpl in H. now destruct (Spec.isDigit c). }
  pose proof (isDigit_bounds _ Hc) as Hb.
  assert (Hws : JS.isWhiteSpace c = false).
  { unfold JS.isWhiteSpace.
    destruct (Nat.leb_spec 9 (nat_of_ascii c)), (Nat.leb_spec (nat_of_ascii c) 13),
      (Nat.eqb_spec (nat_of_ascii c) 32); simpl; try reflexivity; lia. }
  assert (Hm : Ascii.eqb c "-" = false) by now apply digit_not_hyphen.
  assert (Hp : Ascii.eqb c "+" = false).
  { apply nat_of_ascii_eqb_false. change (nat_of_ascii "+") with 43%nat. lia. }
  unfold JS.parseIntString. simpl JS.trimStart. rewrite Hws, Hm, Hp.
  assert (Hx : match ds with
               | String x r =>
                   if Ascii.eqb c "0" && (Ascii.eqb x "x" || Ascii.eqb x "X")
                   then (16, r) else (10, String c ds)
               | EmptyString => (10, String c ds)
               end = (10, String c ds)).
  { destruct ds as [|x r]; [reflexivity|].
    assert (Hd : Spec.isDigit x = true).
    { simpl in H. rewrite Hc in H. simpl in H. now destruct (Spec.isDigit x). }
    apply isDigit_bounds in Hd.
    rewrite (nat_of_ascii_eqb_false x "x"), (nat_of_ascii_eqb_false x "X").
    - now rewrite andb_false_r.
    - change (nat_of_ascii "X") with 88%nat. lia.
    - change (nat_of_ascii "x") with 120%nat. lia. }
  rewrite Hx. simpl in H |- *. rewrite Hc in H.
  destruct (digitValue_digit _ Hc) as [-> ->].
  now apply readDigits_decimal.
Qed.

(** The segment the sequencer parses: the text between the first and
    the second hyphen. *)
Lemma numberPart_of_plain_number p ds n :
  Spec.plain p = true ->
  Spec.decimal_value ds = Some n ->
  JS.parseInt (JS.at_index (JS.split "-" (p ++ "-" ++ ds)) 1) = JS.Num n.
Proof.
  intros Hp Hd.
  change (p ++ "-" ++ ds) with (p ++ String "-" ds).
  rewrite split_hyphen_app by now apply plain_no_hyphen.
  rewrite split_no_hyphen.
  - simpl. now apply parseInt_decimal.
  - destruct ds; [discriminate|]. unfold Spec.decimal_value in Hd.
    eapply decimal_acc_no_hyphen; eauto.
Qed.

(** Blank and unset prefixes fall back to the name, as the
    specification words it. *)
Lemma prefix_of_spec sv :
  Queue.prefix_of (svc_name sv)
    (match svc_queue_prefix sv with Some p => p | None => "" end)
  = Spec.prefix sv.
Proof.
  unfold Queue.prefix_of, Spec.prefix.
  destruct (svc_queue_prefix sv) as [p|]; [|reflexivity].
  destruct (String.eqb_spec p "") as [->|Hp]; [reflexivity|].
  simpl. now destruct (String.eqb (JS.trim p) "").
Qed.

End StringFacts.

(* ===================================================================== *)
(** * Lists: [ORDER BY ... LIMIT 1] and [WHERE] *)
(* ===================================================================== *)

Section OrderByFacts.
Context {A : Type} (le : A -> A -> bool).

Lemma insert_In x y l : In y (Sql.insert le x l) <-> y = x \/ In y l.
Proof.
  induction l as [|a l IH]; simpl.
  - intuition.
  - destruct (le x a); simpl; [intuition|]. rewrite IH. intuition.
Qed.

Lemma order_by_In y l : In y (Sql.order_by le l) <-> In y l.
Proof.
  induction l as [|a l IH]; simpl; [tauto|].
  rewrite insert_In, IH. intuition.
Qed.

Lemma order_by_hd_In m l :
  hd_error (Sql.order_by le l) = Some m -> In m l.
Proof.
  intros H. apply order_by_In.
  destruct (Sql.order_by le l); inversion H; subst. now left.
Qed.

Lemma order_by_nonempty l :
  l <> [] -> exists m, hd_error (Sql.order_by le l) = Some m.
Proof.
  intros H. destruct (Sql.order_by le l) as [|m t] eqn:E; [|now exists m].
  destruct l as [|a l]; [congruence|].
  assert (In a (Sql.order_by le (a :: l))) by (apply order_by_In; now left).
  rewrite E in *. contradiction.
Qed.

(** The first row of a sorted table is below every row, for a total
    and transitive order. *)
Lemma order_by_hd_least :
  (forall x y, le x y = false -> le y x = true) ->
  (forall x y z, le x y = true -> le y z = true -> le x z = true) ->
  forall l m, hd_error (Sql.order_by le l) = Some m ->
              forall y, In y l -> le m y = true.
Proof.
  intros total trans.
  assert (refl : forall x, le x x = true).
  { intros x. destruct (le x x) eqn:E; [reflexivity|].
    rewrite <- E. now apply total. }
  intros l m Hm y Hy. apply (order_by_In y l) in Hy.
  revert m Hm y Hy. induction l as [|a l IH]; intros m Hm y Hy.
  - contradiction.
  - simpl in *. destruct (Sql.order_by le l) as [|h t].
    + simpl in *. inversion Hm; subst. destruct Hy as [<-|[]]. apply refl.
    + simpl in Hm, Hy. destruct (le a h) eqn:E.
      * inversion Hm; subst m. destruct Hy as [<-|Hy]; [apply refl|].
        apply trans with h; [exact E|]. now apply IH.
      * inversion Hm; subst m. destruct Hy as [<-|Hy]; [apply refl|].
        apply insert_In in Hy as [->|Hy]; [now apply total|].
        apply IH; [reflexivity | now right].
Qed.

(** A row strictly above all the others comes first. *)
Lemma order_by_hd_top l x :
  In x l ->
  (forall y, In y l -> y = x \/ le y x = false) ->
  (forall y, In y l -> le x y = true) ->
  hd_error (Sql.order_by le l) = Some x.
Proof.
  induction l as [|a l IH]; intros Hx Hlt Hle; [contradiction|].
  simpl. destruct Hx as [->|Hx].
  - destruct (Sql.order_by le l) as [|h t] eqn:E; [reflexivity|].
    simpl. rewrite Hle; [reflexivity|].
    right. apply order_by_In. rewrite E. now left.
  - assert (H : hd_error (Sql.order_by le l) = Some x).
    { apply IH; auto; intros y Hy; [apply Hlt | apply Hle]; now right. }
    destruct (Sql.order_by le l) as [|h t]; [discriminate|].
    inversion H; subst h. simpl.
    destruct (Hlt a (or_introl eq_refl)) as [->| ->]; [|reflexivity].
    now destruct (le x x).
Qed.

End OrderByFacts.

Section FilterFacts.
Context {A : Type}.

Lemma find_filter (f : A -> bool) l x :
  find f l = Some x -> exists rest, filter f l = x :: rest.
Proof.
  induction l as [|a l IH]; simpl; [discriminate|].
  destruct (f a) eqn:E; intros H.
  - inversion H; subst. eauto.
  - now apply IH.
Qed.

Lemma filter_hd_find (f : A -> bool) l :
  hd_error (filter f l) = find f l.
Proof.
  induction l as [|a l IH]; simpl; [reflexivity|].
  now destruct (f a).
Qed.

Lemma filter_none (f : A -> bool) l :
  (forall x, In x l -> f x = false) -> filter f l = [].
Proof.
  induction l as [|a l IH]; intros H; simpl; [reflexivity|].
  rewrite (H a (or_introl eq_refl)). apply IH. intros x Hx. apply H. now right.
Qed.

Lemma filter_ext_in_bool (f g : A -> bool) l :
  (forall x, In x l -> f x = g x) -> filter f l = filter g l.
Proof.
  induction l as [|a l IH]; intros H; simpl; [reflexivity|].
  rewrite (H a (or_introl eq_refl)), IH; [reflexivity|].
  intros x Hx. apply H. now right.
Qed.

End FilterFacts.

(* ===================================================================== *)
(** * The ticket sequencer *)
(* ===================================================================== *)

Section Sequencer.
Variables (s : db) (e : environment) (sid : Z).

Lemma generateQueueNumber_run sv :
  find (fun r => svc_id r =? sid) (services s) = Some sv ->
  Queue.generateQueueNumber sid (reliable s e) =
  (Val (Spec.prefix sv ++ "-" ++
        JS.padStart 3 "0"
          (JS.String_
             match Queue.lastNumberSql sid (today e) (Spec.prefix sv ++ "-%") e s with
             | [] => JS.Num 1
             | lastNumber :: _ =>
                 JS.add (JS.parseInt (JS.at_index (JS.split "-" lastNumber) 1))
                        (JS.Num 1)
             end)),
   reliable s e).
Proof.
  intros Hsv. apply find_filter in Hsv as [rest Hsv].
  unfold Queue.generateQueueNumber.
  rewrite (bind_val _ _ _ _ _ (select_reliable _ s e)).
  rewrite Hsv. cbn [map]. rewrite prefix_of_spec.
  unfold bind at 1. unfold todayISO at 1. cbn [env reliable today].
  rewrite (bind_val _ _ _ _ _ (select_reliable _ s e)).
  reflexivity.
Qed.

Lemma lastNumberSql_plain prefix :
  Spec.plain prefix = true ->
  Queue.lastNumberSql sid (today e) (prefix ++ "-%") e s =
  map qe_queue_number
    (firstn 1
       (Sql.order_by Queue.id_desc
          (filter (fun q => (qe_service_id q =? sid) &&
                            (DATE e (qe_requested_at q) =? today e) &&
                            Spec.has_prefix prefix (qe_queue_number q))
                  (queue_entries s)))).
Proof.
  intros Hp. unfold Queue.lastNumberSql. do 3 f_equal.
  apply filter_ext_in_bool. intros q _. now rewrite like_plain_prefix.
Qed.

Lemma todays_filter prefix q :
  In q (filter (fun q => (qe_service_id q =? sid) &&
                         (DATE e (qe_requested_at q) =? today e) &&
                         Spec.has_prefix prefix (qe_queue_number q))
               (queue_entries s)) <-> Spec.todays s e sid prefix q.
Proof.
  unfold Spec.todays. rewrite filter_In, !andb_true_iff, !Z.eqb_eq. tauto.
Qed.

End Sequencer.

(** C2 (ticket sequencing), as the code has it.  For a service that
    resolves, whose name and configured prefix are ASCII text, and whose
    prefix (the configured prefix trimmed and upper-cased when set and
    not blank, else the first three characters of the name upper-cased)
    has no hyphen and no [LIKE] wildcard: when the
    service has no ticket of the day with that prefix the number is
    PREFIX-001; otherwise it is PREFIX-(n+1) zero-padded to three digits,
    where n is the numeric suffix of the most recently inserted such
    ticket (the one with the highest id), which need not be the highest
    suffix. *)
Theorem generateQueueNumber_last_plus_one :
  forall (s : db) (e : environment) (sid : Z) (sv : service),
    find (fun r => svc_id r =? sid) (services s) = Some sv ->
    Spec.ascii_service sv = true ->
    Spec.plain (Spec.prefix sv) = true ->
    ((forall q, ~ Spec.todays s e sid (Spec.prefix sv) q) ->
     Queue.generateQueueNumber sid (reliable s e)
     = (Val (Spec.prefix sv ++ "-001"), reliable s e))
    /\
    (forall (last : queue_entry) (digits : string) (n : Z),
        Spec.todays s e sid (Spec.prefix sv) last ->
        (forall q, Spec.todays s e sid (Spec.prefix sv) q ->
                   q = last \/ qe_id q < qe_id last) ->
        qe_queue_number last = Spec.prefix sv ++ "-" ++ digits ->
        Spec.decimal_value digits = Some n ->
        n + 1 < 2 ^ 53 ->
        Queue.generateQueueNumber sid (reliable s e)
        = (Val (Spec.prefix sv ++ "-" ++
                JS.padStart 3 "0" (JS.String_ (JS.Num (n + 1)))),
           reliable s e)).
Proof.
  intros s e sid sv Hsv _ Hplain.
  rewrite (generateQueueNumber_run s e sid sv Hsv).
  rewrite (lastNumberSql_plain s e sid _ Hplain).
  split.
  - intros Hnone. rewrite filter_none; [reflexivity|].
    intros q Hq.
    destruct ((qe_service_id q =? sid) &&
              (DATE e (qe_requested_at q) =? today e) &&
              Spec.has_prefix (Spec.prefix sv) (qe_queue_number q)) eqn:E;
      [|reflexivity].
    exfalso. apply (Hnone q). apply todays_filter.
    apply filter_In. now split.
  - intros last digits n Hlast Htop Hnum Hdigits _.
    set (rows := filter _ (queue_entries s)).
    assert (Hhd : hd_error (Sql.order_by Queue.id_desc rows) = Some last).
    { apply order_by_hd_top.
      - now apply todays_filter.
      - intros y Hy. apply todays_filter in Hy.
        destruct (Htop y Hy) as [->|Hlt]; [now left | right].
        unfold Queue.id_desc. apply Z.leb_gt. exact Hlt.
      - intros y Hy. apply todays_filter in Hy.
        unfold Queue.id_desc. apply Z.leb_le.
        destruct (Htop y Hy) as [->|Hlt]; lia. }
    destruct (Sql.order_by Queue.id_desc rows) as [|h t]; [discriminate|].
    inversion Hhd; subst h. cbn [firstn map]. rewrite Hnum.
    rewrite (numberPart_of_plain_number _ _ _ Hplain Hdigits).
    reflexivity.
Qed.

Lemma generateQueueNumber_last_plus_one_witness :
  let old := Sample.ticket 1 10 1 "REG-005" 1 completed (Some 1) 1000 in
  let new := Sample.ticket 2 11 1 "REG-002" 1 waiting None 2000 in
  let e := Sample.clock 5000 in
  Queue.generateQueueNumber 1 (reliable (Sample.base [] []) e)
  = (Val "REG-001", reliable (Sample.base [] []) e) /\
  Queue.generateQueueNumber 1 (reliable (Sample.base [old; new] []) e)
  = (Val "REG-003", reliable (Sample.base [old; new] []) e).
Proof.
  cbv zeta. split.
  - apply (proj1 (generateQueueNumber_last_plus_one
                    (Sample.base [] []) (Sample.clock 5000) 1 Sample.registrar
                    eq_refl eq_refl eq_refl)).
    intros q [H _]. exact H.
  - apply (proj2 (generateQueueNumber_last_plus_one
                    (Sample.base [Sample.ticket 1 10 1 "REG-005" 1 completed (Some 1) 1000;
                                  Sample.ticket 2 11 1 "REG-002" 1 waiting None 2000] [])
                    (Sample.clock 5000) 1 Sample.registrar eq_refl eq_refl
                    eq_refl)
             (Sample.ticket 2 11 1 "REG-002" 1 waiting None 2000) "002" 2).
    + repeat split. simpl. auto.
    + intros q [[<-|[<-|[]]] _]; simpl; [right; lia | now left].
    + reflexivity.
    + reflexivity.
    + reflexivity.
Defined.

(** C2 as stated fails: with REG-005 inserted before REG-002 on the same
    day, the sequencer continues from the last row and answers REG-003,
    whereas the highest suffix plus one is REG-006. *)
Lemma generateQueueNumber_not_highest_plus_one :
  let old := Sample.ticket 1 10 1 "REG-005" 1 completed (Some 1) 1000 in
  let new := Sample.ticket 2 11 1 "REG-002" 1 waiting None 2000 in
  let s := Sample.base [old; new] [] in
  let e := Sample.clock 5000 in
  Queue.generateQueueNumber 1 (reliable s e) = (Val "REG-003", reliable s e) /\
  Spec.nextTicketNumber e s 1 = Some "REG-006" /\
  ~ (exists number,
        fst (Queue.generateQueueNumber 1 (reliable s e)) = Val number /\
        Spec.nextTicketNumber e s 1 = Some number).
Proof.
  cbv zeta. split; [reflexivity|]. split; [reflexivity|].
  intros (number & Hcode & Hspec).
  vm_compute in Hcode. vm_compute in Hspec. congruence.
Qed.

(** A prefix with a hyphen: the segment after the first hyphen is not the
    number, the parse gives [NaN], and every ticket after the first is
    numbered X-R-NaN. *)
Example generateQueueNumber_hyphen_in_prefix :
  let first := Sample.ticket 1 10 2 "X-R-001" 1 waiting None 1000 in
  let s := Sample.base [first] [] in
  let e := Sample.clock 5000 in
  Queue.generateQueueNumber 2 (reliable s e) = (Val "X-R-NaN", reliable s e).
Proof. reflexivity. Qed.

(* ===================================================================== *)
(** * Frames: what a computation leaves alone *)
(* ===================================================================== *)

Section Preserves.
Context (R : db -> db -> Prop).
Hypothesis R_refl : forall s, R s s.
Hypothesis R_trans : forall a b c, R a b -> R b c -> R a c.

Lemma preserves_ret {A} (a : A) : preserves R (ret a).
Proof. intros w r w' H. inversion H; subst. auto. Qed.

Lemma preserves_throw {A} msg : preserves R (@throw A msg).
Proof. intros w r w' H. inversion H; subst. auto. Qed.

Lemma preserves_bind {A B} (m : M A) (k : A -> M B) :
  preserves R m -> (forall a, preserves R (k a)) -> preserves R (bind m k).
Proof.
  intros Hm Hk w r w' H.
  apply bind_inv in H as [(msg & H & _)|(a & w1 & H1 & H2)].
  - now apply Hm in H.
  - apply Hm in H1 as [H1 E1]. apply Hk in H2 as [H2 E2].
    split; [eauto | congruence].
Qed.

Lemma preserves_try_catch {A} (m : M A) (h : string -> M A) :
  preserves R m -> (forall msg, preserves R (h msg)) ->
  preserves R (try_catch m h).
Proof.
  intros Hm Hh w r w' H. unfold try_catch in H.
  destruct (m w) as [[a|msg] w1] eqn:E.
  - inversion H; subst. now apply Hm in E.
  - apply Hm in E as [H1 E1]. apply Hh in H as [H2 E2].
    split; [eauto | congruence].
Qed.

Lemma preserves_query {A} (stmt : environment -> db -> A * db) :
  (forall e s, R s (snd (stmt e s))) -> preserves R (query stmt).
Proof.
  intros Hs w r w' H.
  destruct (query_cases stmt w) as [(msg & w1 & E & E1 & E2)|(w1 & E & E1 & E2)];
    rewrite E in H; inversion H; subst; split; auto.
  - rewrite E1. apply R_refl.
  - rewrite E1. apply Hs.
Qed.

Lemma preserves_select {A} (rows : environment -> db -> A) :
  preserves R (select rows).
Proof. apply preserves_query. intros e s. apply R_refl. Qed.

Lemma preserves_todayISO : preserves R todayISO.
Proof. intros w r w' H. inversion H; subst. auto. Qed.

Lemma preserves_fail status msg : preserves R (fail status msg).
Proof. apply preserves_ret. Qed.

Lemma preserves_first_or_TypeError {A} (rows : list A) :
  preserves R (first_or_TypeError rows).
Proof.
  destruct rows; [apply preserves_throw | apply preserves_ret].
Qed.

Lemma preserves_refresh sid : preserves R (QueueEvents.refresh sid).
Proof.
  apply preserves_bind; [apply preserves_select|].
  intros _. apply preserves_select.
Qed.

Lemma preserves_swallow body :
  preserves R body -> preserves R (QueueEvents.swallow body).
Proof.
  intros H. apply preserves_try_catch; [exact H|].
  intros msg. apply preserves_ret.
Qed.

Lemma preserves_with_entry q k :
  (forall x, preserves R (k x)) -> preserves R (QueueEvents.with_entry q k).
Proof. intros H. destruct q; [apply H | apply preserves_throw]. Qed.

End Preserves.

(** The emitters never change the store and never throw. *)
Lemma swallow_inv body w r w' :
  preserves eq body ->
  QueueEvents.swallow body w = (r, w') ->
  r = Val tt /\ store w' = store w /\ env w' = env w.
Proof.
  intros Hb H. unfold QueueEvents.swallow, try_catch in H.
  destruct (body w) as [[[]|msg] w1] eqn:E; inversion H; subst;
    apply Hb in E as [E1 E2]; auto.
Qed.

Lemma refresh_readonly sid : preserves eq (QueueEvents.refresh sid).
Proof. apply preserves_refresh; congruence. Qed.

(* ===================================================================== *)
(** * Calling the next ticket *)
(* ===================================================================== *)

Lemma fail_not_success status msg w st q w' :
  fail status msg w = (Val (json_success st q), w') -> False.
Proof. unfold fail, ret. intros H. inversion H. Qed.

(** Everything a successful [callNext] has done, whatever the plan. *)
Lemma callNext_success user c w st q w' :
  counterController.callNext user c w = (Val (json_success st q), w') ->
  exists ctr m r,
    is_staff (user_role user) = true /\
    In ctr (counters (store w)) /\ ctr_id ctr = c /\
    ctr_status ctr <> closed /\
    hd_error (Sql.order_by Counter.position_then_requested
                (Spec.waiting_of (ctr_service_id ctr) (store w))) = Some m /\
    hd_error (filter (fun x => qe_id x =? qe_id m) (queue_entries (store w)))
    = Some r /\
    q = counterController.set_called c (now (env w)) r /\
    env w' = env w /\
    services (store w') = services (store w) /\
    queue_entries (store w')
    = claimed c (now (env w)) m (queue_entries (store w)) /\
    counters (store w')
    = map (fun x => if ctr_id x =? c
                    then Counter.with_status busy
                           (Counter.with_current_serving (Some (qe_id r)) x)
                    else x)
          (counters (store w)).
Proof.
  unfold counterController.callNext. intros H.
  apply try_catch_val_inv in H as [H|(msg & w1 & _ & H)];
    [|now apply fail_not_success in H].
  destruct (is_staff (user_role user)) eqn:Hstaff; simpl in H;
    [|now apply fail_not_success in H].
  apply bind_val_inv in H as (counter & w1 & H1 & H).
  apply select_inv in H1 as (S1 & E1 & V1). specialize (V1 _ eq_refl).
  destruct counter as [ctr|]; [|now apply fail_not_success in H].
  destruct (counter_status_eqb (ctr_status ctr) closed) eqn:Hclosed;
    [now apply fail_not_success in H|].
  apply bind_val_inv in H as (nextQueue & w2 & H2 & H).
  apply select_inv in H2 as (S2 & E2 & V2). specialize (V2 _ eq_refl).
  destruct nextQueue as [m|]; [|now apply fail_not_success in H].
  apply bind_val_inv in H as (queueResult & w3 & H3 & H).
  apply query_val_inv in H3 as (V3 & S3 & E3).
  apply bind_val_inv in H as (updatedQueue & w4 & H4 & H).
  destruct queueResult as [|r' rest]; [discriminate|].
  simpl in H4. unfold ret in H4. inversion H4; subst updatedQueue w4. clear H4.
  apply bind_val_inv in H as (x5 & w5 & H5 & H).
  apply query_val_inv in H5 as (_ & S5 & E5).
  apply bind_val_inv in H as (x6 & w6 & H6 & H).
  change (Counter.updateStatus c "busy")
    with (query (fun (_ : environment) s =>
            let '(rows, changed) :=
              Sql.update_where (fun c0 => ctr_id c0 =? c)
                               (Counter.with_status busy) (counters s) in
            (Sql.first_row changed, set_counters s rows))) in H6.
  apply query_val_inv in H6 as (_ & S6 & E6).
  apply bind_val_inv in H as (x7 & w7 & H7 & H).
  apply query_val_inv in H7 as (_ & S7 & E7).
  apply bind_val_inv in H as (x8 & w8 & H8 & H).
  apply swallow_inv in H8 as (_ & S8 & E8); [|apply refresh_readonly].
  unfold ret in H. inversion H; subst q w' st. clear H.
  rewrite S1 in *. rewrite E2, E1 in *.
  unfold Sql.update_where in V3, S3, S5, S6. simpl in V3, S3, S5, S6, S7.
  destruct (filter (fun x => qe_id x =? qe_id m) (queue_entries (store w2)))
    as [|r rest0] eqn:Hr; [discriminate|].
  simpl in V3. inversion V3; subst r' rest. clear V3.
  rewrite S2 in *.
  exists ctr, m, r.
  assert (Hin : In ctr (filter
            (fun c0 => (ctr_id c0 =? c) &&
               existsb (fun sv => svc_id sv =? ctr_service_id c0)
                       (services (store w))) (counters (store w)))).
  { destruct (filter _ (counters (store w))); inversion V1. now left. }
  apply filter_In in Hin as [Hin Hc].
  apply andb_true_iff in Hc as [Hc _]. apply Z.eqb_eq in Hc.
  split; [reflexivity|]. split; [exact Hin|]. split; [exact Hc|].
  split; [intros Hx; rewrite Hx in Hclosed; discriminate|].
  split; [now symmetry|]. split; [now rewrite Hr|].
  split; [reflexivity|]. split; [congruence|].
  rewrite S8, S7, S6, S5, S3. simpl.
  split; [reflexivity|]. split; [reflexivity|].
  rewrite map_map. apply map_ext. intros x. simpl.
  destruct (ctr_id x =? c) eqn:E; simpl; now rewrite E.
Qed.

Section NextWaiting.

Lemma position_then_requested_key_le a b :
  Counter.position_then_requested a b = true <-> Spec.key_le a b.
Proof.
  unfold Counter.position_then_requested, Spec.key_le.
  rewrite orb_true_iff, andb_true_iff, Z.ltb_lt, Z.eqb_eq, Z.leb_le.
  tauto.
Qed.

Lemma position_then_requested_total a b :
  Counter.position_then_requested a b = false ->
  Counter.position_then_requested b a = true.
Proof.
  intros H. apply position_then_requested_key_le.
  assert (N : ~ Spec.key_le a b).
  { rewrite <- position_then_requested_key_le. congruence. }
  unfold Spec.key_le in *. lia.
Qed.

Lemma position_then_requested_trans a b c :
  Counter.position_then_requested a b = true ->
  Counter.position_then_requested b c = true ->
  Counter.position_then_requested a c = true.
Proof.
  rewrite !position_then_requested_key_le. unfold Spec.key_le. lia.
Qed.

(** The first row of the ordered waiting list is a waiting ticket of
    the service and is minimal among them. *)
Lemma next_waiting_minimal sid s m :
  hd_error (Sql.order_by Counter.position_then_requested
              (Spec.waiting_of sid s)) = Some m ->
  In m (Spec.waiting_of sid s) /\
  forall q, In q (Spec.waiting_of sid s) -> Spec.key_le m q.
Proof.
  intros H. split.
  - eapply order_by_hd_In; eauto.
  - intros q Hq. apply position_then_requested_key_le.
    eapply order_by_hd_least; eauto.
    + apply position_then_requested_total.
    + apply position_then_requested_trans.
Qed.

Lemma waiting_of_In sid s q :
  In q (Spec.waiting_of sid s) <->
  In q (queue_entries s) /\ qe_service_id q = sid /\ qe_status q = waiting.
Proof.
  unfold Spec.waiting_of. rewrite filter_In, andb_true_iff, Z.eqb_eq.
  assert (queue_status_eqb (qe_status q) waiting = true <->
          qe_status q = waiting) by (destruct (qe_status q); simpl; intuition congruence).
  tauto.
Qed.

Lemma claimed_ids c t m rows :
  map qe_id (claimed c t m rows) = map qe_id rows.
Proof.
  unfold claimed. rewrite map_map. apply map_ext.
  intros x. now destruct (qe_id x =? qe_id m).
Qed.

(** A claim only removes tickets from the waiting lists. *)
Lemma claimed_waiting c t m rows q :
  In q (claimed c t m rows) -> qe_status q = waiting -> In q rows.
Proof.
  unfold claimed. rewrite in_map_iff. intros (x & Hx & Hin) Hw.
  destruct (qe_id x =? qe_id m); subst q; [discriminate | exact Hin].
Qed.

(** With ids as a key, the row of an id is the only one. *)
Lemma filter_id_unique rows m :
  NoDup (map qe_id rows) -> In m rows ->
  filter (fun x => qe_id x =? qe_id m) rows = [m].
Proof.
  induction rows as [|a rows IH]; intros Hnd Hin; [contradiction|].
  inversion Hnd as [|? ? Hnotin Hnd']; subst. simpl.
  destruct Hin as [->|Hin].
  - rewrite Z.eqb_refl. f_equal. apply filter_none.
    intros x Hx. apply Z.eqb_neq. intros E. apply Hnotin.
    rewrite <- E. now apply in_map.
  - destruct (Z.eqb_spec (qe_id a) (qe_id m)) as [E|_]; [|now apply IH].
    exfalso. apply Hnotin. rewrite E. now apply in_map.
Qed.

End NextWaiting.

(** Successive calls by counters of one service claim tickets in
    non-decreasing (queue_position, requested_at) order, each among the
    tickets that were waiting at the start. *)
Lemma call_repeatedly_ordered user sid cs :
  forall w,
    NoDup (map qe_id (queue_entries (store w))) ->
    (forall c, In c (counters (store w)) -> In (ctr_id c) cs ->
               ctr_service_id c = sid) ->
    StronglySorted Spec.key_le (fst (call_repeatedly user cs w)) /\
    Forall (fun q => exists q0,
                In q0 (Spec.waiting_of sid (store w)) /\
                qe_queue_position q = qe_queue_position q0 /\
                qe_requested_at q = qe_requested_at q0)
           (fst (call_repeatedly user cs w)).
Proof.
  induction cs as [|c rest IH]; intros w Hnd Hsvc; simpl.
  - split; constructor.
  - destruct (counterController.callNext user c w) as [[[st q|st err]|msg] w'] eqn:Hcall;
      simpl; try (split; constructor).
    apply callNext_success in Hcall
      as (ctr & m & r & _ & Hctr & Hid & _ & Hm & Hr & Hq & _ & _ & Hrows & Hctrs).
    assert (Hsid : ctr_service_id ctr = sid).
    { apply Hsvc; [exact Hctr | rewrite Hid; now left]. }
    rewrite Hsid in Hm. apply next_waiting_minimal in Hm as [Hmin Hleast].
    assert (Hmrows : In m (queue_entries (store w))).
    { now apply waiting_of_In in Hmin. }
    rewrite (filter_id_unique _ _ Hnd Hmrows) in Hr.
    inversion Hr; subst r. clear Hr.
    destruct (IH w') as [Hsorted Hall].
    { rewrite Hrows, claimed_ids. exact Hnd. }
    { intros c' Hc' Hin'. rewrite Hctrs in Hc'.
      apply in_map_iff in Hc' as (x & Hx & Hxin).
      assert (Hsame : ctr_id c' = ctr_id x /\ ctr_service_id c' = ctr_service_id x).
      { destruct (ctr_id x =? c); subst c'; auto. }
      destruct Hsame as [E1 E2]. rewrite E2. apply Hsvc; [exact Hxin|].
      rewrite <- E1. now right. }
    destruct (call_repeatedly user rest w') as [qs w''] eqn:Hrest. simpl in *.
    assert (Hsub : forall x, In x (Spec.waiting_of sid (store w')) ->
                             In x (Spec.waiting_of sid (store w))).
    { intros x Hx. apply waiting_of_In in Hx as (Hx & Hs & Hw).
      apply waiting_of_In. repeat split; auto.
      rewrite Hrows in Hx. eapply claimed_waiting; eauto. }
    split.
    + constructor; [exact Hsorted|].
      rewrite Forall_forall in *. intros x Hx.
      destruct (Hall x Hx) as (q0 & Hq0 & Hp & Ht).
      specialize (Hleast q0 (Hsub _ Hq0)).
      subst q. unfold Spec.key_le in *. simpl. lia.
    + constructor.
      * exists m. subst q. simpl. auto.
      * rewrite Forall_forall in *. intros x Hx.
        destruct (Hall x Hx) as (q0 & Hq0 & Hp & Ht).
        exists q0. auto.
Qed.

(* ===================================================================== *)
(** * Handlers over a store that never fails *)
(* ===================================================================== *)

Section Reliable.
Context {A B : Type}.

Lemma bind_select_reliable (rows : environment -> db -> A) (k : A -> M B) s e :
  bind (select rows) k (reliable s e) = k (rows e s) (reliable s e).
Proof. unfold bind. now rewrite select_reliable. Qed.

Lemma bind_query_reliable (stmt : environment -> db -> A * db)
    (k : A -> M B) s e :
  bind (query stmt) k (reliable s e)
  = k (fst (stmt e s)) (reliable (snd (stmt e s)) e).
Proof. unfold bind. now rewrite query_reliable. Qed.

Lemma bind_ret (a : A) (k : A -> M B) w : bind (ret a) k w = k a w.
Proof. reflexivity. Qed.

End Reliable.

Lemma bind_refresh_reliable {B} sid (k : unit -> M B) s e :
  bind (QueueEvents.swallow (QueueEvents.refresh sid)) k (reliable s e)
  = k tt (reliable s e).
Proof.
  unfold bind at 1.
  unfold QueueEvents.swallow, QueueEvents.refresh, try_catch,
    Service.getQueueStatus, Queue.getServiceQueueStatus.
  now rewrite bind_select_reliable, select_reliable.
Qed.

Lemma updated_rows_nonempty {A} (cond : A -> bool) (set : A -> A) rows m :
  In m rows -> cond m = true ->
  exists r rest, map set (filter cond rows) = r :: rest.
Proof.
  intros Hin Hc.
  assert (H : In (set m) (map set (filter cond rows))).
  { apply in_map. apply filter_In. now split. }
  destruct (map set (filter cond rows)) as [|r rest]; [contradiction|eauto].
Qed.

Lemma first_row_In {A} (rows : list A) m : Sql.first_row rows = Some m -> In m rows.
Proof. destruct rows; intros H; inversion H; subst. now left. Qed.

Lemma callNext_error_unchanged user c s e :
  let r := counterController.callNext user c (reliable s e) in
  is_error (fst r) = true -> store (snd r) = s.
Proof.
  unfold counterController.callNext, try_catch.
  destruct (is_staff (user_role user)); cbn [negb]; [|reflexivity].
  unfold Counter.findById. rewrite bind_select_reliable.
  destruct (Sql.first_row _) as [ctr|]; [|reflexivity].
  destruct (counter_status_eqb (ctr_status ctr) closed); [reflexivity|].
  unfold Counter.getNextWaitingQueue. rewrite bind_select_reliable.
  destruct (Sql.first_row _) as [m|] eqn:Hm; [|reflexivity].
  unfold counterController.updateQueueSql. rewrite bind_query_reliable.
  unfold Sql.update_where. cbn [fst snd].
  apply first_row_In, order_by_In, filter_In in Hm as [Hm _].
  destruct (updated_rows_nonempty (fun q => qe_id q =? qe_id m)
              (counterController.set_called c (now e)) _ m Hm (Z.eqb_refl _))
    as (r & rest & ->).
  cbn [first_or_TypeError]. rewrite bind_ret.
  unfold Counter.setCurrentServing. rewrite bind_query_reliable.
  unfold Counter.updateStatus. cbn [Counter.allowedStatuses].
  change (Counter.allowedStatuses "busy") with (Some busy). cbv iota.
  rewrite bind_query_reliable.
  unfold Queue.logQueueAction. rewrite bind_query_reliable.
  unfold QueueEvents.emitQueueCalled. rewrite bind_refresh_reliable.
  cbn. discriminate.
Qed.

Lemma startServing_error_unchanged user c qid s e :
  let r := counterController.startServing user c qid (reliable s e) in
  is_error (fst r) = true -> store (snd r) = s.
Proof.
  unfold counterController.startServing, try_catch.
  destruct (is_staff (user_role user)); cbn [negb]; [|reflexivity].
  unfold Counter.findById. rewrite bind_select_reliable.
  destruct (Sql.first_row _) as [ctr|]; [|reflexivity].
  unfold Queue.findById. rewrite bind_select_reliable.
  destruct (Sql.first_row _) as [t|] eqn:Ht; [|reflexivity].
  destruct (option_Z_eqb (qe_counter_id t) (Some c)); cbn [negb]; [|reflexivity].
  unfold counterController.updateQueueSql. rewrite bind_query_reliable.
  unfold Sql.update_where. cbn [fst snd].
  apply first_row_In, filter_In in Ht as [Ht Hc].
  rewrite !andb_true_iff in Hc. destruct Hc as [[Hc _] _].
  destruct (updated_rows_nonempty (fun q => qe_id q =? qid)
              (counterController.set_serving (now e)) _ t Ht Hc)
    as (r & rest & ->).
  unfold Queue.logQueueAction. rewrite bind_query_reliable.
  cbn. discriminate.
Qed.

Lemma completeService_error_unchanged user c qid s e :
  let r := counterController.completeService user c qid (reliable s e) in
  is_error (fst r) = true -> store (snd r) = s.
Proof.
  unfold counterController.completeService, try_catch.
  destruct (is_staff (user_role user)); cbn [negb]; [|reflexivity].
  unfold Counter.findById. rewrite bind_select_reliable.
  destruct (Sql.first_row _) as [ctr|]; [|reflexivity].
  unfold Queue.findById. rewrite bind_select_reliable.
  destruct (Sql.first_row _) as [t|] eqn:Ht; [|reflexivity].
  destruct (option_Z_eqb (qe_counter_id t) (Some c)); cbn [negb]; [|reflexivity].
  unfold counterController.updateQueueSql. rewrite bind_query_reliable.
  unfold Sql.update_where. cbn [fst snd].
  apply first_row_In, filter_In in Ht as [Ht Hc].
  rewrite !andb_true_iff in Hc. destruct Hc as [[Hc _] _].
  destruct (updated_rows_nonempty (fun q => qe_id q =? qid)
              (counterController.set_completed (now e)) _ t Ht Hc)
    as (r & rest & ->).
  unfold Counter.setCurrentServing. rewrite bind_query_reliable.
  unfold Counter.updateStatus.
  change (Counter.allowedStatuses "open") with (Some open). cbv iota.
  rewrite bind_query_reliable.
  unfold Queue.logQueueAction. rewrite bind_query_reliable.
  unfold QueueEvents.emitQueueCompleted. cbn [Sql.first_row hd_error QueueEvents.with_entry].
  rewrite bind_refresh_reliable.
  cbn. discriminate.
Qed.

Lemma getSystemSettings_reliable s e :
  queueController.getSystemSettings (reliable s e)
  = (Val (match system_settings s with
          | r :: _ => r
          | [] => queueController.default_settings
          end), reliable s e).
Proof.
  unfold queueController.getSystemSettings, try_catch.
  rewrite bind_select_reliable. now destruct (system_settings s).
Qed.

(** Over a reliable store, [Queue.create] stores one row and returns
    it. *)
Lemma create_reliable u sid s e sv :
  find (fun r => svc_id r =? sid) (services s) = Some sv ->
  exists number,
    Queue.generateQueueNumber sid (reliable s e) = (Val number, reliable s e) /\
    let position :=
      Z.of_nat (List.length
        (filter (fun q => (qe_service_id q =? sid) &&
                          queue_status_eqb (qe_status q) waiting &&
                          (qe_requested_at q <? now e))
                (queue_entries s))) + 1 in
    let wait := JS.or_default (svc_estimated_service_time sv) 5 * position in
    let inserted := Queue.insertSql u sid number position wait e s in
    Queue.create u sid (reliable s e)
    = (Val (fst inserted),
       reliable (set_queue_logs (snd inserted)
                   (queue_logs s ++
                    [ {| log_queue_entry_id := qe_id (fst inserted);
                         log_service_id := sid;
                         log_counter_id := None;
                         log_action := "created";
                         log_metadata := None |} ])%list) e).
Proof.
  intros Hsv. eexists. split; [apply generateQueueNumber_run; exact Hsv|].
  cbv zeta. unfold Queue.create.
  rewrite (bind_val _ _ _ _ _ (generateQueueNumber_run s e sid sv Hsv)).
  unfold Queue.calculateQueuePosition.
  unfold bind at 1. rewrite bind_select_reliable. unfold ret at 1.
  rewrite bind_select_reliable.
  apply find_filter in Hsv as [rest Hsv]. rewrite Hsv. cbn [map].
  rewrite bind_query_reliable.
  unfold Queue.logQueueAction. rewrite bind_query_reliable.
  reflexivity.
Qed.

Lemma requestQueue_error_unchanged user sid s e :
  let r := queueController.requestQueue user sid (reliable s e) in
  is_error (fst r) = true -> store (snd r) = s.
Proof.
  unfold queueController.requestQueue, try_catch.
  destruct sid as [sid|]; [|reflexivity].
  destruct (Z.eq_dec sid 0) as [->|Hnz]; [reflexivity|].
  assert (Hbody : forall X (a b : X),
             match sid with 0 => a | _ => b end = b).
  { intros. destruct sid; congruence. }
  rewrite Hbody.
  rewrite (bind_val _ _ _ _ _ (getSystemSettings_reliable s e)).
  destruct (system_maintenance_mode _); [reflexivity|].
  unfold Service.findById. rewrite bind_select_reliable.
  unfold Sql.first_row. rewrite filter_hd_find.
  destruct (find _ (services s)) as [sv|] eqn:Hsv; [|reflexivity].
  destruct (svc_is_active sv); cbn [negb]; [|reflexivity].
  unfold Queue.findByUserAndService. rewrite bind_select_reliable.
  destruct (Sql.first_row _) as [q|]; [reflexivity|].
  destruct (create_reliable (userId user) sid s e sv Hsv) as (number & _ & Hc).
  cbv zeta in Hc. rewrite (bind_val _ _ _ _ _ Hc).
  unfold QueueEvents.emitQueueCreated. rewrite bind_refresh_reliable.
  cbn. discriminate.
Qed.

(** [Queue.cancel] over a reliable store. *)
Lemma cancel_reliable qid uid s e :
  Queue.cancel qid uid (reliable s e)
  = match filter (fun q => (qe_id q =? qid) && (qe_user_id q =? uid))
                 (queue_entries s) with
    | [] => (Exn "Queue entry not found or access denied", reliable s e)
    | queue :: _ =>
        if queue_status_eqb (qe_status queue) completed ||
           queue_status_eqb (qe_status queue) cancelled
        then (Exn "Queue entry cannot be cancelled", reliable s e)
        else
          (Val (Sql.first_row
                  (map (Queue.set_cancelled (now e))
                       (filter (fun q => qe_id q =? qid) (queue_entries s)))),
           reliable
             (set_queue_logs
                (set_queue_entries s
                   (map (fun q => if qe_id q =? qid
                                  then Queue.set_cancelled (now e) q else q)
                        (queue_entries s))
                   (queue_entries_id_seq s))
                (queue_logs s ++
                 [ {| log_queue_entry_id := qid;
                      log_service_id := qe_service_id queue;
                      log_counter_id := qe_counter_id queue;
                      log_action := "cancelled";
                      log_metadata := None |} ])%list) e)
    end.
Proof.
  unfold Queue.cancel. rewrite bind_select_reliable.
  destruct (filter _ (queue_entries s)) as [|queue rest]; [reflexivity|].
  destruct (_ || _); [reflexivity|].
  rewrite bind_query_reliable. unfold Queue.logQueueAction.
  rewrite bind_query_reliable. reflexivity.
Qed.

Lemma cancelQueue_error_unchanged user qid s e :
  let r := queueController.cancelQueue user qid (reliable s e) in
  is_error (fst r) = true -> store (snd r) = s.
Proof.
  intros r. subst r.
  remember (queueController.cancelQueue user qid (reliable s e)) as r eqn:Hr.
  unfold queueController.cancelQueue, try_catch in Hr.
  unfold bind at 1 in Hr. rewrite cancel_reliable in Hr.
  destruct (filter _ (queue_entries s)) as [|queue rest] eqn:Hq;
    [subst r; reflexivity|].
  destruct (_ || _); [subst r; reflexivity|].
  assert (Hin : In queue (queue_entries s) /\ (qe_id queue =? qid) = true).
  { assert (H : In queue (queue :: rest)) by now left.
    rewrite <- Hq in H. apply filter_In in H as [H1 H2].
    apply andb_true_iff in H2 as [H2 _]. now split. }
  destruct Hin as [Hin Hid].
  destruct (updated_rows_nonempty (fun q => qe_id q =? qid)
              (Queue.set_cancelled (now e)) _ queue Hin Hid)
    as (r0 & rest' & Hupd).
  rewrite Hupd in Hr. cbn [Sql.first_row hd_error] in Hr.
  unfold QueueEvents.emitQueueCancelled in Hr.
  cbn [QueueEvents.with_entry] in Hr.
  rewrite bind_refresh_reliable in Hr. subst r. cbn. discriminate.
Qed.

(** C8 (atomicity of failed transitions), as the code has it.  When no
    store query fails, an operation (request, call, start, complete,
    cancel) that answers with an error leaves the whole store (tickets,
    counters, logs) exactly as it was: every guard comes before the first
    write.  Nothing is promised when a query fails in the middle of an
    operation. *)
Theorem rejected_operation_leaves_store_unchanged :
  forall (o : operation) (s : db) (e : environment),
    let r := handle o (reliable s e) in
    is_error (fst r) = true -> store (snd r) = s.
Proof.
  intros [u sid|u c|u c q|u c q|u q] s e; cbn [handle].
  - apply requestQueue_error_unchanged.
  - apply callNext_error_unchanged.
  - apply startServing_error_unchanged.
  - apply completeService_error_unchanged.
  - apply cancelQueue_error_unchanged.
Qed.

Lemma rejected_operation_leaves_store_unchanged_witness :
  let t := Sample.ticket 1 10 1 "REG-001" 1 completed (Some 1) 1000 in
  let s := Sample.base [t] [Sample.window 1 closed None] in
  let e := Sample.clock 5000 in
  store (snd (handle (op_cancel Sample.student10 1) (reliable s e))) = s /\
  store (snd (handle (op_call Sample.staff 1) (reliable s e))) = s.
Proof.
  cbv zeta. split.
  - apply (rejected_operation_leaves_store_unchanged
             (op_cancel Sample.student10 1)). reflexivity.
  - apply (rejected_operation_leaves_store_unchanged
             (op_call Sample.staff 1)). reflexivity.
Defined.

(** C8 as stated fails: the writes of an operation are separate queries
    outside any transaction.  Here the store fails on the fourth query of
    [callNext] (the update of the counter): the answer is the error 500,
    yet the ticket has already been moved to [called] and given to the
    counter, while the counter is still [open] and serves nothing. *)
Lemma callNext_store_failure_leaves_partial_claim :
  let t := Sample.ticket 1 10 1 "REG-001" 1 waiting None 1000 in
  let s := Sample.base [t] [Sample.window 1 open None] in
  let w := {| store := s; env := Sample.clock 5000;
              plan := [None; None; None; Some "Connection terminated"] |} in
  let r := handle (op_call Sample.staff 1) w in
  is_error (fst r) = true /\
  fst r = Val (json_error 500 (error_message "Error calling next queue")) /\
  map qe_status (queue_entries s) = [waiting] /\
  map qe_status (queue_entries (store (snd r))) = [called] /\
  map qe_counter_id (queue_entries (store (snd r))) = [Some 1] /\
  counters (store (snd r)) = [Sample.window 1 open None] /\
  store (snd r) <> s.
Proof.
  vm_compute. repeat split. discriminate.
Qed.

(* ===================================================================== *)
(** * The guards of a call *)
(* ===================================================================== *)

(** C4 (call guards), as the code has it.  A call succeeds only if the
    counter exists and its status is not [closed], and a successful call
    claims exactly one ticket, which was waiting and belongs to the
    counter's own service.  Whether the counter is already serving a
    ticket is not examined. *)
Theorem callNext_guards :
  forall (user : req_user) (c : Z) (w w' : world) (st : Z) (q : queue_entry),
    NoDup (map qe_id (queue_entries (store w))) ->
    counterController.callNext user c w = (Val (json_success st q), w') ->
    exists ctr m,
      In ctr (counters (store w)) /\ ctr_id ctr = c /\
      ctr_status ctr <> closed /\
      In m (queue_entries (store w)) /\ qe_status m = waiting /\
      qe_service_id m = ctr_service_id ctr /\
      q = counterController.set_called c (now (env w)) m /\
      qe_service_id q = ctr_service_id ctr /\
      queue_entries (store w')
      = map (fun x => if qe_id x =? qe_id m then q else x)
            (queue_entries (store w)).
Proof.
  intros user c w w' st q Hnd H.
  apply callNext_success in H
    as (ctr & m & r & _ & Hctr & Hid & Hopen & Hm & Hr & Hq & _ & _ & Hrows & _).
  apply next_waiting_minimal in Hm as [Hm _].
  apply waiting_of_In in Hm as (Hin & Hsvc & Hw).
  rewrite (filter_id_unique _ _ Hnd Hin) in Hr. inversion Hr; subst r.
  exists ctr, m. repeat split; auto.
  - subst q. exact Hsvc.
  - rewrite Hrows. unfold claimed. apply map_ext_in. intros x Hx.
    destruct (Z.eqb_spec (qe_id x) (qe_id m)) as [E|_]; [|reflexivity].
    assert (x = m); [|now subst].
    assert (Hf : In x (filter (fun y => qe_id y =? qe_id m) (queue_entries (store w)))).
    { apply filter_In. split; [exact Hx | now apply Z.eqb_eq]. }
    rewrite (filter_id_unique _ _ Hnd Hin) in Hf. now destruct Hf as [->|[]].
Qed.

Lemma callNext_guards_witness :
  let a := Sample.ticket 1 10 1 "REG-001" 1 waiting None 1000 in
  let s := Sample.base [a] [Sample.window 1 open None] in
  let w := reliable s (Sample.clock 5000) in
  exists ctr m,
    In ctr (counters s) /\ ctr_status ctr <> closed /\
    In m (queue_entries s) /\ qe_status m = waiting /\
    qe_service_id m = ctr_service_id ctr.
Proof.
  cbv zeta.
  destruct (callNext_guards Sample.staff 1
              (reliable (Sample.base [Sample.ticket 1 10 1 "REG-001" 1 waiting None 1000]
                                     [Sample.window 1 open None])
                        (Sample.clock 5000))
              (snd (counterController.callNext Sample.staff 1
                 (reliable (Sample.base [Sample.ticket 1 10 1 "REG-001" 1 waiting None 1000]
                                     [Sample.window 1 open None])
                        (Sample.clock 5000))))
              200
              (counterController.set_called 1 5000
                 (Sample.ticket 1 10 1 "REG-001" 1 waiting None 1000)))
    as (ctr & m & H1 & _ & H3 & H4 & H5 & H6 & _).
  - simpl. repeat constructor. intros [].
  - reflexivity.
  - exists ctr, m. auto.
Defined.

(** C4 as stated fails: counter 1 is [busy] and already serves ticket 1,
    yet its call is answered with status 200, claims ticket 2 and
    overwrites the counter's current ticket; ticket 1 stays [called]. *)
Lemma callNext_while_serving_succeeds :
  let t1 := Sample.ticket 1 10 1 "REG-001" 1 called (Some 1) 1000 in
  let t2 := Sample.ticket 2 11 1 "REG-002" 2 waiting None 2000 in
  let s := Sample.base [t1; t2] [Sample.window 1 busy (Some 1)] in
  let r := counterController.callNext Sample.staff 1
             (reliable s (Sample.clock 5000)) in
  map ctr_current_serving_queue_id (counters s) = [Some 1] /\
  (exists q, fst r = Val (json_success 200 q) /\ qe_id q = 2) /\
  map qe_status (queue_entries (store (snd r))) = [called; called] /\
  map ctr_current_serving_queue_id (counters (store (snd r))) = [Some 2] /\
  ~ (is_success (fst r) = true ->
     forall c, In c (counters s) -> ctr_id c = 1 ->
               ctr_current_serving_queue_id c = None).
Proof.
  vm_compute. repeat split.
  - eexists. split; reflexivity.
  - intros H. specialize (H eq_refl _ (or_introl eq_refl) eq_refl).
    discriminate.
Qed.

(* ===================================================================== *)
(** * Cancelling *)
(* ===================================================================== *)

Lemma filter_andb {A} (f g : A -> bool) l :
  filter (fun x => f x && g x) l = filter g (filter f l).
Proof.
  induction l as [|a l IH]; [reflexivity|]. simpl.
  destruct (f a); simpl; [destruct (g a)|]; now rewrite IH.
Qed.

(** The rows [Queue.cancel] selects, when ids are a key. *)
Lemma owned_rows_unique rows t uid :
  NoDup (map qe_id rows) -> In t rows ->
  filter (fun q => (qe_id q =? qe_id t) && (qe_user_id q =? uid)) rows
  = if qe_user_id t =? uid then [t] else [].
Proof.
  intros Hnd Hin. rewrite filter_andb, (filter_id_unique _ _ Hnd Hin).
  reflexivity.
Qed.

(** [cancelQueue] over a reliable store. *)
Lemma cancelQueue_reliable user qid s e :
  queueController.cancelQueue user qid (reliable s e)
  = match filter (fun q => (qe_id q =? qid) && (qe_user_id q =? userId user))
                 (queue_entries s) with
    | [] =>
        (Val (json_error 400
                (error_message "Queue entry not found or access denied")),
         reliable s e)
    | queue :: _ =>
        if queue_status_eqb (qe_status queue) completed ||
           queue_status_eqb (qe_status queue) cancelled
        then
          (Val (json_error 400
                  (error_message "Queue entry cannot be cancelled")),
           reliable s e)
        else
          let s' :=
            set_queue_logs
              (set_queue_entries s
                 (map (fun q => if qe_id q =? qid
                                then Queue.set_cancelled (now e) q else q)
                      (queue_entries s))
                 (queue_entries_id_seq s))
              (queue_logs s ++
               [ {| log_queue_entry_id := qid;
                    log_service_id := qe_service_id queue;
                    log_counter_id := qe_counter_id queue;
                    log_action := "cancelled";
                    log_metadata := None |} ])%list in
          match map (Queue.set_cancelled (now e))
                    (filter (fun q => qe_id q =? qid) (queue_entries s)) with
          | row :: _ => (Val (json_success 200 row), reliable s' e)
          | [] =>
              (Val (json_error 500 (error_message "Error cancelling queue")),
               reliable s' e)
          end
    end.
Proof.
  unfold queueController.cancelQueue, try_catch.
  unfold bind at 1. rewrite cancel_reliable.
  destruct (filter _ (queue_entries s)) as [|queue rest]; [reflexivity|].
  destruct (_ || _); [reflexivity|].
  destruct (map _ (filter _ (queue_entries s))) as [|row rows].
  - reflexivity.
  - cbn [Sql.first_row hd_error].
    unfold QueueEvents.emitQueueCancelled. cbn [QueueEvents.with_entry].
    now rewrite bind_refresh_reliable.
Qed.

Lemma active_cases st :
  Queue.active st = true <-> st = waiting \/ st = called \/ st = serving.
Proof. destruct st; simpl; intuition discriminate. Qed.

Lemma not_terminal_active st :
  queue_status_eqb st completed || queue_status_eqb st cancelled
  = negb (Queue.active st).
Proof. now destruct st. Qed.

(** C6 (cancel guard), as the code has it.  For a ticket of the store
    (ids being a key), [cancel] succeeds exactly when the acting user owns
    the ticket and its status is waiting, called or serving; in every
    other case (another user's ticket, or a completed or cancelled one)
    it answers with an error and the store is unchanged. *)
Theorem cancelQueue_guard :
  forall (user : req_user) (s : db) (e : environment) (t : queue_entry),
    NoDup (map qe_id (queue_entries s)) ->
    In t (queue_entries s) ->
    let r := queueController.cancelQueue user (qe_id t) (reliable s e) in
    let allowed :=
      qe_user_id t = userId user /\
      (qe_status t = waiting \/ qe_status t = called \/
       qe_status t = serving) in
    (allowed ->
     fst r = Val (json_success 200 (Queue.set_cancelled (now e) t))) /\
    (~ allowed -> is_error (fst r) = true /\ store (snd r) = s).
Proof.
  intros user s e t Hnd Hin r allowed. subst r allowed.
  rewrite cancelQueue_reliable, (owned_rows_unique _ _ _ Hnd Hin).
  rewrite (filter_id_unique _ _ Hnd Hin). cbn [map].
  destruct (Z.eqb_spec (qe_user_id t) (userId user)) as [Hu|Hu].
  - rewrite not_terminal_active.
    destruct (Queue.active (qe_status t)) eqn:Ha; cbn [negb].
    + split; [reflexivity|]. intros N. exfalso. apply N.
      split; [exact Hu | now apply active_cases].
    + split.
      * intros [_ Hs]. apply active_cases in Hs. congruence.
      * intros _. split; reflexivity.
  - split.
    + intros [Hu' _]. contradiction.
    + intros _. split; reflexivity.
Qed.

Lemma cancelQueue_guard_witness :
  let mine := Sample.ticket 1 10 1 "REG-001" 1 called (Some 1) 1000 in
  let theirs := Sample.ticket 2 11 1 "REG-002" 2 waiting None 2000 in
  let s := Sample.base [mine; theirs] [Sample.window 1 busy (Some 1)] in
  let e := Sample.clock 5000 in
  fst (queueController.cancelQueue Sample.student10 1 (reliable s e))
  = Val (json_success 200 (Queue.set_cancelled 5000 mine)) /\
  store (snd (queueController.cancelQueue Sample.student10 2 (reliable s e)))
  = s.
Proof.
  cbv zeta. split.
  - apply (proj1 (cancelQueue_guard Sample.student10
       (Sample.base [Sample.ticket 1 10 1 "REG-001" 1 called (Some 1) 1000;
                     Sample.ticket 2 11 1 "REG-002" 2 waiting None 2000]
                    [Sample.window 1 busy (Some 1)])
       (Sample.clock 5000)
       (Sample.ticket 1 10 1 "REG-001" 1 called (Some 1) 1000)
       ltac:(simpl; repeat constructor; simpl; intuition discriminate)
       ltac:(simpl; auto))).
    simpl. auto.
  - apply (proj2 (cancelQueue_guard Sample.student10
       (Sample.base [Sample.ticket 1 10 1 "REG-001" 1 called (Some 1) 1000;
                     Sample.ticket 2 11 1 "REG-002" 2 waiting None 2000]
                    [Sample.window 1 busy (Some 1)])
       (Sample.clock 5000)
       (Sample.ticket 2 11 1 "REG-002" 2 waiting None 2000)
       ltac:(simpl; repeat constructor; simpl; intuition discriminate)
       ltac:(simpl; auto))).
    simpl. intros [H _]. discriminate.
Defined.

(** C6 as stated fails: the owner cancels a ticket that is being served.
    The claim admits only waiting and called tickets; the guard of
    [Queue.cancel] refuses only completed and cancelled ones. *)
Lemma cancelQueue_serving_succeeds :
  let t := Sample.ticket 1 10 1 "REG-001" 1 serving (Some 1) 1000 in
  let s := Sample.base [t] [Sample.window 1 busy (Some 1)] in
  let r := queueController.cancelQueue Sample.student10 1
             (reliable s (Sample.clock 5000)) in
  qe_user_id t = userId Sample.student10 /\ qe_status t = serving /\
  (exists q, fst r = Val (json_success 200 q) /\ qe_status q = cancelled) /\
  map qe_status (queue_entries (store (snd r))) = [cancelled] /\
  ~ (is_success (fst r) = true <->
     qe_user_id t = userId Sample.student10 /\
     (qe_status t = waiting \/ qe_status t = called)).
Proof.
  vm_compute. repeat split.
  - eexists. split; reflexivity.
  - intros [H _]. destruct (H eq_refl) as [_ [E|E]]; discriminate.
Qed.

Lemma fail_is_error status msg w st q w' :
  (if JS.includes msg "not found" || JS.includes msg "cannot be cancelled"
   then fail status msg else fail 500 "Error cancelling queue") w
  = (Val (json_success st q), w') -> False.
Proof.
  destruct (_ || _); intros H; now apply fail_not_success in H.
Qed.

(** Everything a successful [cancelQueue] has done, whatever the plan. *)
Lemma cancelQueue_success user qid w st q w' :
  queueController.cancelQueue user qid w = (Val (json_success st q), w') ->
  exists t,
    In t (queue_entries (store w)) /\ qe_id t = qid /\
    qe_user_id t = userId user /\ Queue.active (qe_status t) = true /\
    env w' = env w /\
    store w'
    = set_queue_logs
        (set_queue_entries (store w)
           (map (fun x => if qe_id x =? qid
                          then Queue.set_cancelled (now (env w)) x else x)
                (queue_entries (store w)))
           (queue_entries_id_seq (store w)))
        (queue_logs (store w) ++
         [ {| log_queue_entry_id := qid;
              log_service_id := qe_service_id t;
              log_counter_id := qe_counter_id t;
              log_action := "cancelled";
              log_metadata := None |} ])%list.
Proof.
  unfold queueController.cancelQueue. intros H.
  apply try_catch_val_inv in H as [H|(msg & w1 & _ & H)];
    [|now apply fail_is_error in H].
  apply bind_val_inv in H as (cq & w1 & Hc & H).
  apply bind_val_inv in H as ([] & w2 & He & H).
  apply swallow_inv in He as (_ & S2 & E2).
  2:{ apply preserves_with_entry; [reflexivity|].
      intros x. apply refresh_readonly. }
  unfold Queue.cancel in Hc.
  apply bind_val_inv in Hc as (queueResult & w0 & H0 & Hc).
  apply select_inv in H0 as (S0 & E0 & V0). specialize (V0 _ eq_refl).
  destruct queueResult as [|t rest]; [discriminate|].
  destruct (queue_status_eqb (qe_status t) completed ||
            queue_status_eqb (qe_status t) cancelled) eqn:Hterm;
    [discriminate|].
  apply bind_val_inv in Hc as (result & w3 & H3 & Hc).
  apply query_val_inv in H3 as (_ & S3 & E3).
  apply bind_val_inv in Hc as ([] & w4 & H4 & Hc).
  apply query_val_inv in H4 as (_ & S4 & E4).
  unfold ret in Hc. inversion Hc; subst cq w4. clear Hc.
  exists t.
  assert (Hin : In t (filter (fun q0 => (qe_id q0 =? qid) &&
                                        (qe_user_id q0 =? userId user))
                             (queue_entries (store w)))).
  { rewrite <- V0. now left. }
  apply filter_In in Hin as [Hin Hc]. apply andb_true_iff in Hc as [Hi Hu].
  apply Z.eqb_eq in Hi, Hu.
  rewrite not_terminal_active in Hterm. apply negb_false_iff in Hterm.
  destruct (Sql.first_row result); [|discriminate].
  unfold ret in H. inversion H; subst. clear H.
  repeat split; auto.
  - congruence.
  - rewrite S2, S4, S3. unfold Sql.update_where. simpl.
    rewrite S0, E0. reflexivity.
Qed.

(* ===================================================================== *)
(** * The frame of a cancellation *)
(* ===================================================================== *)

(** C10 (frame of cancel).  A successful cancel changes, in the whole
    store, only the cancelled queue entry (its status and its
    [cancelled_at]) and appends one row to the action log.  The counters
    are untouched: a counter that was busy with the cancelled ticket stays
    [busy] and keeps the now-cancelled ticket as its current one. *)
Theorem cancelQueue_frame :
  forall (user : req_user) (qid : Z) (w w' : world) (st : Z)
         (q : queue_entry),
    queueController.cancelQueue user qid w = (Val (json_success st q), w') ->
    (exists t,
        In t (queue_entries (store w)) /\ qe_id t = qid /\
        queue_logs (store w')
        = (queue_logs (store w) ++
           [ {| log_queue_entry_id := qid;
                log_service_id := qe_service_id t;
                log_counter_id := qe_counter_id t;
                log_action := "cancelled";
                log_metadata := None |} ])%list) /\
    queue_entries (store w')
    = map (fun x => if qe_id x =? qid
                    then Queue.set_cancelled (now (env w)) x else x)
          (queue_entries (store w)) /\
    (forall x t,
        let x' := Queue.set_cancelled t x in
        qe_status x' = cancelled /\ qe_cancelled_at x' = Some t /\
        (qe_id x', qe_user_id x', qe_service_id x', qe_queue_number x',
         qe_queue_position x', qe_counter_id x', qe_estimated_wait_time x')
        = (qe_id x, qe_user_id x, qe_service_id x, qe_queue_number x,
           qe_queue_position x, qe_counter_id x, qe_estimated_wait_time x) /\
        (qe_requested_at x', qe_called_at x', qe_started_serving_at x',
         qe_completed_at x')
        = (qe_requested_at x, qe_called_at x, qe_started_serving_at x,
           qe_completed_at x)) /\
    counters (store w') = counters (store w) /\
    services (store w') = services (store w) /\
    users (store w') = users (store w) /\
    system_settings (store w') = system_settings (store w) /\
    queue_entries_id_seq (store w') = queue_entries_id_seq (store w) /\
    (forall c, In c (counters (store w)) ->
               ctr_status c = busy ->
               ctr_current_serving_queue_id c = Some qid ->
               In c (counters (store w'))).
Proof.
  intros user qid w w' st q H.
  apply cancelQueue_success in H as (t & Hin & Hid & _ & _ & _ & Hs).
  rewrite Hs. simpl. split; [exists t; auto|].
  split; [reflexivity|]. split; [intros x t'; repeat split|].
  repeat split; auto.
Qed.

Lemma cancelQueue_frame_witness :
  let t := Sample.ticket 1 10 1 "REG-001" 1 called (Some 1) 1000 in
  let desk := Sample.window 1 busy (Some 1) in
  let s := Sample.base [t] [desk] in
  let r := queueController.cancelQueue Sample.student10 1
             (reliable s (Sample.clock 5000)) in
  counters (store (snd r)) = [desk] /\ In desk (counters (store (snd r))).
Proof.
  cbv zeta.
  pose proof (cancelQueue_frame Sample.student10 1
       (reliable (Sample.base [Sample.ticket 1 10 1 "REG-001" 1 called (Some 1) 1000]
                              [Sample.window 1 busy (Some 1)])
                 (Sample.clock 5000))
       (snd (queueController.cancelQueue Sample.student10 1
          (reliable (Sample.base [Sample.ticket 1 10 1 "REG-001" 1 called (Some 1) 1000]
                              [Sample.window 1 busy (Some 1)])
                 (Sample.clock 5000))))
       200
       (Queue.set_cancelled 5000
          (Sample.ticket 1 10 1 "REG-001" 1 called (Some 1) 1000))
       eq_refl) as (_ & _ & _ & Hc & _ & _ & _ & _ & Hbusy).
  split.
  - exact Hc.
  - apply Hbusy; [simpl; auto | reflexivity | reflexivity].
Defined.

(* ===================================================================== *)
(** * What the handlers leave alone *)
(* ===================================================================== *)

Ltac frame :=
  repeat first
    [ assumption
    | match goal with |- forall _, _ => intro end
    | apply preserves_ret
    | apply preserves_throw
    | apply preserves_fail
    | apply preserves_select
    | apply preserves_todayISO
    | apply preserves_first_or_TypeError
    | apply preserves_refresh
    | apply preserves_swallow
    | apply preserves_with_entry
    | apply preserves_bind
    | apply preserves_try_catch
    | apply preserves_query
    | match goal with
      | |- preserves _ (match ?x with _ => _ end) => destruct x
      | |- preserves _ (if ?b then _ else _) => destruct b
      end ].

Section HandlerFrames.
Context (R : db -> db -> Prop).
Hypothesis R_refl : forall s, R s s.
Hypothesis R_trans : forall a b c, R a b -> R b c -> R a c.
Hypothesis R_counters : forall s c, R s (set_counters s c).
Hypothesis R_logs : forall s l, R s (set_queue_logs s l).
Hypothesis R_update :
  forall s (cond : queue_entry -> bool) (set : queue_entry -> queue_entry),
    (forall x, Spec.frozen (set x) = Spec.frozen x) ->
    R s (set_queue_entries s
           (map (fun x : queue_entry => if cond x then set x else x)
                (queue_entries s))
           (queue_entries_id_seq s)).

Ltac statements :=
  unfold Sql.update_where; simpl;
  first [ apply R_counters | apply R_logs
        | apply R_update; reflexivity ].

Lemma preserves_callNext user c :
  preserves R (counterController.callNext user c).
Proof.
  unfold counterController.callNext, Counter.findById,
    Counter.getNextWaitingQueue, QueueEvents.emitQueueCalled.
  frame; statements.
Qed.

Lemma preserves_startServing user c q :
  preserves R (counterController.startServing user c q).
Proof.
  unfold counterController.startServing, Counter.findById, Queue.findById,
    QueueEvents.emitQueueServingStarted.
  frame; statements.
Qed.

Lemma preserves_completeService user c q :
  preserves R (counterController.completeService user c q).
Proof.
  unfold counterController.completeService, Counter.findById,
    Queue.findById, QueueEvents.emitQueueCompleted.
  frame; statements.
Qed.

Lemma preserves_cancelQueue user q :
  preserves R (queueController.cancelQueue user q).
Proof.
  unfold queueController.cancelQueue, Queue.cancel,
    QueueEvents.emitQueueCancelled.
  frame; statements.
Qed.

Hypothesis R_insert :
  forall s u sid n p t e, R s (snd (Queue.insertSql u sid n p t e s)).

Lemma preserves_requestQueue user sid :
  preserves R (queueController.requestQueue user sid).
Proof.
  unfold queueController.requestQueue, queueController.getSystemSettings,
    Service.findById, Queue.findByUserAndService, Queue.create,
    Queue.generateQueueNumber, Queue.calculateQueuePosition,
    QueueEvents.emitQueueCreated.
  frame; first [ apply R_insert | statements ].
Qed.

End HandlerFrames.

(* ===================================================================== *)
(** * Admission *)
(* ===================================================================== *)

Lemma generateQueueNumber_readonly sid :
  preserves eq (Queue.generateQueueNumber sid).
Proof. unfold Queue.generateQueueNumber. frame; congruence. Qed.

Lemma getSystemSettings_readonly :
  preserves eq queueController.getSystemSettings.
Proof. unfold queueController.getSystemSettings. frame; congruence. Qed.

(** Everything a successful [requestQueue] has done, whatever the
    plan. *)
Lemma requestQueue_success user serviceId w st q w' :
  queueController.requestQueue user serviceId w
  = (Val (json_success st q), w') ->
  exists sid sv number,
    serviceId = Some sid /\ sid <> 0 /\
    find (fun r => svc_id r =? sid) (services (store w)) = Some sv /\
    svc_is_active sv = true /\
    Spec.active_tickets (userId user) sid (store w) = [] /\
    let position := Spec.admission_position sid (env w) (store w) in
    let wait := JS.or_default (svc_estimated_service_time sv) 5 * position in
    let inserted :=
      Queue.insertSql (userId user) sid number position wait (env w) (store w) in
    q = fst inserted /\
    env w' = env w /\
    store w'
    = set_queue_logs (snd inserted)
        (queue_logs (store w) ++
         [ {| log_queue_entry_id := qe_id q;
              log_service_id := sid;
              log_counter_id := None;
              log_action := "created";
              log_metadata := None |} ])%list.
Proof.
  unfold queueController.requestQueue. intros H.
  apply try_catch_val_inv in H as [H|(msg & w1 & _ & H)];
    [|now apply fail_not_success in H].
  destruct serviceId as [sid|]; [|now apply fail_not_success in H].
  destruct (Z.eq_dec sid 0) as [->|Hnz]; [now apply fail_not_success in H|].
  assert (Hbody : forall X (a b : X), match sid with 0 => a | _ => b end = b).
  { intros. destruct sid; congruence. }
  rewrite Hbody in H. clear Hbody.
  apply bind_val_inv in H as (systemSettings & w1 & H1 & H).
  apply getSystemSettings_readonly in H1 as [S1 E1].
  destruct (system_maintenance_mode systemSettings); [discriminate|].
  apply bind_val_inv in H as (service & w2 & H2 & H).
  apply select_inv in H2 as (S2 & E2 & V2). specialize (V2 _ eq_refl).
  unfold Sql.first_row in V2. rewrite filter_hd_find in V2.
  destruct service as [sv|]; [|now apply fail_not_success in H].
  destruct (svc_is_active sv) eqn:Hactive; cbn [negb] in H;
    [|now apply fail_not_success in H].
  apply bind_val_inv in H as (existingQueue & w3 & H3 & H).
  apply select_inv in H3 as (S3 & E3 & V3). specialize (V3 _ eq_refl).
  destruct existingQueue as [x|]; [discriminate|].
  apply bind_val_inv in H as (queueEntry & w4 & H4 & H).
  apply bind_val_inv in H as ([] & w5 & H5 & H).
  apply swallow_inv in H5 as (_ & S5 & E5); [|apply refresh_readonly].
  unfold ret in H. inversion H; subst queueEntry w5 st. clear H.
  unfold Queue.create in H4.
  apply bind_val_inv in H4 as (number & w6 & H6 & H4).
  apply generateQueueNumber_readonly in H6 as [S6 E6].
  apply bind_val_inv in H4 as (position & w7 & H7 & H4).
  unfold Queue.calculateQueuePosition in H7.
  apply bind_val_inv in H7 as (count & w8 & H8 & H7).
  apply select_inv in H8 as (S8 & E8 & V8). specialize (V8 _ eq_refl).
  unfold ret in H7. inversion H7; subst position w8. clear H7.
  apply bind_val_inv in H4 as (serviceResult & w9 & H9 & H4).
  apply select_inv in H9 as (S9 & E9 & V9). specialize (V9 _ eq_refl).
  apply bind_val_inv in H4 as (row & w10 & H10 & H4).
  apply query_val_inv in H10 as (V10 & S10 & E10).
  apply bind_val_inv in H4 as ([] & w11 & H11 & H4).
  apply query_val_inv in H11 as (_ & S11 & E11).
  unfold ret in H4. inversion H4; subst row w11. clear H4.
  assert (Sw1 : store w1 = store w) by congruence.
  assert (Sw2 : store w2 = store w) by congruence.
  assert (Sw6 : store w6 = store w) by congruence.
  assert (Sw7 : store w7 = store w) by congruence.
  assert (Sw9 : store w9 = store w) by congruence.
  assert (Ew6 : env w6 = env w) by congruence.
  assert (Ew9 : env w9 = env w) by congruence.
  rewrite Sw1 in V2. rewrite Sw2 in V3. rewrite Sw6, Ew6 in V8.
  rewrite Sw7 in V9. rewrite Sw9, Ew9 in S10, S11, H0.
  symmetry in V2.
  destruct (find_filter _ _ _ V2) as [others Hsv].
  rewrite Hsv in V9. subst serviceResult. cbn [map] in *.
  fold (Spec.admission_position sid (env w) (store w)) in V8. subst count.
  exists sid, sv, number.
  split; [reflexivity|]. split; [exact Hnz|]. split; [exact V2|].
  split; [exact Hactive|].
  split.
  { unfold Spec.active_tickets.
    destruct (filter _ (queue_entries (store w))); [reflexivity|discriminate]. }
  cbv zeta. split; [now symmetry|]. split; [congruence|].
  rewrite S5, S11. cbn [snd]. rewrite S10. rewrite H0.
  unfold Queue.insertSql. reflexivity.
Qed.

Section FrozenFacts.

Lemma frozen_update s (cond : queue_entry -> bool)
    (set : queue_entry -> queue_entry) :
  (forall x, Spec.frozen (set x) = Spec.frozen x) ->
  map Spec.frozen
      (map (fun x => if cond x then set x else x) (queue_entries s))
  = map Spec.frozen (queue_entries s).
Proof.
  intros H. rewrite map_map. apply map_ext. intros x.
  destruct (cond x); [apply H | reflexivity].
Qed.

Lemma frozen_same_refl s : Spec.frozen_same s s.
Proof. reflexivity. Qed.

Lemma frozen_same_trans a b c :
  Spec.frozen_same a b -> Spec.frozen_same b c -> Spec.frozen_same a c.
Proof. unfold Spec.frozen_same. congruence. Qed.

Lemma frozen_kept_refl s : Spec.frozen_kept s s.
Proof. exists []. now rewrite app_nil_r. Qed.

Lemma frozen_kept_trans a b c :
  Spec.frozen_kept a b -> Spec.frozen_kept b c -> Spec.frozen_kept a c.
Proof.
  intros [x Hx] [y Hy]. exists (x ++ y)%list.
  now rewrite Hy, Hx, app_assoc.
Qed.

Lemma frozen_same_kept a b : Spec.frozen_same a b -> Spec.frozen_kept a b.
Proof. intros H. exists []. now rewrite app_nil_r. Qed.

End FrozenFacts.

(** No operation other than a request touches the frozen columns, and a
    request only adds a row. *)
Lemma handle_keeps_frozen o :
  preserves (match o with
             | op_request _ _ => Spec.frozen_kept
             | _ => Spec.frozen_same
             end) (handle o).
Proof.
  destruct o; cbn [handle].
  - apply preserves_requestQueue; intros;
      first [ eapply frozen_kept_trans; eassumption
            | apply frozen_same_kept;
              first [ reflexivity | unfold Spec.frozen_same; simpl;
                                    now apply frozen_update ]
            | idtac ].
    exists [Spec.frozen (fst (Queue.insertSql u sid n p t e s))].
    simpl. now rewrite map_app.
  - apply preserves_callNext; intros;
      first [ eapply frozen_same_trans; eassumption | reflexivity
            | unfold Spec.frozen_same; simpl; now apply frozen_update ].
  - apply preserves_startServing; intros;
      first [ eapply frozen_same_trans; eassumption | reflexivity
            | unfold Spec.frozen_same; simpl; now apply frozen_update ].
  - apply preserves_completeService; intros;
      first [ eapply frozen_same_trans; eassumption | reflexivity
            | unfold Spec.frozen_same; simpl; now apply frozen_update ].
  - apply preserves_cancelQueue; intros;
      first [ eapply frozen_same_trans; eassumption | reflexivity
            | unfold Spec.frozen_same; simpl; now apply frozen_update ].
Qed.

Lemma admission_position_all_past sid e s :
  (forall t, In t (queue_entries s) -> qe_requested_at t < now e) ->
  Spec.admission_position sid e s
  = Z.of_nat (List.length (Spec.waiting_of sid s)) + 1.
Proof.
  intros Hpast. unfold Spec.admission_position, Spec.waiting_of.
  do 3 f_equal. apply filter_ext_in_bool. intros t Ht.
  apply Hpast in Ht. apply Z.ltb_lt in Ht. rewrite Ht. apply andb_true_r.
Qed.

(** C7 (admission postcondition), as the code has it.  Every ticket a
    request creates is stored with [queue_position] equal to the number of
    the service's waiting tickets requested before the instant of the
    admission, plus one (all the waiting tickets when every stored ticket
    was requested earlier), and with [estimated_wait_time] equal to that
    position multiplied by the service's estimated service time, or by 5
    when that time is unset or 0.  No operation recomputes either column:
    call, start, complete and cancel leave the (id, position, wait) of
    every row as it is, and a request only adds a row. *)
Theorem admission_postcondition :
  (forall (user : req_user) (serviceId : option Z) (w w' : world) (st : Z)
          (q : queue_entry),
      queueController.requestQueue user serviceId w
      = (Val (json_success st q), w') ->
      exists sid sv,
        serviceId = Some sid /\
        find (fun r => svc_id r =? sid) (services (store w)) = Some sv /\
        In q (queue_entries (store w')) /\
        qe_queue_position q
        = Spec.admission_position sid (env w) (store w) /\
        ((forall t, In t (queue_entries (store w)) ->
                    qe_requested_at t < now (env w)) ->
         qe_queue_position q
         = Z.of_nat (List.length (Spec.waiting_of sid (store w))) + 1) /\
        qe_estimated_wait_time q
        = JS.or_default (svc_estimated_service_time sv) 5
          * qe_queue_position q /\
        (forall base, svc_estimated_service_time sv = Some base ->
                      base <> 0 ->
                      qe_estimated_wait_time q = base * qe_queue_position q))
  /\
  (forall (o : operation) (w : world),
      match o with
      | op_request _ _ => Spec.frozen_kept
      | _ => Spec.frozen_same
      end (store w) (store (snd (handle o w)))).
Proof.
  split.
  - intros user serviceId w w' st q H.
    apply requestQueue_success in H
      as (sid & sv & number & Hsid & _ & Hsv & _ & _ & Hq & _ & Hs).
    cbv zeta in Hq, Hs.
    exists sid, sv. split; [exact Hsid|]. split; [exact Hsv|].
    split.
    { rewrite Hs. simpl. apply in_or_app. right. left. now symmetry. }
    assert (Hpos : qe_queue_position q
                   = Spec.admission_position sid (env w) (store w))
      by (subst q; reflexivity).
    assert (Hwait : qe_estimated_wait_time q
                    = JS.or_default (svc_estimated_service_time sv) 5
                      * qe_queue_position q)
      by (subst q; reflexivity).
    split; [exact Hpos|]. split.
    { intros Hpast. rewrite Hpos. now apply admission_position_all_past. }
    split; [exact Hwait|].
    intros base Hbase Hnz. rewrite Hwait, Hbase.
    destruct base; [congruence | reflexivity | reflexivity].
  - intros o w.
    destruct (handle o w) as [r w'] eqn:H.
    now apply (handle_keeps_frozen o) in H as [H _].
Qed.

Lemma admission_postcondition_witness :
  let ahead := Sample.ticket 1 10 1 "REG-001" 1 waiting None 1000 in
  let s := Sample.base [ahead] [] in
  let r := queueController.requestQueue Sample.student11 (Some 1)
             (reliable s (Sample.clock 5000)) in
  exists q, fst r = Val (json_success 201 q) /\
            qe_queue_position q = 2 /\ qe_estimated_wait_time q = 10.
Proof.
  cbv zeta.
  set (s := Sample.base [Sample.ticket 1 10 1 "REG-001" 1 waiting None 1000] []).
  set (w := reliable s (Sample.clock 5000)).
  set (q := fst (Queue.insertSql 11 1 "REG-002" 2 10 (Sample.clock 5000) s)).
  destruct (proj1 admission_postcondition Sample.student11 (Some 1) w
              (snd (queueController.requestQueue Sample.student11 (Some 1) w))
              201 q eq_refl)
    as (sid & sv & Hsid & Hsv & _ & _ & Hpos & _ & Hwait).
  exists q. split; [reflexivity|].
  inversion Hsid; subst sid. inversion Hsv; subst sv.
  split.
  - rewrite Hpos; [reflexivity|].
    intros t [<-|[]]. simpl. lia.
  - rewrite (Hwait 5 eq_refl); [reflexivity | discriminate].
Defined.

(** C7 as stated fails for a service whose estimated service time is 0:
    the stored estimate is 5 times the position, not 0 times it. *)
Lemma estimated_wait_time_falls_back_to_five :
  let s := Sample.base [] [] in
  let r := queueController.requestQueue Sample.student10 (Some 3)
             (reliable s (Sample.clock 5000)) in
  find (fun sv => svc_id sv =? 3) (services s) = Some Sample.walkin /\
  svc_estimated_service_time Sample.walkin = Some 0 /\
  exists q, fst r = Val (json_success 201 q) /\
            qe_queue_position q = 1 /\
            qe_estimated_wait_time q = 5 /\
            qe_estimated_wait_time q <> 0 * qe_queue_position q.
Proof.
  vm_compute. repeat split. eexists. repeat split. discriminate.
Qed.

(* ===================================================================== *)
(** * One active ticket per user and service *)
(* ===================================================================== *)

(** A handler always answers: what its body throws is turned into the
    error 500 (or 400 for a refused cancellation). *)
Lemma requestQueue_answers user sid w :
  exists resp, fst (queueController.requestQueue user sid w) = Val resp.
Proof.
  unfold queueController.requestQueue, try_catch.
  match goal with |- context [let (o, w') := ?b w in _] => destruct (b w) as [[a|msg] w1] end;
    simpl; eauto.
Qed.

(** The request path does enforce the invariant: over a reliable store a
    request made while the user holds a non-terminal ticket of the
    service is refused and stores nothing, and a request never takes a
    store that satisfies the invariant to one that does not. *)
Lemma requestQueue_keeps_single_active user sid s e :
  let r := queueController.requestQueue user sid (reliable s e) in
  (forall x, sid = Some x -> Spec.active_tickets (userId user) x s <> [] ->
             is_error (fst r) = true /\ store (snd r) = s) /\
  (Spec.single_active s -> Spec.single_active (store (snd r))).
Proof.
  intros r.
  assert (Hcases : is_error (fst r) = true \/
                   exists st q, r = (Val (json_success st q), snd r)).
  { destruct (requestQueue_answers user sid (reliable s e)) as [resp Hresp].
    fold r in Hresp. destruct r as [o w']. simpl in *. subst o.
    destruct resp as [st q|st err]; [right; eauto | now left]. }
  split.
  - intros x -> Hactive.
    destruct Hcases as [Herr|(st & q & Hr)].
    + split; [exact Herr|]. now apply requestQueue_error_unchanged.
    + apply requestQueue_success in Hr
        as (sid' & _ & _ & Hsid & _ & _ & _ & Hnone & _).
      inversion Hsid; subst sid'. contradiction.
  - intros Hinv.
    destruct Hcases as [Herr|(st & q & Hr)].
    + pose proof (requestQueue_error_unchanged user sid s e Herr) as Hs.
      fold r in Hs. now rewrite Hs.
    + apply requestQueue_success in Hr
        as (x & sv & number & _ & _ & _ & _ & Hnone & Hq & _ & Hs).
      cbv zeta in Hq, Hs. simpl in Hnone, Hq, Hs.
      intros u y. rewrite Hs. unfold Spec.active_tickets. simpl.
      rewrite filter_app, length_app. simpl.
      fold (Spec.active_tickets u y s).
      destruct (Z.eqb_spec (userId user) u) as [<-|Hu]; simpl.
      * destruct (Z.eqb_spec x y) as [<-|Hy]; simpl.
        -- rewrite Hnone. simpl. lia.
        -- specialize (Hinv (userId user) y). lia.
      * specialize (Hinv u y). lia.
Qed.

(** C5 (single active ticket) at a concrete run.  User 10 requests a
    ticket for service 1; counter 1 calls, starts and completes it; the
    user requests again and gets a second ticket, which is legitimate
    since the first is completed.  Then counter 1 starts the first ticket
    once more: [startServing] does not look at the status, the completed
    ticket becomes [serving], and the user now holds two tickets of the
    service in a non-terminal status.  All six requests are answered with
    success.  (A request made while the first ticket was still waiting is
    refused with "You already have an active queue for this service" and
    stores nothing.) *)
Theorem two_active_tickets_after_restart :
  map (fun r => is_success (fst r))
      [Sample.step1; Sample.step2; Sample.step3; Sample.step4;
       Sample.step5; Sample.step6]
  = [true; true; true; true; true; true] /\
  map qe_status (Spec.active_tickets 10 1 (store (snd Sample.step5)))
  = [waiting] /\
  map (fun q => (qe_id q, qe_status q))
      (Spec.active_tickets 10 1 (store (snd Sample.step6)))
  = [(1, serving); (2, waiting)] /\
  ~ Spec.single_active (store (snd Sample.step6)) /\
  (let again := queueController.requestQueue Sample.student10 (Some 1)
                  (Sample.later Sample.step1 1500) in
   fst again
   = Val (json_error 400
            {| message := "You already have an active queue for this service";
               queueId := Some 1; maintenanceMode := false |}) /\
   store (snd again) = store (snd Sample.step1)).
Proof.
  split; [vm_compute; reflexivity|].
  split; [vm_compute; reflexivity|].
  split; [vm_compute; reflexivity|].
  split.
  - intros H. specialize (H 10 1).
    assert (E : List.length (Spec.active_tickets 10 1 (store (snd Sample.step6))) = 2%nat)
      by (vm_compute; reflexivity).
    rewrite E in H. lia.
  - vm_compute. split; reflexivity.
Qed.

(* ===================================================================== *)
(** * Further properties: what every operation keeps *)
(* ===================================================================== *)

Section HandlerSteps.
Context (R : db -> db -> Prop).
Hypothesis R_refl : forall s, R s s.
Hypothesis R_trans : forall a b c, R a b -> R b c -> R a c.
Hypothesis R_status :
  forall s id st,
    R s (set_counters s
           (map (fun c : counter =>
                   if ctr_id c =? id then Counter.with_status st c else c)
                (counters s))).
Hypothesis R_current :
  forall s id q,
    R s (set_counters s
           (map (fun c : counter =>
                   if ctr_id c =? id
                   then Counter.with_current_serving q c else c)
                (counters s))).
Hypothesis R_log :
  forall s row, R s (set_queue_logs s (queue_logs s ++ [row])%list).
Hypothesis R_update :
  forall s id (set : queue_entry -> queue_entry),
    (forall x, written_once (set x) = written_once x) ->
    R s (set_queue_entries s
           (map (fun x : queue_entry => if qe_id x =? id then set x else x)
                (queue_entries s))
           (queue_entries_id_seq s)).
Hypothesis R_insert :
  forall s u sid n p t e, R s (snd (Queue.insertSql u sid n p t e s)).

Ltac steps :=
  unfold Sql.update_where; cbn [fst snd];
  first [ apply R_status | apply R_current | apply R_log
        | apply R_insert | apply R_update; reflexivity ].

Lemma handle_steps o : preserves R (handle o).
Proof.
  destruct o; cbn [handle].
  - unfold queueController.requestQueue, queueController.getSystemSettings,
      Service.findById, Queue.findByUserAndService, Queue.create,
      Queue.generateQueueNumber, Queue.calculateQueuePosition,
      QueueEvents.emitQueueCreated.
    frame; steps.
  - unfold counterController.callNext, Counter.findById,
      Counter.getNextWaitingQueue, QueueEvents.emitQueueCalled.
    frame; steps.
  - unfold counterController.startServing, Counter.findById, Queue.findById,
      QueueEvents.emitQueueServingStarted.
    frame; steps.
  - unfold counterController.completeService, Counter.findById,
      Queue.findById, QueueEvents.emitQueueCompleted.
    frame; steps.
  - unfold queueController.cancelQueue, Queue.cancel,
      QueueEvents.emitQueueCancelled.
    frame; steps.
Qed.

End HandlerSteps.

Lemma written_once_update (id : Z) (set : queue_entry -> queue_entry) rows :
  (forall x, written_once (set x) = written_once x) ->
  map written_once (map (fun x => if qe_id x =? id then set x else x) rows)
  = map written_once rows.
Proof.
  intros H. rewrite map_map. apply map_ext. intros x.
  destruct (qe_id x =? id); [apply H | reflexivity].
Qed.

Lemma written_once_id q q' : written_once q = written_once q' -> qe_id q = qe_id q'.
Proof. unfold written_once. intros H. now inversion H. Qed.

Lemma tickets_kept_refl s : tickets_kept s s.
Proof. exists []. now rewrite app_nil_r. Qed.

Lemma tickets_kept_trans a b c :
  tickets_kept a b -> tickets_kept b c -> tickets_kept a c.
Proof.
  intros [x Hx] [y Hy]. exists (x ++ y)%list.
  eapply Permutation_trans; [exact Hy|].
  rewrite app_assoc. now apply Permutation_app_tail.
Qed.

(** X1.  Whatever an operation (request, call, start, complete, cancel)
    answers and whichever store queries fail on the way, it deletes no
    queue entry, and it leaves the id, the owner, the service, the number,
    the position, the estimated wait and the request time of every stored
    entry as they were: the entries of before are all found afterwards
    with these columns, each as often as before, in whatever order the
    store keeps its rows. *)
Theorem operations_keep_stored_tickets :
  forall (o : operation) (w : world),
    tickets_kept (store w) (store (snd (handle o w))).
Proof.
  intros o w. destruct (handle o w) as [r w'] eqn:H. cbn [snd].
  revert w r w' H.
  assert (P : preserves tickets_kept (handle o)).
  { apply handle_steps.
    - apply tickets_kept_refl.
    - apply tickets_kept_trans.
    - intros s id st. exists []. now rewrite app_nil_r.
    - intros s id q. exists []. now rewrite app_nil_r.
    - intros s row. exists []. now rewrite app_nil_r.
    - intros s id set Hset. exists []. rewrite app_nil_r. cbn.
      now rewrite written_once_update.
    - intros s u sid n p t e.
      exists [written_once (fst (Queue.insertSql u sid n p t e s))].
      cbn. now rewrite map_app. }
  intros w r w' H. now apply P in H.
Qed.

Lemma surroundings_kept_refl s : surroundings_kept s s.
Proof.
  repeat split. exists []. now rewrite app_nil_r.
Qed.

Lemma surroundings_kept_trans a b c :
  surroundings_kept a b -> surroundings_kept b c -> surroundings_kept a c.
Proof.
  intros (C1 & [x Hx] & S1 & U1 & T1) (C2 & [y Hy] & S2 & U2 & T2).
  repeat split; try congruence.
  exists (x ++ y)%list. now rewrite Hy, Hx, app_assoc.
Qed.

(** X2.  Whatever an operation answers and whichever store queries fail,
    it adds no counter and removes none, and no counter changes its id,
    its service or its number; the action log only grows at its end; the
    services, the users and the settings are not written at all. *)
Theorem operations_keep_surroundings :
  forall (o : operation) (w : world),
    surroundings_kept (store w) (store (snd (handle o w))).
Proof.
  intros o w. destruct (handle o w) as [r w'] eqn:H. cbn [snd].
  assert (P : preserves surroundings_kept (handle o)).
  { apply handle_steps.
    - apply surroundings_kept_refl.
    - apply surroundings_kept_trans.
    - intros s id st. repeat split; cbn.
      + rewrite map_map. apply map_ext. intros c.
        now destruct (ctr_id c =? id).
      + exists []. now rewrite app_nil_r.
    - intros s id q. repeat split; cbn.
      + rewrite map_map. apply map_ext. intros c.
        now destruct (ctr_id c =? id).
      + exists []. now rewrite app_nil_r.
    - intros s row. repeat split; cbn. now exists [row].
    - intros s id set _. repeat split. exists []. now rewrite app_nil_r.
    - intros s u sid n p t e. repeat split. exists []. now rewrite app_nil_r. }
  now apply P in H.
Qed.

Lemma ids_after_update (id : Z) (set : queue_entry -> queue_entry) rows :
  (forall x, written_once (set x) = written_once x) ->
  map qe_id (map (fun x => if qe_id x =? id then set x else x) rows)
  = map qe_id rows.
Proof.
  intros H. rewrite map_map. apply map_ext. intros x.
  destruct (qe_id x =? id); [|reflexivity].
  now apply written_once_id.
Qed.

Lemma In_ids {rows : list queue_entry} {q} :
  In q rows -> In (qe_id q) (map qe_id rows).
Proof. apply in_map. Qed.

Lemma ids_below rows bound :
  (forall q, In q rows -> qe_id q < bound) <->
  (forall i, In i (map qe_id rows) -> i < bound).
Proof.
  split.
  - intros H i Hi. apply in_map_iff in Hi as (q & <- & Hq). now apply H.
  - intros H q Hq. apply H. now apply in_map.
Qed.

(** X3.  Every operation keeps the ids of the queue entries a key and
    the id sequence ahead of them, whatever it answers and whichever
    store queries fail: an update never assigns an id, and an insertion
    takes the sequence's value and advances the sequence. *)
Theorem operations_keep_ids_fresh :
  forall (o : operation) (w : world),
    ids_fresh (store w) -> ids_fresh (store (snd (handle o w))).
Proof.
  intros o w. destruct (handle o w) as [r w'] eqn:H. cbn [snd].
  assert (P : preserves keeps_ids_fresh (handle o)).
  { apply handle_steps; unfold keeps_ids_fresh.
    - auto.
    - auto.
    - intros s id st Hs. exact Hs.
    - intros s id q Hs. exact Hs.
    - intros s row Hs. exact Hs.
    - intros s id set Hset [Hnd Hlt]. unfold ids_fresh. cbn.
      rewrite ids_below in Hlt |- *.
      rewrite (ids_after_update id set _ Hset). now split.
    - intros s u sid n p t e [Hnd Hlt]. unfold ids_fresh. cbn.
      rewrite ids_below in Hlt |- *. rewrite map_app. cbn. split.
      + apply NoDup_app; [exact Hnd | repeat constructor; intros [] |].
        intros i Hi [<-|[]]. apply Hlt in Hi. lia.
      + intros i Hi. apply in_app_or in Hi as [Hi|[<-|[]]]; [|lia].
        apply Hlt in Hi. lia. }
  now apply P in H.
Qed.

Lemma operations_keep_ids_fresh_witness :
  ids_fresh (store (snd (handle (op_request Sample.student10 (Some 1))
                                Sample.day_start))).
Proof.
  apply (operations_keep_ids_fresh
           (op_request Sample.student10 (Some 1)) Sample.day_start).
  split; [constructor | intros q []].
Defined.

(* ===================================================================== *)
(** * Further properties: numbers printed and read back *)
(* ===================================================================== *)

Section RoundTrip.

Lemma decimal_acc_of_uint_acc d acc :
  Spec.decimal_acc (NilEmpty.string_of_uint d) (Z.pos acc)
  = Some (Z.pos (Pos.of_uint_acc d acc)).
Proof.
  revert acc. induction d; intros acc; cbn [NilEmpty.string_of_uint];
    [reflexivity | ..];
    cbn [Spec.decimal_acc Pos.of_uint_acc];
    match goal with
    | |- context [Spec.isDigit ?c] =>
        change (Spec.isDigit c) with true; cbv iota
    end;
    rewrite <- IHd; f_equal;
    rewrite ?Pos2Z.inj_add, ?Pos2Z.inj_mul;
    match goal with
    | |- context [Z.of_nat ?k] =>
        let v := eval vm_compute in (Z.of_nat k) in
        change (Z.of_nat k) with v
    end; lia.
Qed.

Lemma decimal_acc_of_uint d :
  Spec.decimal_acc (NilEmpty.string_of_uint d) 0
  = Some (Z.of_N (Pos.of_uint d)).
Proof.
  induction d; cbn [NilEmpty.string_of_uint Pos.of_uint];
    [reflexivity | exact IHd | ..];
    cbn [Spec.decimal_acc];
    match goal with
    | |- context [Spec.isDigit ?c] =>
        change (Spec.isDigit c) with true; cbv iota
    end;
    cbn [Z.of_N]; rewrite <- decimal_acc_of_uint_acc; f_equal.
Qed.

Lemma string_of_uint_nonempty d :
  d <> Decimal.Nil -> NilEmpty.string_of_uint d <> "".
Proof. destruct d; cbn; congruence. Qed.

Lemma string_of_uint_NilZero d :
  d <> Decimal.Nil -> NilZero.string_of_uint d = NilEmpty.string_of_uint d.
Proof. destruct d; [congruence | reflexivity ..]. Qed.

Lemma decimal_value_nonempty s :
  s <> "" -> Spec.decimal_value s = Spec.decimal_acc s 0.
Proof. destruct s; [congruence | reflexivity]. Qed.

(** [String(n)] for [n >= 0] is a non-empty string of decimal digits
    that denotes [n]. *)
Lemma decimal_value_String n :
  0 <= n -> Spec.decimal_value (JS.String_ (JS.Num n)) = Some n.
Proof.
  intros Hn. unfold JS.String_. destruct n as [|p|p]; [reflexivity| |lia].
  cbn [Z.to_int NilZero.string_of_int].
  pose proof (DecimalPos.Unsigned.of_to p) as Hp.
  assert (Hnil : Pos.to_uint p <> Decimal.Nil).
  { intros E. rewrite E in Hp. discriminate. }
  rewrite string_of_uint_NilZero by exact Hnil.
  rewrite decimal_value_nonempty by now apply string_of_uint_nonempty.
  now rewrite decimal_acc_of_uint, Hp.
Qed.

Lemma decimal_acc_zeros k s :
  Spec.decimal_acc (JS.repeat_char "0" k ++ s) 0 = Spec.decimal_acc s 0.
Proof. induction k as [|k IH]; [reflexivity | exact IH]. Qed.

(** Zero-padding keeps the value. *)
Lemma decimal_value_padStart k s n :
  Spec.decimal_value s = Some n ->
  Spec.decimal_value (JS.padStart k "0" s) = Some n.
Proof.
  unfold JS.padStart. intros H.
  destruct s as [|c s]; [discriminate|].
  unfold Spec.decimal_value in *.
  destruct (JS.repeat_char "0" (k - String.length (String c s)) ++ String c s)
    eqn:E.
  - destruct (k - String.length (String c s))%nat; discriminate.
  - rewrite <- E, decimal_acc_zeros. exact H.
Qed.

Lemma padded_digits n :
  0 <= n ->
  Spec.decimal_value (JS.padStart 3 "0" (JS.String_ (JS.Num n))) = Some n.
Proof. intros Hn. now apply decimal_value_padStart, decimal_value_String. Qed.

Lemma numberPart_no_hyphen p ds n :
  Spec.no_hyphen p = true ->
  Spec.decimal_value ds = Some n ->
  JS.parseInt (JS.at_index (JS.split "-" (p ++ "-" ++ ds)) 1) = JS.Num n.
Proof.
  intros Hp Hd.
  change (p ++ "-" ++ ds) with (p ++ String "-" ds).
  rewrite split_hyphen_app by exact Hp.
  rewrite split_no_hyphen.
  - simpl. now apply parseInt_decimal.
  - destruct ds; [discriminate|]. unfold Spec.decimal_value in Hd.
    eapply decimal_acc_no_hyphen; eauto.
Qed.

End RoundTrip.

(** X4.  The sequencer reads back what it printed: for a prefix without a
    hyphen and a number [0 <= n < 2^53] (the integers JavaScript holds
    exactly and prints in plain decimal), the queue number PREFIX-[n]
    (zero-padded to three digits) is split at its hyphens and its second
    segment is parsed to [n] again, also when [n] has more than three
    digits. *)
Theorem queue_number_round_trip :
  forall (prefix : string) (n : Z),
    Spec.no_hyphen prefix = true ->
    0 <= n < 2 ^ 53 ->
    JS.parseInt
      (JS.at_index
         (JS.split "-"
            (prefix ++ "-" ++ JS.padStart 3 "0" (JS.String_ (JS.Num n)))) 1)
    = JS.Num n.
Proof.
  intros prefix n Hp [Hn _].
  apply numberPart_no_hyphen; [exact Hp | now apply padded_digits].
Qed.

Lemma queue_number_round_trip_witness :
  JS.parseInt
    (JS.at_index
       (JS.split "-" ("REG" ++ "-" ++ JS.padStart 3 "0" (JS.String_ (JS.Num 1234)))) 1)
  = JS.Num 1234.
Proof.
  apply (queue_number_round_trip "REG" 1234); [reflexivity | lia].
Defined.

(* ===================================================================== *)
(** * Further properties: the handlers over a store that answers *)
(* ===================================================================== *)

Section Runs.
Variables (s : db) (e : environment).

Lemma callNext_reliable user c :
  counterController.callNext user c (reliable s e)
  = if negb (is_staff (user_role user))
    then (Val (json_error 403
                 (error_message "Access denied. Counter staff only.")),
          reliable s e)
    else
      match counter_row s c with
      | None =>
          (Val (json_error 404 (error_message "Counter not found")),
           reliable s e)
      | Some ctr =>
          if counter_status_eqb (ctr_status ctr) closed
          then (Val (json_error 400 (error_message "Counter is closed")),
                reliable s e)
          else
            match hd_error (Sql.order_by Counter.position_then_requested
                              (Spec.waiting_of (ctr_service_id ctr) s)) with
            | None =>
                (Val (json_error 404
                        (error_message "No waiting queues available")),
                 reliable s e)
            | Some m =>
                (Val (json_success 200
                        (counterController.set_called c (now e)
                           (hd m (filter (fun x => qe_id x =? qe_id m)
                                         (queue_entries s))))),
                 reliable
                   (set_queue_logs
                      (set_counters
                         (set_queue_entries s
                            (claimed c (now e) m (queue_entries s))
                            (queue_entries_id_seq s))
                         (map (fun x =>
                                 if ctr_id x =? c
                                 then Counter.with_status busy
                                        (Counter.with_current_serving
                                           (Some (qe_id m)) x)
                                 else x)
                              (counters s)))
                      (queue_logs s ++
                       [ {| log_queue_entry_id := qe_id m;
                            log_service_id := ctr_service_id ctr;
                            log_counter_id := Some c;
                            log_action := "called";
                            log_metadata := None |} ])%list) e)
            end
      end.
Proof.
  unfold counterController.callNext, try_catch.
  destruct (is_staff (user_role user)); cbn [negb]; [|reflexivity].
  unfold Counter.findById. rewrite bind_select_reliable.
  fold (counter_row s c).
  destruct (counter_row s c) as [ctr|]; [|reflexivity].
  destruct (counter_status_eqb (ctr_status ctr) closed); [reflexivity|].
  unfold Counter.getNextWaitingQueue. rewrite bind_select_reliable.
  unfold Sql.first_row at 1. fold (Spec.waiting_of (ctr_service_id ctr) s).
  destruct (hd_error _) as [m|] eqn:Hm; [|reflexivity].
  unfold counterController.updateQueueSql. rewrite bind_query_reliable.
  unfold Sql.update_where. cbn [fst snd].
  apply order_by_hd_In, filter_In in Hm as [Hm _].
  assert (Hf : exists r rest,
             filter (fun q => qe_id q =? qe_id m) (queue_entries s)
             = r :: rest /\ qe_id r = qe_id m).
  { assert (H : In m (filter (fun q => qe_id q =? qe_id m) (queue_entries s)))
      by (apply filter_In; split; [exact Hm | apply Z.eqb_refl]).
    destruct (filter _ (queue_entries s)) as [|r rest] eqn:E; [contradiction|].
    exists r, rest. split; [reflexivity|].
    assert (Hr : In r (r :: rest)) by now left.
    rewrite <- E in Hr. apply filter_In in Hr as [_ Hr]. now apply Z.eqb_eq. }
  destruct Hf as (r & rest & Hf & Hid). rewrite Hf.
  cbn [map first_or_TypeError hd]. rewrite bind_ret.
  unfold Counter.setCurrentServing. rewrite bind_query_reliable.
  unfold Counter.updateStatus.
  change (Counter.allowedStatuses "busy") with (Some busy). cbv iota.
  rewrite bind_query_reliable.
  unfold Queue.logQueueAction. rewrite bind_query_reliable.
  unfold QueueEvents.emitQueueCalled. rewrite bind_refresh_reliable.
  unfold ret, Sql.update_where, claimed. cbn.
  rewrite Hid. f_equal. unfold reliable. f_equal.
  unfold set_queue_logs, set_counters, set_queue_entries. cbn. f_equal.
  rewrite map_map. apply map_ext. intros x.
  destruct (ctr_id x =? c) eqn:E; cbn; now rewrite E.
Qed.

Lemma first_updated_row (qid : Z) (set : queue_entry -> queue_entry) t :
  In t (queue_entries s) -> qe_id t = qid ->
  exists r rest,
    filter (fun q => qe_id q =? qid) (queue_entries s) = r :: rest.
Proof.
  intros Hin Hid.
  assert (H : In t (filter (fun q => qe_id q =? qid) (queue_entries s)))
    by (apply filter_In; split; [exact Hin | now apply Z.eqb_eq]).
  destruct (filter _ (queue_entries s)) as [|r rest]; [contradiction|eauto].
Qed.

Lemma entry_row_In qid t :
  entry_row s qid = Some t ->
  In t (queue_entries s) /\ qe_id t = qid /\
  existsb (fun sv => svc_id sv =? qe_service_id t) (services s) = true /\
  existsb (fun u => u =? qe_user_id t) (users s) = true.
Proof.
  unfold entry_row. intros H.
  apply first_row_In, filter_In in H as [H Hc].
  rewrite !andb_true_iff, Z.eqb_eq in Hc. tauto.
Qed.

Lemma counter_row_In c ctr :
  counter_row s c = Some ctr ->
  In ctr (counters s) /\ ctr_id ctr = c /\
  existsb (fun sv => svc_id sv =? ctr_service_id ctr) (services s) = true.
Proof.
  unfold counter_row. intros H.
  apply first_row_In, filter_In in H as [H Hc].
  rewrite !andb_true_iff, Z.eqb_eq in Hc. tauto.
Qed.

Lemma startServing_reliable user c qid :
  counterController.startServing user c qid (reliable s e)
  = if negb (is_staff (user_role user))
    then (Val (json_error 403
                 (error_message "Access denied. Counter staff only.")),
          reliable s e)
    else
      match counter_row s c with
      | None =>
          (Val (json_error 404 (error_message "Counter not found")),
           reliable s e)
      | Some ctr =>
          match entry_row s qid with
          | None =>
              (Val (json_error 404 (error_message "Queue entry not found")),
               reliable s e)
          | Some t =>
              if negb (option_Z_eqb (qe_counter_id t) (Some c))
              then
                (Val (json_error 400
                        (error_message
                           "Queue entry is not assigned to this counter")),
                 reliable s e)
              else
                (Val (json_success 200
                        (counterController.set_serving (now e)
                           (hd t (filter (fun x => qe_id x =? qid)
                                         (queue_entries s))))),
                 reliable
                   (set_queue_logs
                      (set_queue_entries s
                         (map (fun x =>
                                 if qe_id x =? qid
                                 then counterController.set_serving (now e) x
                                 else x)
                              (queue_entries s))
                         (queue_entries_id_seq s))
                      (queue_logs s ++
                       [ {| log_queue_entry_id := qid;
                            log_service_id := ctr_service_id ctr;
                            log_counter_id := Some c;
                            log_action := "started";
                            log_metadata := None |} ])%list) e)
          end
      end.
Proof.
  unfold counterController.startServing, try_catch.
  destruct (is_staff (user_role user)); cbn [negb]; [|reflexivity].
  unfold Counter.findById. rewrite bind_select_reliable.
  fold (counter_row s c).
  destruct (counter_row s c) as [ctr|]; [|reflexivity].
  unfold Queue.findById. rewrite bind_select_reliable.
  fold (entry_row s qid).
  destruct (entry_row s qid) as [t|] eqn:Ht; [|reflexivity].
  destruct (option_Z_eqb (qe_counter_id t) (Some c)); cbn [negb]; [|reflexivity].
  unfold counterController.updateQueueSql. rewrite bind_query_reliable.
  unfold Sql.update_where. cbn [fst snd].
  apply entry_row_In in Ht as (Hin & Hid & _).
  destruct (first_updated_row qid (counterController.set_serving (now e)) t
              Hin Hid) as (r & rest & ->).
  unfold Queue.logQueueAction. rewrite bind_query_reliable.
  reflexivity.
Qed.

Lemma completeService_reliable user c qid :
  counterController.completeService user c qid (reliable s e)
  = if negb (is_staff (user_role user))
    then (Val (json_error 403
                 (error_message "Access denied. Counter staff only.")),
          reliable s e)
    else
      match counter_row s c with
      | None =>
          (Val (json_error 404 (error_message "Counter not found")),
           reliable s e)
      | Some ctr =>
          match entry_row s qid with
          | None =>
              (Val (json_error 404 (error_message "Queue entry not found")),
               reliable s e)
          | Some t =>
              if negb (option_Z_eqb (qe_counter_id t) (Some c))
              then
                (Val (json_error 400
                        (error_message
                           "Queue entry is not assigned to this counter")),
                 reliable s e)
              else
                (Val (json_success 200
                        (counterController.set_completed (now e)
                           (hd t (filter (fun x => qe_id x =? qid)
                                         (queue_entries s))))),
                 reliable
                   (set_queue_logs
                      (set_counters
                         (set_queue_entries s
                            (map (fun x =>
                                    if qe_id x =? qid
                                    then counterController.set_completed
                                           (now e) x
                                    else x)
                                 (queue_entries s))
                            (queue_entries_id_seq s))
                         (map (fun x =>
                                 if ctr_id x =? c
                                 then Counter.with_status open
                                        (Counter.with_current_serving None x)
                                 else x)
                              (counters s)))
                      (queue_logs s ++
                       [ {| log_queue_entry_id := qid;
                            log_service_id := ctr_service_id ctr;
                            log_counter_id := Some c;
                            log_action := "completed";
                            log_metadata := None |} ])%list) e)
          end
      end.
Proof.
  unfold counterController.completeService, try_catch.
  destruct (is_staff (user_role user)); cbn [negb]; [|reflexivity].
  unfold Counter.findById. rewrite bind_select_reliable.
  fold (counter_row s c).
  destruct (counter_row s c) as [ctr|]; [|reflexivity].
  unfold Queue.findById. rewrite bind_select_reliable.
  fold (entry_row s qid).
  destruct (entry_row s qid) as [t|] eqn:Ht; [|reflexivity].
  destruct (option_Z_eqb (qe_counter_id t) (Some c)); cbn [negb]; [|reflexivity].
  unfold counterController.updateQueueSql. rewrite bind_query_reliable.
  unfold Sql.update_where. cbn [fst snd].
  apply entry_row_In in Ht as (Hin & Hid & _).
  destruct (first_updated_row qid (counterController.set_completed (now e)) t
              Hin Hid) as (r & rest & ->).
  unfold Counter.setCurrentServing. rewrite bind_query_reliable.
  unfold Counter.updateStatus.
  change (Counter.allowedStatuses "open") with (Some open). cbv iota.
  rewrite bind_query_reliable.
  unfold Queue.logQueueAction. rewrite bind_query_reliable.
  unfold QueueEvents.emitQueueCompleted.
  cbn [map Sql.first_row hd_error QueueEvents.with_entry].
  rewrite bind_refresh_reliable.
  unfold ret, Sql.update_where. cbn.
  f_equal. unfold reliable. f_equal.
  unfold set_queue_logs, set_counters, set_queue_entries. cbn. f_equal.
  rewrite map_map. apply map_ext. intros x.
  destruct (ctr_id x =? c) eqn:E; cbn; now rewrite E.
Qed.

(** [requestQueue] from the settings on, over a store that answers. *)
Lemma requestQueue_from_settings user sid w systemSettings :
  sid <> 0 ->
  queueController.getSystemSettings w = (Val systemSettings, reliable s e) ->
  queueController.requestQueue user (Some sid) w
  = if system_maintenance_mode systemSettings
    then
      (Val (json_error 503
              {| message :=
                   if String.eqb (maintenance_message systemSettings) ""
                   then "System is currently under maintenance. Please try again later."
                   else maintenance_message systemSettings;
                 queueId := None;
                 maintenanceMode := true |}),
       reliable s e)
    else
      match find (fun r => svc_id r =? sid) (services s) with
      | None =>
          (Val (json_error 404
                  (error_message "Service not found or inactive")),
           reliable s e)
      | Some sv =>
          if negb (svc_is_active sv)
          then
            (Val (json_error 404
                    (error_message "Service not found or inactive")),
             reliable s e)
          else
            match Spec.active_tickets (userId user) sid s with
            | q :: _ =>
                (Val (json_error 400
                        {| message :=
                             "You already have an active queue for this service";
                           queueId := Some (qe_id q);
                           maintenanceMode := false |}),
                 reliable s e)
            | [] =>
                let number := next_number s e sid sv in
                let position := Spec.admission_position sid e s in
                let wait :=
                  JS.or_default (svc_estimated_service_time sv) 5 * position in
                let inserted :=
                  Queue.insertSql (userId user) sid number position wait e s in
                (Val (json_success 201 (fst inserted)),
                 reliable
                   (set_queue_logs (snd inserted)
                      (queue_logs s ++
                       [ {| log_queue_entry_id := qe_id (fst inserted);
                            log_service_id := sid;
                            log_counter_id := None;
                            log_action := "created";
                            log_metadata := None |} ])%list) e)
            end
      end.
Proof.
  intros Hnz Hsettings. cbv zeta.
  unfold queueController.requestQueue, try_catch.
  assert (Hbody : forall X (a b : X),
             match sid with 0 => a | _ => b end = b).
  { intros. destruct sid; congruence. }
  rewrite Hbody.
  rewrite (bind_val _ _ _ _ _ Hsettings).
  destruct (system_maintenance_mode _); [reflexivity|].
  unfold Service.findById. rewrite bind_select_reliable.
  unfold Sql.first_row. rewrite filter_hd_find.
  destruct (find _ (services s)) as [sv|] eqn:Hsv; [|reflexivity].
  destruct (svc_is_active sv); cbn [negb]; [|reflexivity].
  unfold Queue.findByUserAndService. rewrite bind_select_reliable.
  fold (Spec.active_tickets (userId user) sid s).
  destruct (Spec.active_tickets (userId user) sid s) as [|q rest];
    [|reflexivity].
  cbn [Sql.first_row hd_error].
  destruct (create_reliable (userId user) sid s e sv Hsv) as (number & Hn & Hc).
  rewrite (generateQueueNumber_run s e sid sv Hsv) in Hn.
  assert (Hnum : number = next_number s e sid sv)
    by (unfold next_number; congruence).
  subst number. clear Hn.
  cbv zeta in Hc. rewrite (bind_val _ _ _ _ _ Hc).
  unfold QueueEvents.emitQueueCreated. rewrite bind_refresh_reliable.
  reflexivity.
Qed.

(** The settings [getSystemSettings] falls back to when its query
    fails. *)
Lemma getSystemSettings_failure msg :
  queueController.getSystemSettings
    {| store := s; env := e; plan := [Some msg] |}
  = (Val queueController.default_settings, reliable s e).
Proof. reflexivity. Qed.

End Runs.

(** A handler always sends a response: its whole body sits in a [try]
    whose [catch] replies. *)
Lemma handle_answers (o : operation) (w : world) :
  exists resp : response, fst (handle o w) = Val resp.
Proof.
  destruct o; cbn [handle];
    unfold queueController.requestQueue, counterController.callNext,
      counterController.startServing, counterController.completeService,
      queueController.cancelQueue, try_catch;
    match goal with
    | |- context [match ?m w with _ => _ end] =>
        destruct (m w) as [[a|msg] w1]
    end; try (eexists; reflexivity).
  destruct (_ || _); eexists; reflexivity.
Qed.

(** X5.  Every operation sends a response, and status 500 is kept for
    store failures.  Whatever the store does (any query may fail), the
    handler ends with a reply and lets no exception escape.  Over a store
    that answers every query the reply never has status 500: a request is
    answered with 201, 400, 404 or 503, a call, a start or a completion
    with 200, 400, 403 or 404, and a cancellation with 200 or 400. *)
Theorem no_internal_error_without_store_failure :
  forall (o : operation),
    (forall w : world, exists resp : response, fst (handle o w) = Val resp) /\
    (forall (s : db) (e : environment),
        exists resp : response,
          fst (handle o (reliable s e)) = Val resp /\
          In (status_code resp)
             match o with
             | op_request _ _ => [201; 400; 404; 503]
             | op_cancel _ _ => [200; 400]
             | _ => [200; 400; 403; 404]
             end).
Proof.
  intros o. split; [apply handle_answers|].
  intros s e. destruct o as [u sid|u c|u c q|u c q|u q]; cbn [handle].
  - destruct sid as [sid|]; [destruct (Z.eq_dec sid 0) as [->|Hnz]|].
    + eexists. split; [reflexivity|]. cbn. tauto.
    + rewrite (requestQueue_from_settings s e u sid _ _ Hnz
                 (getSystemSettings_reliable s e)).
      destruct (system_maintenance_mode _);
        [eexists; split; [reflexivity|cbn; tauto]|].
      destruct (find _ _) as [sv|];
        [|eexists; split; [reflexivity|cbn; tauto]].
      destruct (negb _); [eexists; split; [reflexivity|cbn; tauto]|].
      destruct (Spec.active_tickets _ _ _);
        eexists; (split; [reflexivity|cbn; tauto]).
    + eexists. split; [reflexivity|]. cbn. tauto.
  - rewrite callNext_reliable.
    destruct (negb _); [eexists; split; [reflexivity|cbn; tauto]|].
    destruct (counter_row s c) as [ctr|];
      [|eexists; split; [reflexivity|cbn; tauto]].
    destruct (counter_status_eqb _ _);
      [eexists; split; [reflexivity|cbn; tauto]|].
    destruct (hd_error _); eexists; (split; [reflexivity|cbn; tauto]).
  - rewrite startServing_reliable.
    destruct (negb _); [eexists; split; [reflexivity|cbn; tauto]|].
    destruct (counter_row s c) as [ctr|];
      [|eexists; split; [reflexivity|cbn; tauto]].
    destruct (entry_row s q) as [t|];
      [|eexists; split; [reflexivity|cbn; tauto]].
    destruct (negb _); eexists; (split; [reflexivity|cbn; tauto]).
  - rewrite completeService_reliable.
    destruct (negb _); [eexists; split; [reflexivity|cbn; tauto]|].
    destruct (counter_row s c) as [ctr|];
      [|eexists; split; [reflexivity|cbn; tauto]].
    destruct (entry_row s q) as [t|];
      [|eexists; split; [reflexivity|cbn; tauto]].
    destruct (negb _); eexists; (split; [reflexivity|cbn; tauto]).
  - rewrite cancelQueue_reliable.
    destruct (filter _ (queue_entries s)) as [|t rest] eqn:Hf;
      [eexists; split; [reflexivity|cbn; tauto]|].
    destruct (_ || _); [eexists; split; [reflexivity|cbn; tauto]|].
    cbv zeta.
    assert (Hin : In t (filter (fun x => qe_id x =? q) (queue_entries s))).
    { assert (H : In t (t :: rest)) by now left.
      rewrite <- Hf in H. apply filter_In in H as [H1 H2].
      apply andb_true_iff in H2 as [H2 _]. apply filter_In. now split. }
    destruct (filter (fun x => qe_id x =? q) (queue_entries s)) as [|r rs];
      [contradiction|].
    cbn [map]. eexists. split; [reflexivity|]. cbn. tauto.
Qed.

(* ===================================================================== *)
(** * Further properties: who is refused, and with which reply *)
(* ===================================================================== *)

Lemma next_waiting_none sid s :
  hd_error (Sql.order_by Counter.position_then_requested
              (Spec.waiting_of sid s)) = None
  <-> Spec.waiting_of sid s = [].
Proof.
  split.
  - intros H. destruct (Spec.waiting_of sid s) as [|a l] eqn:E; [reflexivity|].
    destruct (order_by_nonempty Counter.position_then_requested (a :: l))
      as [m Hm]; [discriminate|]. congruence.
  - intros ->. reflexivity.
Qed.

Lemma counter_status_eqb_eq a b : counter_status_eqb a b = true <-> a = b.
Proof. destruct a, b; simpl; split; congruence. Qed.

(** X6.  The guards of a call, in the order the handler applies them,
    over a store that answers.  A user who is neither counter staff nor
    admin gets 403; for an unknown counter (or one whose service is gone)
    the reply is 404 "Counter not found"; for a closed counter it is 400
    "Counter is closed", whether or not anyone waits; for a counter that is
    not closed and whose service has no waiting ticket it is 404 "No
    waiting queues available"; in every other case the call succeeds.  A
    refusal leaves the world as it was. *)
Theorem callNext_guard_order :
  forall (user : req_user) (c : Z) (s : db) (e : environment),
    let r := counterController.callNext user c (reliable s e) in
    let refused status msg :=
      r = (Val (json_error status (error_message msg)), reliable s e) in
    (is_staff (user_role user) = false ->
     refused 403 "Access denied. Counter staff only.") /\
    (is_staff (user_role user) = true -> counter_row s c = None ->
     refused 404 "Counter not found") /\
    (forall ctr,
        is_staff (user_role user) = true -> counter_row s c = Some ctr ->
        (ctr_status ctr = closed -> refused 400 "Counter is closed") /\
        (ctr_status ctr <> closed ->
         Spec.waiting_of (ctr_service_id ctr) s = [] ->
         refused 404 "No waiting queues available") /\
        (ctr_status ctr <> closed ->
         Spec.waiting_of (ctr_service_id ctr) s <> [] ->
         is_success (fst r) = true)).
Proof.
  intros user c s e r refused. subst r refused. cbv beta.
  rewrite callNext_reliable.
  split; [intros ->; reflexivity|].
  split; [intros -> ->; reflexivity|].
  intros ctr -> ->. cbn [negb].
  split; [intros ->; reflexivity|].
  split.
  - intros Hopen Hnone.
    destruct (counter_status_eqb (ctr_status ctr) closed) eqn:E;
      [apply counter_status_eqb_eq in E; contradiction|].
    apply next_waiting_none in Hnone. now rewrite Hnone.
  - intros Hopen Hsome.
    destruct (counter_status_eqb (ctr_status ctr) closed) eqn:E;
      [apply counter_status_eqb_eq in E; contradiction|].
    destruct (hd_error _) as [m|] eqn:Hm; [reflexivity|].
    apply next_waiting_none in Hm. contradiction.
Qed.

Lemma callNext_guard_order_witness :
  let s := Sample.base [] [Sample.window 1 closed None] in
  counterController.callNext Sample.staff 1 (reliable s (Sample.clock 5000))
  = (Val (json_error 400 (error_message "Counter is closed")),
     reliable s (Sample.clock 5000)).
Proof.
  cbv zeta.
  exact (proj1 (proj2 (proj2 (callNext_guard_order Sample.staff 1
                         (Sample.base [] [Sample.window 1 closed None])
                         (Sample.clock 5000)))
                      (Sample.window 1 closed None) eq_refl eq_refl)
               eq_refl).
Defined.

Lemma option_Z_eqb_eq a b : option_Z_eqb a b = true <-> a = b.
Proof.
  destruct a, b; simpl; rewrite ?Z.eqb_eq; split; congruence.
Qed.

(** X7.  Starting and completing have the same guards, and none of them
    looks at the ticket's status.  Over a store that answers, for a staff
    user and a counter that exists: an entry that does not exist (or whose
    service or user is gone) gives 404 "Queue entry not found"; an entry
    whose [counter_id] is not this counter (never called, or called by
    another counter) gives 400 "Queue entry is not assigned to this
    counter" and nothing is written; an entry assigned to this counter is
    started, respectively completed, whatever its status. *)
Theorem start_and_complete_guards :
  forall (user : req_user) (c qid : Z) (s : db) (e : environment)
         (ctr : counter),
    is_staff (user_role user) = true ->
    counter_row s c = Some ctr ->
    let start := counterController.startServing user c qid (reliable s e) in
    let complete :=
      counterController.completeService user c qid (reliable s e) in
    let refused status msg :=
      (Val (json_error status (error_message msg)), reliable s e) in
    (entry_row s qid = None ->
     start = refused 404 "Queue entry not found" /\
     complete = refused 404 "Queue entry not found") /\
    (forall t,
        entry_row s qid = Some t ->
        (qe_counter_id t <> Some c ->
         start = refused 400 "Queue entry is not assigned to this counter" /\
         complete = refused 400 "Queue entry is not assigned to this counter")
        /\
        (qe_counter_id t = Some c ->
         (exists q, fst start = Val (json_success 200 q) /\
                    qe_id q = qid /\ qe_status q = serving) /\
         (exists q, fst complete = Val (json_success 200 q) /\
                    qe_id q = qid /\ qe_status q = completed))).
Proof.
  intros user c qid s e ctr Hstaff Hctr start complete refused.
  subst start complete refused. cbv beta.
  rewrite startServing_reliable, completeService_reliable.
  rewrite Hstaff, Hctr. cbn [negb].
  split; [intros ->; split; reflexivity|].
  intros t Ht. rewrite Ht. split.
  - intros Hne.
    destruct (option_Z_eqb (qe_counter_id t) (Some c)) eqn:E;
      [apply option_Z_eqb_eq in E; contradiction|].
    split; reflexivity.
  - intros Heq. apply option_Z_eqb_eq in Heq. rewrite Heq. cbn [negb fst].
    apply entry_row_In in Ht as (Hin & Hid & _).
    destruct (first_updated_row s qid (fun x => x) t Hin Hid)
      as (r & rest & Hf).
    assert (Hr : qe_id r = qid).
    { assert (H : In r (r :: rest)) by now left.
      rewrite <- Hf in H. apply filter_In in H as [_ H]. now apply Z.eqb_eq. }
    rewrite Hf. cbn [hd].
    split; eexists; (split; [reflexivity|]); split; auto.
Qed.

Lemma start_and_complete_guards_witness :
  let waiting_ticket := Sample.ticket 1 10 1 "REG-001" 1 waiting None 1000 in
  let s := Sample.base [waiting_ticket] [Sample.window 1 open None] in
  counterController.startServing Sample.staff 1 1
    (reliable s (Sample.clock 5000))
  = (Val (json_error 400
            (error_message "Queue entry is not assigned to this counter")),
     reliable s (Sample.clock 5000)).
Proof.
  cbv zeta.
  refine (proj1 (proj1 (proj2 (start_and_complete_guards Sample.staff 1 1
                   (Sample.base
                      [Sample.ticket 1 10 1 "REG-001" 1 waiting None 1000]
                      [Sample.window 1 open None])
                   (Sample.clock 5000) (Sample.window 1 open None)
                   eq_refl eq_refl)
                 (Sample.ticket 1 10 1 "REG-001" 1 waiting None 1000)
                 eq_refl) _)).
  discriminate.
Defined.

(** X8.  The guards of a request, in the order the handler applies them,
    over a store that answers.  A missing or zero service id is refused
    with 400 before any query is made, whatever the store would do.  In
    maintenance mode every request is refused with 503 and the configured
    message (or the default one when none is configured), whether or not
    the service exists.  Otherwise an unknown or inactive service gives
    404, a user who already holds a waiting, called or serving ticket of
    the service gives 400 with the id of such a ticket (of the only one,
    when the user holds one), and every other request is admitted.  A
    refusal leaves the world as it was. *)
Theorem requestQueue_guard_order :
  forall (user : req_user) (sid : Z) (s : db) (e : environment),
    let r := queueController.requestQueue user (Some sid) (reliable s e) in
    let systemSettings :=
      match system_settings s with
      | row :: _ => row
      | [] => queueController.default_settings
      end in
    let service := find (fun row => svc_id row =? sid) (services s) in
    (forall w,
        queueController.requestQueue user None w
        = (Val (json_error 400 (error_message "Service ID is required")), w) /\
        queueController.requestQueue user (Some 0) w
        = (Val (json_error 400 (error_message "Service ID is required")), w))
    /\
    (sid <> 0 -> system_maintenance_mode systemSettings = true ->
     r = (Val (json_error 503
                 {| message :=
                      if String.eqb (maintenance_message systemSettings) ""
                      then "System is currently under maintenance. Please try again later."
                      else maintenance_message systemSettings;
                    queueId := None;
                    maintenanceMode := true |}),
          reliable s e))
    /\
    (sid <> 0 -> system_maintenance_mode systemSettings = false ->
     (service = None \/
      (exists sv, service = Some sv /\ svc_is_active sv = false) ->
      r = (Val (json_error 404
                  (error_message "Service not found or inactive")),
           reliable s e)) /\
     (forall sv, service = Some sv -> svc_is_active sv = true ->
        (Spec.active_tickets (userId user) sid s <> [] ->
         exists q,
           In q (Spec.active_tickets (userId user) sid s) /\
           r = (Val (json_error 400
                       {| message :=
                            "You already have an active queue for this service";
                          queueId := Some (qe_id q);
                          maintenanceMode := false |}),
                reliable s e)) /\
        (Spec.active_tickets (userId user) sid s = [] ->
         is_success (fst r) = true))).
Proof.
  intros user sid s e r systemSettings service.
  subst r systemSettings service. cbv beta.
  split; [intros w; split; reflexivity|].
  split.
  - intros Hnz Hm.
    rewrite (requestQueue_from_settings s e user sid _ _ Hnz
               (getSystemSettings_reliable s e)).
    now rewrite Hm.
  - intros Hnz Hm.
    rewrite (requestQueue_from_settings s e user sid _ _ Hnz
               (getSystemSettings_reliable s e)).
    rewrite Hm. split.
    + intros [-> | (sv & -> & ->)]; reflexivity.
    + intros sv -> ->. cbn [negb]. split.
      * intros Hsome.
        destruct (Spec.active_tickets (userId user) sid s) as [|q others];
          [congruence|].
        exists q. split; [now left | reflexivity].
      * intros ->. reflexivity.
Qed.

Lemma requestQueue_guard_order_witness :
  let closed_for_new :=
    {| services := []; users := [10]; queue_entries := []; counters := [];
       queue_logs := [];
       system_settings :=
         [ {| system_maintenance_mode := true; maintenance_message := "" |} ];
       queue_entries_id_seq := 1 |} in
  let held := Sample.ticket 1 10 1 "REG-001" 1 called (Some 1) 1000 in
  queueController.requestQueue Sample.student10 (Some 7)
    (reliable closed_for_new (Sample.clock 5000))
  = (Val (json_error 503
            {| message :=
                 "System is currently under maintenance. Please try again later.";
               queueId := None;
               maintenanceMode := true |}),
     reliable closed_for_new (Sample.clock 5000)) /\
  fst (queueController.requestQueue Sample.student10 (Some 1)
         (reliable (Sample.base [held] []) (Sample.clock 5000)))
  = Val (json_error 400
           {| message := "You already have an active queue for this service";
              queueId := Some 1;
              maintenanceMode := false |}).
Proof.
  cbv zeta. split.
  - refine (proj1 (proj2 (requestQueue_guard_order Sample.student10 7
              {| services := []; users := [10]; queue_entries := [];
                 counters := []; queue_logs := [];
                 system_settings :=
                   [ {| system_maintenance_mode := true;
                        maintenance_message := "" |} ];
                 queue_entries_id_seq := 1 |}
              (Sample.clock 5000))) _ eq_refl).
    discriminate.
  - destruct (proj1 (proj2 (proj2 (proj2
                (requestQueue_guard_order Sample.student10 1
                   (Sample.base
                      [Sample.ticket 1 10 1 "REG-001" 1 called (Some 1) 1000]
                      [])
                   (Sample.clock 5000)))
                ltac:(discriminate) eq_refl)
                Sample.registrar eq_refl eq_refl)
                ltac:(discriminate))
      as (q & Hq & Hr).
    destruct Hq as [<-|[]]. rewrite Hr. reflexivity.
Defined.

(** X9.  Maintenance mode fails open.  When the query that reads the
    settings fails, [getSystemSettings] answers with its defaults, so the
    request is never refused with 503; and when that query is the only
    one that fails, a request for an active service by a user without an
    active ticket there is admitted although the stored settings have
    maintenance mode on. *)
Theorem maintenance_ignored_when_settings_unreadable :
  forall (user : req_user) (serviceId : option Z) (s : db) (e : environment)
         (msg : string),
    (forall rest,
        exists resp,
          fst (queueController.requestQueue user serviceId
                 {| store := s; env := e; plan := Some msg :: rest |})
          = Val resp /\
          status_code resp <> 503) /\
    (forall sid sv,
        serviceId = Some sid -> sid <> 0 ->
        find (fun row => svc_id row =? sid) (services s) = Some sv ->
        svc_is_active sv = true ->
        Spec.active_tickets (userId user) sid s = [] ->
        exists q,
          fst (queueController.requestQueue user serviceId
                 {| store := s; env := e; plan := [Some msg] |})
          = Val (json_success 201 q) /\
          qe_queue_number q = next_number s e sid sv).
Proof.
  intros user serviceId s e msg. split.
  - intros rest.
    destruct serviceId as [sid|]; [|eexists; split; [reflexivity|cbn; lia]].
    destruct (Z.eq_dec sid 0) as [->|Hnz];
      [eexists; split; [reflexivity|cbn; lia]|].
    unfold queueController.requestQueue, try_catch.
    assert (Hbody : forall X (a b : X),
               match sid with 0 => a | _ => b end = b).
    { intros. destruct sid; congruence. }
    rewrite Hbody.
    set (w1 := {| store := s; env := e; plan := rest |}).
    assert (Hs : queueController.getSystemSettings
                   {| store := s; env := e; plan := Some msg :: rest |}
                 = (Val queueController.default_settings, w1)) by reflexivity.
    rewrite (bind_val _ _ _ _ _ Hs).
    cbn [system_maintenance_mode queueController.default_settings].
    match goal with
    | |- context [match ?m w1 with _ => _ end] =>
        destruct (m w1) as [[resp|m1] w2] eqn:Hrest
    end; [|eexists; split; [reflexivity|cbn; lia]].
    exists resp. split; [reflexivity|].
    intros H503.
    apply bind_val_inv in Hrest as (service & w3 & _ & Hrest).
    destruct service as [sv|];
      [|unfold fail, ret in Hrest; inversion Hrest; subst; discriminate].
    destruct (negb (svc_is_active sv));
      [unfold fail, ret in Hrest; inversion Hrest; subst; discriminate|].
    apply bind_val_inv in Hrest as (existing & w4 & _ & Hrest).
    destruct existing as [q|];
      [unfold ret in Hrest; inversion Hrest; subst; discriminate|].
    apply bind_val_inv in Hrest as (queueEntry & w5 & _ & Hrest).
    apply bind_val_inv in Hrest as (x & w6 & _ & Hrest).
    unfold ret in Hrest. inversion Hrest; subst. discriminate.
  - intros sid sv -> Hnz Hsv Hactive Hnone.
    rewrite (requestQueue_from_settings s e user sid _ _ Hnz
               (getSystemSettings_failure s e msg)).
    cbn [system_maintenance_mode queueController.default_settings].
    rewrite Hsv, Hactive, Hnone. cbn [negb fst].
    eexists. split; reflexivity.
Qed.

Lemma maintenance_ignored_when_settings_unreadable_witness :
  let s :=
    {| services := [Sample.registrar]; users := [10]; queue_entries := [];
       counters := []; queue_logs := [];
       system_settings :=
         [ {| system_maintenance_mode := true; maintenance_message := "" |} ];
       queue_entries_id_seq := 1 |} in
  exists q,
    fst (queueController.requestQueue Sample.student10 (Some 1)
           {| store := s; env := Sample.clock 5000;
              plan := [Some "relation system_settings does not exist"] |})
    = Val (json_success 201 q) /\
    qe_queue_number q = next_number s (Sample.clock 5000) 1 Sample.registrar.
Proof.
  cbv zeta.
  refine (proj2 (maintenance_ignored_when_settings_unreadable
                   Sample.student10 (Some 1)
                   {| services := [Sample.registrar]; users := [10];
                      queue_entries := []; counters := []; queue_logs := [];
                      system_settings :=
                        [ {| system_maintenance_mode := true;
                             maintenance_message := "" |} ];
                      queue_entries_id_seq := 1 |}
                   (Sample.clock 5000)
                   "relation system_settings does not exist")
                1 Sample.registrar eq_refl _ eq_refl eq_refl eq_refl).
  discriminate.
Defined.

(* ===================================================================== *)
(** * Further properties: a success does not depend on the failures *)
(* ===================================================================== *)

Lemma emitted_entry_readonly q (k : queue_entry -> M unit) :
  (forall x, preserves eq (k x)) ->
  preserves eq (QueueEvents.with_entry q k).
Proof. intros H. apply preserves_with_entry; [reflexivity | exact H]. Qed.

(** A successful [callNext] is the one the same store gives when every
    query goes through. *)
Lemma callNext_success_reliable user c w st q w' :
  counterController.callNext user c w = (Val (json_success st q), w') ->
  counterController.callNext user c (reliable (store w) (env w))
  = (Val (json_success st q), reliable (store w') (env w)) /\
  env w' = env w.
Proof.
  unfold counterController.callNext at 1. intros H.
  apply try_catch_val_inv in H as [H|(msg & w1 & _ & H)];
    [|now apply fail_not_success in H].
  destruct (is_staff (user_role user)) eqn:Hstaff; simpl in H;
    [|now apply fail_not_success in H].
  apply bind_val_inv in H as (counter & w1 & H1 & H).
  apply select_inv in H1 as (S1 & E1 & V1). specialize (V1 _ eq_refl).
  fold (counter_row (store w) c) in V1.
  destruct counter as [ctr|]; [|now apply fail_not_success in H].
  destruct (counter_status_eqb (ctr_status ctr) closed) eqn:Hclosed;
    [now apply fail_not_success in H|].
  apply bind_val_inv in H as (nextQueue & w2 & H2 & H).
  apply select_inv in H2 as (S2 & E2 & V2). specialize (V2 _ eq_refl).
  destruct nextQueue as [m|]; [|now apply fail_not_success in H].
  apply bind_val_inv in H as (queueResult & w3 & H3 & H).
  apply query_val_inv in H3 as (V3 & S3 & E3).
  apply bind_val_inv in H as (updatedQueue & w4 & H4 & H).
  destruct queueResult as [|r' rest]; [discriminate|].
  simpl in H4. unfold ret in H4. inversion H4; subst updatedQueue w4. clear H4.
  apply bind_val_inv in H as (x5 & w5 & H5 & H).
  apply query_val_inv in H5 as (_ & S5 & E5).
  apply bind_val_inv in H as (x6 & w6 & H6 & H).
  change (Counter.updateStatus c "busy")
    with (query (fun (_ : environment) s =>
            let '(rows, changed) :=
              Sql.update_where (fun c0 => ctr_id c0 =? c)
                               (Counter.with_status busy) (counters s) in
            (Sql.first_row changed, set_counters s rows))) in H6.
  apply query_val_inv in H6 as (_ & S6 & E6).
  apply bind_val_inv in H as (x7 & w7 & H7 & H).
  apply query_val_inv in H7 as (_ & S7 & E7).
  apply bind_val_inv in H as (x8 & w8 & H8 & H).
  apply swallow_inv in H8 as (_ & S8 & E8); [|apply refresh_readonly].
  unfold ret in H. inversion H; subst q w' st. clear H.
  split; [|congruence].
  rewrite callNext_reliable, Hstaff, <- V1, Hclosed. cbn [negb].
  rewrite ?S1, ?E1 in V2. unfold Sql.first_row in V2.
  fold (Spec.waiting_of (ctr_service_id ctr) (store w)) in V2.
  rewrite <- V2.
  rewrite ?S2, ?S1, ?E2, ?E1 in V3. unfold Sql.update_where in V3. cbn [fst] in V3.
  destruct (filter (fun x => qe_id x =? qe_id m) (queue_entries (store w)))
    as [|r rest0] eqn:Hr; [discriminate|].
  cbn [map] in V3. inversion V3; subst r' rest. clear V3. cbn [hd].
  assert (Hid : qe_id r = qe_id m).
  { assert (Hin : In r (r :: rest0)) by now left.
    rewrite <- Hr in Hin. apply filter_In in Hin as [_ Hin].
    now apply Z.eqb_eq. }
  f_equal. unfold reliable. f_equal.
  rewrite S8, S7, S6, S5, S3, ?S2, ?S1, ?E3, ?E2, ?E1.
  unfold Sql.update_where, claimed,
    set_queue_logs, set_counters, set_queue_entries. cbn.
  rewrite Hid. f_equal.
  rewrite map_map. apply map_ext. intros x.
  destruct (ctr_id x =? c) eqn:E; cbn; now rewrite E.
Qed.

Lemma startServing_success_reliable user c qid w st q w' :
  counterController.startServing user c qid w = (Val (json_success st q), w') ->
  counterController.startServing user c qid (reliable (store w) (env w))
  = (Val (json_success st q), reliable (store w') (env w)) /\
  env w' = env w.
Proof.
  unfold counterController.startServing at 1. intros H.
  apply try_catch_val_inv in H as [H|(msg & w1 & _ & H)];
    [|now apply fail_not_success in H].
  destruct (is_staff (user_role user)) eqn:Hstaff; simpl in H;
    [|now apply fail_not_success in H].
  apply bind_val_inv in H as (counter & w1 & H1 & H).
  apply select_inv in H1 as (S1 & E1 & V1). specialize (V1 _ eq_refl).
  fold (counter_row (store w) c) in V1.
  destruct counter as [ctr|]; [|now apply fail_not_success in H].
  apply bind_val_inv in H as (queueEntry & w2 & H2 & H).
  apply select_inv in H2 as (S2 & E2 & V2). specialize (V2 _ eq_refl).
  rewrite S1 in V2. fold (entry_row (store w) qid) in V2.
  destruct queueEntry as [t|]; [|now apply fail_not_success in H].
  destruct (option_Z_eqb (qe_counter_id t) (Some c)) eqn:Hc; cbn [negb] in H;
    [|now apply fail_not_success in H].
  apply bind_val_inv in H as (result & w3 & H3 & H).
  apply query_val_inv in H3 as (V3 & S3 & E3).
  apply bind_val_inv in H as ([] & w4 & H4 & H).
  apply query_val_inv in H4 as (_ & S4 & E4).
  apply bind_val_inv in H as ([] & w5 & H5 & H).
  apply swallow_inv in H5 as (_ & S5 & E5).
  2:{ apply emitted_entry_readonly. intros x. now apply preserves_ret. }
  apply bind_val_inv in H as (updatedQueue & w6 & H6 & H).
  destruct result as [|r rest]; [discriminate|].
  simpl in H6. unfold ret in H6. inversion H6; subst updatedQueue w6. clear H6.
  unfold ret in H. inversion H; subst q w' st. clear H.
  split; [|congruence].
  rewrite startServing_reliable, Hstaff, <- V1, <- V2, Hc. cbn [negb].
  rewrite ?S2, ?S1, ?E2, ?E1 in V3. unfold Sql.update_where in V3. cbn [fst] in V3.
  destruct (filter (fun x => qe_id x =? qid) (queue_entries (store w)))
    as [|r0 rest0] eqn:Hr; [discriminate|].
  cbn [map] in V3. inversion V3; subst r rest. clear V3. cbn [hd].
  f_equal. unfold reliable. f_equal.
  rewrite S5, S4, S3, ?S2, ?S1, ?E3, ?E2, ?E1.
  unfold Sql.update_where. reflexivity.
Qed.

Lemma completeService_success_reliable user c qid w st q w' :
  counterController.completeService user c qid w
  = (Val (json_success st q), w') ->
  counterController.completeService user c qid (reliable (store w) (env w))
  = (Val (json_success st q), reliable (store w') (env w)) /\
  env w' = env w.
Proof.
  unfold counterController.completeService at 1. intros H.
  apply try_catch_val_inv in H as [H|(msg & w1 & _ & H)];
    [|now apply fail_not_success in H].
  destruct (is_staff (user_role user)) eqn:Hstaff; simpl in H;
    [|now apply fail_not_success in H].
  apply bind_val_inv in H as (counter & w1 & H1 & H).
  apply select_inv in H1 as (S1 & E1 & V1). specialize (V1 _ eq_refl).
  fold (counter_row (store w) c) in V1.
  destruct counter as [ctr|]; [|now apply fail_not_success in H].
  apply bind_val_inv in H as (queueEntry & w2 & H2 & H).
  apply select_inv in H2 as (S2 & E2 & V2). specialize (V2 _ eq_refl).
  rewrite S1 in V2. fold (entry_row (store w) qid) in V2.
  destruct queueEntry as [t|]; [|now apply fail_not_success in H].
  destruct (option_Z_eqb (qe_counter_id t) (Some c)) eqn:Hc; cbn [negb] in H;
    [|now apply fail_not_success in H].
  apply bind_val_inv in H as (result & w3 & H3 & H).
  apply query_val_inv in H3 as (V3 & S3 & E3).
  apply bind_val_inv in H as (x4 & w4 & H4 & H).
  apply query_val_inv in H4 as (_ & S4 & E4).
  apply bind_val_inv in H as (x5 & w5 & H5 & H).
  change (Counter.updateStatus c "open")
    with (query (fun (_ : environment) s =>
            let '(rows, changed) :=
              Sql.update_where (fun c0 => ctr_id c0 =? c)
                               (Counter.with_status open) (counters s) in
            (Sql.first_row changed, set_counters s rows))) in H5.
  apply query_val_inv in H5 as (_ & S5 & E5).
  apply bind_val_inv in H as ([] & w6 & H6 & H).
  apply query_val_inv in H6 as (_ & S6 & E6).
  apply bind_val_inv in H as ([] & w7 & H7 & H).
  apply swallow_inv in H7 as (_ & S7 & E7).
  2:{ apply emitted_entry_readonly. intros x. apply refresh_readonly. }
  apply bind_val_inv in H as (updatedQueue & w8 & H8 & H).
  destruct result as [|r rest]; [discriminate|].
  simpl in H8. unfold ret in H8. inversion H8; subst updatedQueue w8. clear H8.
  unfold ret in H. inversion H; subst q w' st. clear H.
  split; [|congruence].
  rewrite completeService_reliable, Hstaff, <- V1, <- V2, Hc. cbn [negb].
  rewrite ?S2, ?S1, ?E2, ?E1 in V3. unfold Sql.update_where in V3. cbn [fst] in V3.
  destruct (filter (fun x => qe_id x =? qid) (queue_entries (store w)))
    as [|r0 rest0] eqn:Hr; [discriminate|].
  cbn [map] in V3. inversion V3; subst r rest. clear V3. cbn [hd].
  f_equal. unfold reliable. f_equal.
  rewrite S7, S6, S5, S4, S3, ?S2, ?S1, ?E3, ?E2, ?E1.
  unfold Sql.update_where,
    set_queue_logs, set_counters, set_queue_entries. cbn. f_equal.
  rewrite map_map. apply map_ext. intros x.
  destruct (ctr_id x =? c) eqn:E; cbn; now rewrite E.
Qed.

Lemma cancelQueue_success_reliable user qid w st q w' :
  queueController.cancelQueue user qid w = (Val (json_success st q), w') ->
  queueController.cancelQueue user qid (reliable (store w) (env w))
  = (Val (json_success st q), reliable (store w') (env w)) /\
  env w' = env w.
Proof.
  unfold queueController.cancelQueue at 1. intros H.
  apply try_catch_val_inv in H as [H|(msg & w1 & _ & H)];
    [|now apply fail_is_error in H].
  apply bind_val_inv in H as (cq & w1 & Hc & H).
  apply bind_val_inv in H as ([] & w2 & He & H).
  apply swallow_inv in He as (_ & S2 & E2).
  2:{ apply emitted_entry_readonly. intros x. apply refresh_readonly. }
  unfold Queue.cancel in Hc.
  apply bind_val_inv in Hc as (queueResult & w0 & H0 & Hc).
  apply select_inv in H0 as (S0 & E0 & V0). specialize (V0 _ eq_refl).
  destruct queueResult as [|t rest]; [discriminate|].
  destruct (queue_status_eqb (qe_status t) completed ||
            queue_status_eqb (qe_status t) cancelled) eqn:Hterm;
    [discriminate|].
  apply bind_val_inv in Hc as (result & w3 & H3 & Hc).
  apply query_val_inv in H3 as (V3 & S3 & E3).
  apply bind_val_inv in Hc as ([] & w4 & H4 & Hc).
  apply query_val_inv in H4 as (_ & S4 & E4).
  unfold ret in Hc. inversion Hc; subst cq w4. clear Hc.
  destruct (Sql.first_row result) as [row|] eqn:Hrow; [|discriminate].
  unfold ret in H. inversion H; subst q w' st. clear H.
  split; [|congruence].
  rewrite cancelQueue_reliable, <- V0, Hterm. cbv zeta.
  rewrite S0, E0 in V3. unfold Sql.update_where in V3. cbn [fst] in V3.
  rewrite <- V3.
  destruct result as [|r rs]; [discriminate|].
  cbn in Hrow. inversion Hrow; subst r.
  f_equal. unfold reliable. f_equal.
  rewrite S2, S4, S3, S0, E0. unfold Sql.update_where. reflexivity.
Qed.

(** X10.  A call, a start, a completion or a cancellation that answers
    with success has done exactly what it does over a store that answers
    every query: the same reply and the same resulting store.  (Between
    its first write and its reply the only queries it can survive are
    those of the broadcast, which change nothing.)  Requests are left
    out: their settings query may fail and be replaced by defaults. *)
Theorem success_does_not_depend_on_failures :
  forall (o : operation) (w w' : world) (st : Z) (q : queue_entry),
    is_request o = false ->
    handle o w = (Val (json_success st q), w') ->
    handle o (reliable (store w) (env w))
    = (Val (json_success st q), reliable (store w') (env w)).
Proof.
  intros o w w' st q Ho H. destruct o; [discriminate| ..]; cbn [handle] in *.
  - now apply callNext_success_reliable in H.
  - now apply startServing_success_reliable in H.
  - now apply completeService_success_reliable in H.
  - now apply cancelQueue_success_reliable in H.
Qed.

Lemma success_does_not_depend_on_failures_witness :
  let t := Sample.ticket 1 10 1 "REG-001" 1 waiting None 1000 in
  let s := Sample.base [t] [Sample.window 1 open None] in
  let w := {| store := s; env := Sample.clock 5000;
              plan := [None; None; None; None; None; None;
                       Some "connection lost"] |} in
  handle (op_call Sample.staff 1) (reliable s (Sample.clock 5000))
  = (Val (json_success 200 (counterController.set_called 1 5000 t)),
     reliable (store (snd (handle (op_call Sample.staff 1) w)))
              (Sample.clock 5000)).
Proof.
  cbv zeta.
  apply (success_does_not_depend_on_failures
           (op_call Sample.staff 1)
           {| store := Sample.base
                         [Sample.ticket 1 10 1 "REG-001" 1 waiting None 1000]
                         [Sample.window 1 open None];
              env := Sample.clock 5000;
              plan := [None; None; None; None; None; None;
                       Some "connection lost"] |}
           (snd (handle (op_call Sample.staff 1)
                   {| store := Sample.base
                         [Sample.ticket 1 10 1 "REG-001" 1 waiting None 1000]
                         [Sample.window 1 open None];
                      env := Sample.clock 5000;
                      plan := [None; None; None; None; None; None;
                               Some "connection lost"] |}))
           200
           (counterController.set_called 1 5000
              (Sample.ticket 1 10 1 "REG-001" 1 waiting None 1000)));
    reflexivity.
Defined.

(* ===================================================================== *)
(** * Further properties: from the call to the completion *)
(* ===================================================================== *)

Section RowsAfterUpdates.

Lemma first_row_map {A B} (f : A -> B) l :
  Sql.first_row (map f l) = option_map f (Sql.first_row l).
Proof. now destruct l. Qed.

Lemma filter_map_same {A} (p : A -> bool) (f : A -> A) l :
  (forall x, p (f x) = p x) -> filter p (map f l) = map f (filter p l).
Proof.
  intros H. induction l as [|a l IH]; [reflexivity|].
  cbn. rewrite H. destruct (p a); cbn; now rewrite IH.
Qed.

Lemma counter_row_updated s s' (f : counter -> counter) c :
  services s' = services s ->
  counters s' = map f (counters s) ->
  (forall x, ctr_id (f x) = ctr_id x) ->
  (forall x, ctr_service_id (f x) = ctr_service_id x) ->
  counter_row s' c = option_map f (counter_row s c).
Proof.
  intros Hs Hc Hid Hsvc. unfold counter_row.
  rewrite Hs, Hc, filter_map_same, first_row_map; [reflexivity|].
  intros x. now rewrite Hid, Hsvc.
Qed.

Lemma counter_row_same s s' c :
  services s' = services s -> counters s' = counters s ->
  counter_row s' c = counter_row s c.
Proof. intros Hs Hc. unfold counter_row. now rewrite Hs, Hc. Qed.

Lemma entry_row_updated s s' (g : queue_entry -> queue_entry) qid :
  services s' = services s -> users s' = users s ->
  queue_entries s' = map g (queue_entries s) ->
  (forall x, written_once (g x) = written_once x) ->
  entry_row s' qid = option_map g (entry_row s qid).
Proof.
  intros Hs Hu Hq Hg. unfold entry_row.
  rewrite Hs, Hu, Hq, filter_map_same, first_row_map; [reflexivity|].
  intros x. pose proof (Hg x) as E. unfold written_once in E.
  inversion E as [[E1 E2 E3 E4 E5 E6 E7]]. now rewrite E1, E2, E3.
Qed.

Lemma hd_filter_id (rows : list queue_entry) qid d :
  qe_id d = qid -> qe_id (hd d (filter (fun x => qe_id x =? qid) rows)) = qid.
Proof.
  intros Hd. destruct (filter _ rows) as [|r rest] eqn:E; [exact Hd|].
  assert (H : In r (r :: rest)) by now left.
  rewrite <- E in H. apply filter_In in H as [_ H]. now apply Z.eqb_eq.
Qed.

Lemma first_row_of_In {A} (l : list A) x :
  In x l -> exists y, Sql.first_row l = Some y.
Proof. destruct l as [|y l]; [contradiction | now exists y]. Qed.

Lemma existsb_user (us : list Z) u : In u us -> existsb (fun x => x =? u) us = true.
Proof.
  intros H. apply existsb_exists. exists u. split; [exact H | apply Z.eqb_refl].
Qed.

End RowsAfterUpdates.

(** The reply and the store of a successful [callNext], read off its
    run over a store that answers. *)
Lemma callNext_reliable_success s e user c st q w' :
  counterController.callNext user c (reliable s e)
  = (Val (json_success st q), w') ->
  exists ctr m,
    is_staff (user_role user) = true /\
    counter_row s c = Some ctr /\ ctr_status ctr <> closed /\
    hd_error (Sql.order_by Counter.position_then_requested
                (Spec.waiting_of (ctr_service_id ctr) s)) = Some m /\
    st = 200 /\
    q = counterController.set_called c (now e)
          (hd m (filter (fun x => qe_id x =? qe_id m) (queue_entries s))) /\
    w' = reliable
           (set_queue_logs
              (set_counters
                 (set_queue_entries s
                    (claimed c (now e) m (queue_entries s))
                    (queue_entries_id_seq s))
                 (map (fun x =>
                         if ctr_id x =? c
                         then Counter.with_status busy
                                (Counter.with_current_serving
                                   (Some (qe_id m)) x)
                         else x)
                      (counters s)))
              (queue_logs s ++
               [ {| log_queue_entry_id := qe_id m;
                    log_service_id := ctr_service_id ctr;
                    log_counter_id := Some c;
                    log_action := "called";
                    log_metadata := None |} ])%list) e.
Proof.
  rewrite callNext_reliable.
  destruct (is_staff (user_role user)); cbn [negb]; [|discriminate].
  destruct (counter_row s c) as [ctr|]; [|discriminate].
  destruct (counter_status_eqb (ctr_status ctr) closed) eqn:Hc; [discriminate|].
  destruct (hd_error _) as [m|] eqn:Hm; [|discriminate].
  intros H. inversion H; subst. exists ctr, m.
  repeat split; auto.
  intros E. rewrite E in Hc. discriminate.
Qed.

(* ===================================================================== *)
(** * Calling repeatedly *)
(* ===================================================================== *)

Section CallingRepeatedly.
Variables (user : req_user) (sid : Z) (e : environment).
Hypothesis Hstaff : is_staff (user_role user) = true.

(** A call by an open counter of the service claims the first waiting
    ticket. *)
Lemma callNext_claims c s ctr m :
  NoDup (map qe_id (queue_entries s)) ->
  counter_row s c = Some ctr -> ctr_service_id ctr = sid ->
  ctr_status ctr <> closed ->
  hd_error (Sql.order_by Counter.position_then_requested
              (Spec.waiting_of sid s)) = Some m ->
  exists s1,
    counterController.callNext user c (reliable s e)
    = (Val (json_success 200 (counterController.set_called c (now e) m)),
       reliable s1 e) /\
    queue_entries s1 = claimed c (now e) m (queue_entries s) /\
    services s1 = services s /\
    counters s1
    = map (fun x => if ctr_id x =? c
                    then Counter.with_status busy
                           (Counter.with_current_serving (Some (qe_id m)) x)
                    else x)
          (counters s).
Proof.
  intros Hnd Hrow Hsid Hopen Hm.
  rewrite callNext_reliable, Hstaff, Hrow. cbn [negb].
  destruct (counter_status_eqb (ctr_status ctr) closed) eqn:Hc.
  { apply counter_status_eqb_eq in Hc. contradiction. }
  rewrite Hsid, Hm.
  assert (Hin : In m (queue_entries s)).
  { apply next_waiting_minimal in Hm as [Hin _].
    now apply waiting_of_In in Hin. }
  rewrite (filter_id_unique _ _ Hnd Hin). cbn [hd].
  eexists. split; [reflexivity|]. repeat split.
Qed.

(** With no ticket waiting, the call is refused and nothing changes. *)
Lemma callNext_none_waiting c s ctr :
  counter_row s c = Some ctr -> ctr_service_id ctr = sid ->
  ctr_status ctr <> closed ->
  Spec.waiting_of sid s = [] ->
  counterController.callNext user c (reliable s e)
  = (Val (json_error 404 (error_message "No waiting queues available")),
     reliable s e).
Proof.
  intros Hrow Hsid Hopen Hnone.
  rewrite callNext_reliable, Hstaff, Hrow. cbn [negb].
  destruct (counter_status_eqb (ctr_status ctr) closed) eqn:Hc.
  { apply counter_status_eqb_eq in Hc. contradiction. }
  now rewrite Hsid, Hnone.
Qed.

(** The waiting tickets after a claim: those of before, but the claimed
    one. *)
Lemma waiting_after_claim c t m rows r :
  In r (filter (fun q => (qe_service_id q =? sid) &&
                         queue_status_eqb (qe_status q) waiting)
               (claimed c t m rows)) <->
  In r (filter (fun q => (qe_service_id q =? sid) &&
                         queue_status_eqb (qe_status q) waiting) rows) /\
  qe_id r <> qe_id m.
Proof.
  rewrite !filter_In. unfold claimed. rewrite in_map_iff. split.
  - intros [(x & Hx & Hin) Hp].
    destruct (Z.eqb_spec (qe_id x) (qe_id m)) as [E|E]; subst r.
    + cbn in Hp. now rewrite andb_false_r in Hp.
    + auto.
  - intros [[Hin Hp] Hne]. split; [|exact Hp].
    exists r. split; [|exact Hin].
    destruct (Z.eqb_spec (qe_id r) (qe_id m)); [contradiction | reflexivity].
Qed.

Lemma claimed_elsewhere c t m rows :
  ~ In (qe_id m) (map qe_id rows) -> claimed c t m rows = rows.
Proof.
  intros H. unfold claimed. induction rows as [|a rows IH]; [reflexivity|].
  cbn in *. destruct (Z.eqb_spec (qe_id a) (qe_id m)) as [E|_].
  - exfalso. apply H. now left.
  - f_equal. apply IH. intros Hin. apply H. now right.
Qed.

(** A claim takes exactly one ticket off the waiting list. *)
Lemma waiting_after_claim_length c t m rows :
  NoDup (map qe_id rows) -> In m rows ->
  qe_service_id m = sid -> qe_status m = waiting ->
  List.length (filter (fun q => (qe_service_id q =? sid) &&
                                queue_status_eqb (qe_status q) waiting) rows)
  = S (List.length
         (filter (fun q => (qe_service_id q =? sid) &&
                           queue_status_eqb (qe_status q) waiting)
                 (claimed c t m rows))).
Proof.
  intros Hnd Hin Hs Hw.
  induction rows as [|a rows IH]; [contradiction|].
  inversion Hnd as [|? ? Hnot Hnd']; subst.
  destruct Hin as [->|Hin].
  - change (claimed c t m (m :: rows))
      with ((if qe_id m =? qe_id m
             then counterController.set_called c t m else m)
            :: claimed c t m rows).
    rewrite Z.eqb_refl, (claimed_elsewhere _ _ _ _ Hnot).
    cbn. rewrite Hw, Z.eqb_refl, andb_false_r. reflexivity.
  - change (claimed c t m (a :: rows))
      with ((if qe_id a =? qe_id m
             then counterController.set_called c t a else a)
            :: claimed c t m rows).
    destruct (Z.eqb_spec (qe_id a) (qe_id m)) as [E|_].
    + exfalso. apply Hnot. rewrite E. now apply in_map.
    + cbn [filter].
      destruct ((qe_service_id a =? qe_service_id m) &&
                queue_status_eqb (qe_status a) waiting);
        cbn [List.length]; now rewrite (IH Hnd' Hin).
Qed.

(** A claim leaves the tickets that are not waiting as they are. *)
Lemma claimed_keeps_others c t m rows x :
  NoDup (map qe_id rows) -> In m rows -> qe_status m = waiting ->
  In x rows -> qe_status x <> waiting -> In x (claimed c t m rows).
Proof.
  intros Hnd Hm Hw Hx Hxs. unfold claimed. apply in_map_iff.
  exists x. split; [|exact Hx].
  destruct (Z.eqb_spec (qe_id x) (qe_id m)) as [E|_]; [|reflexivity].
  exfalso. apply Hxs.
  assert (Hxm : In x (filter (fun y => qe_id y =? qe_id m) rows)).
  { apply filter_In. split; [exact Hx | now apply Z.eqb_eq]. }
  rewrite (filter_id_unique _ _ Hnd Hm) in Hxm.
  destruct Hxm as [<-|[]]. exact Hw.
Qed.

Lemma counters_serve_after_call s s1 cs c m :
  counters_serve s sid cs ->
  services s1 = services s ->
  counters s1
  = map (fun x => if ctr_id x =? c
                  then Counter.with_status busy
                         (Counter.with_current_serving (Some (qe_id m)) x)
                  else x)
        (counters s) ->
  counters_serve s1 sid cs.
Proof.
  intros Hserve Hsv Hctr c' Hc'.
  destruct (Hserve c' Hc') as (ctr & Hrow & Hsid & Hopen).
  rewrite (counter_row_updated s s1 _ c' Hsv Hctr), Hrow.
  - cbn [option_map]. eexists. split; [reflexivity|].
    destruct (ctr_id ctr =? c); cbn; [|now split].
    split; [exact Hsid | discriminate].
  - intros x. now destruct (ctr_id x =? c).
  - intros x. now destruct (ctr_id x =? c).
Qed.

Lemma call_repeatedly_claims cs :
  forall s,
    NoDup (map qe_id (queue_entries s)) ->
    counters_serve s sid cs ->
    let run := call_repeatedly user cs (reliable s e) in
    let s' := store (snd run) in
    List.length (fst run)
    = Nat.min (List.length cs) (List.length (Spec.waiting_of sid s)) /\
    NoDup (map qe_id (fst run)) /\
    (forall q, In q (fst run) ->
       In q (queue_entries s') /\
       exists q0 c, In q0 (Spec.waiting_of sid s) /\ In c cs /\
                    q = counterController.set_called c (now e) q0) /\
    (forall r, In r (Spec.waiting_of sid s') <->
               In r (Spec.waiting_of sid s) /\
               ~ In (qe_id r) (map qe_id (fst run))) /\
    (forall q r, In q (fst run) -> In r (Spec.waiting_of sid s') ->
                 Spec.key_le q r) /\
    (forall x, In x (queue_entries s) -> qe_status x <> waiting ->
               In x (queue_entries s')).
Proof.
  induction cs as [|c rest IH]; intros s Hnd Hserve; cbv zeta.
  - cbn [call_repeatedly fst snd store reliable List.length map In Nat.min].
    split; [reflexivity|]. split; [constructor|].
    split; [intros q []|]. split; [intros r; tauto|].
    split; [intros q r [] | auto].
  - destruct (Hserve c (or_introl eq_refl)) as (ctr & Hrow & Hsid & Hopen).
    destruct (hd_error (Sql.order_by Counter.position_then_requested
                          (Spec.waiting_of sid s))) as [m|] eqn:Hm.
    + destruct (callNext_claims c s ctr m Hnd Hrow Hsid Hopen Hm)
        as (s1 & Hcall & Hrows & Hsv & Hctrs).
      pose proof (next_waiting_minimal _ _ _ Hm) as [Hmw Hleast].
      pose proof (proj1 (waiting_of_In _ _ _) Hmw) as (Hmin & Hms & Hmst).
      assert (Hnd1 : NoDup (map qe_id (queue_entries s1))).
      { now rewrite Hrows, claimed_ids. }
      assert (Hserve1 : counters_serve s1 sid rest).
      { apply (counters_serve_after_call s s1 rest c m); auto.
        intros c' Hc'. apply Hserve. now right. }
      assert (Hw1 : forall r, In r (Spec.waiting_of sid s1) <->
                              In r (Spec.waiting_of sid s) /\
                              qe_id r <> qe_id m).
      { intros r. unfold Spec.waiting_of. rewrite Hrows.
        apply waiting_after_claim. }
      assert (Hlen : List.length (Spec.waiting_of sid s)
                     = S (List.length (Spec.waiting_of sid s1))).
      { unfold Spec.waiting_of. rewrite Hrows.
        now apply waiting_after_claim_length. }
      specialize (IH s1 Hnd1 Hserve1). cbv zeta in IH.
      cbn [call_repeatedly]. rewrite Hcall.
      destruct (call_repeatedly user rest (reliable s1 e)) as [qs w''] eqn:Hrun.
      cbn [fst snd] in IH |- *.
      destruct IH as (IH1 & IH2 & IH3 & IH4 & IH5 & IH6).
      split; [|split; [|split; [|split; [|split]]]].
      * cbn [List.length]. rewrite IH1, Hlen. reflexivity.
      * cbn [map]. constructor; [|exact IH2].
        cbn. intros Hin. apply in_map_iff in Hin as (q & Hq & Hin).
        destruct (IH3 q Hin) as (_ & q0 & c0 & Hq0 & _ & ->).
        apply Hw1 in Hq0 as [_ Hne]. apply Hne. exact Hq.
      * intros q [<-|Hq].
        -- split.
           ++ apply IH6; [|discriminate].
              rewrite Hrows. unfold claimed. apply in_map_iff.
              exists m. split; [now rewrite Z.eqb_refl | exact Hmin].
           ++ exists m, c. split; [exact Hmw|]. split; [now left | reflexivity].
        -- destruct (IH3 q Hq) as (Hin & q0 & c0 & Hq0 & Hc0 & ->).
           split; [exact Hin|]. exists q0, c0.
           split; [now apply Hw1 in Hq0|]. split; [now right | reflexivity].
      * intros r. rewrite IH4, Hw1. cbn [map In].
        change (qe_id (counterController.set_called c (now e) m))
          with (qe_id m).
        split.
        -- intros [[H1 H2] H3]. split; [exact H1|].
           intros [E|E]; [now apply H2 | now apply H3].
        -- intros [H1 H2]. repeat split; auto.
      * intros q r [<-|Hq] Hr.
        -- apply IH4 in Hr as [Hr _]. apply Hw1 in Hr as [Hr _].
           specialize (Hleast r Hr). unfold Spec.key_le in *. cbn. exact Hleast.
        -- now apply IH5.
      * intros x Hx Hxs. apply IH6; [|exact Hxs].
        rewrite Hrows. now apply claimed_keeps_others.
    + assert (Hnone : Spec.waiting_of sid s = []).
      { destruct (Spec.waiting_of sid s) as [|a l] eqn:E; [reflexivity|].
        destruct (order_by_nonempty Counter.position_then_requested (a :: l))
          as [m' Hm']; [discriminate | congruence]. }
      cbn [call_repeatedly].
      rewrite (callNext_none_waiting c s ctr Hrow Hsid Hopen Hnone).
      cbn [fst snd store reliable List.length map In]. rewrite Hnone.
      split; [now rewrite Nat.min_0_r|]. split; [constructor|].
      split; [intros q []|]. split; [intros r; tauto|].
      split; [intros q r [] | auto].
Qed.

End CallingRepeatedly.

(** C3 (next-waiting selection).  For a service with at least one waiting
    ticket the next-waiting query returns a waiting ticket of that service
    whose (queue_position, requested_at) is minimal among them.  When
    counters of the service call "next" one after the other, each call
    claiming the ticket it returns, the tickets come out in non-decreasing
    (queue_position, requested_at) order, whichever store queries fail.
    Over a store that answers, with ids a key and counters that exist and
    are not closed, every call returns a ticket as long as one is waiting
    (so n calls return min(n, number waiting) tickets); each returned
    ticket was waiting, is returned once, and is stored as called by the
    counter of its call; the tickets still waiting afterwards are those
    not returned, and none of them precedes a returned one. *)
Theorem next_waiting_minimal_and_calls_ordered :
  (forall (s : db) (e : environment) (sid : Z),
      Spec.waiting_of sid s <> [] ->
      exists m,
        Counter.getNextWaitingQueue sid (reliable s e)
        = (Val (Some m), reliable s e) /\
        In m (queue_entries s) /\ qe_service_id m = sid /\
        qe_status m = waiting /\
        forall q, In q (queue_entries s) -> qe_service_id q = sid ->
                  qe_status q = waiting -> Spec.key_le m q) /\
  (forall (user : req_user) (sid : Z) (counterIds : list Z) (w : world),
      NoDup (map qe_id (queue_entries (store w))) ->
      (forall c, In c (counters (store w)) -> In (ctr_id c) counterIds ->
                 ctr_service_id c = sid) ->
      StronglySorted Spec.key_le (fst (call_repeatedly user counterIds w))) /\
  (forall (user : req_user) (sid : Z) (counterIds : list Z) (s : db)
          (e : environment),
      is_staff (user_role user) = true ->
      NoDup (map qe_id (queue_entries s)) ->
      counters_serve s sid counterIds ->
      let run := call_repeatedly user counterIds (reliable s e) in
      let s' := store (snd run) in
      List.length (fst run)
      = Nat.min (List.length counterIds)
                (List.length (Spec.waiting_of sid s)) /\
      NoDup (map qe_id (fst run)) /\
      (forall q, In q (fst run) ->
         qe_status q = called /\ In q (queue_entries s') /\
         exists q0 c, In q0 (Spec.waiting_of sid s) /\ In c counterIds /\
                      q = counterController.set_called c (now e) q0) /\
      (forall r, In r (Spec.waiting_of sid s') <->
                 In r (Spec.waiting_of sid s) /\
                 ~ In (qe_id r) (map qe_id (fst run))) /\
      (forall q r, In q (fst run) -> In r (Spec.waiting_of sid s') ->
                   Spec.key_le q r)).
Proof.
  split; [|split].
  - intros s e sid Hne.
    destruct (order_by_nonempty Counter.position_then_requested _ Hne)
      as [m Hm].
    exists m. unfold Counter.getNextWaitingQueue.
    rewrite select_reliable. fold (Spec.waiting_of sid s).
    unfold Sql.first_row. rewrite Hm. split; [reflexivity|].
    apply next_waiting_minimal in Hm as [Hin Hleast].
    apply waiting_of_In in Hin as (H1 & H2 & H3).
    repeat split; auto.
    intros q Hq Hs Hw. apply Hleast. now apply waiting_of_In.
  - intros user sid cs w Hnd Hsvc.
    now apply (call_repeatedly_ordered user sid cs w).
  - intros user sid cs s e Hstaff Hnd Hserve run s'.
    destruct (call_repeatedly_claims user sid e Hstaff cs s Hnd Hserve)
      as (H1 & H2 & H3 & H4 & H5 & _).
    fold run s' in H1, H2, H3, H4, H5.
    split; [exact H1|]. split; [exact H2|].
    split; [|split; [exact H4 | exact H5]].
    intros q Hq. destruct (H3 q Hq) as (Hin & q0 & c & Hq0 & Hc & Hqe).
    split; [now rewrite Hqe|]. split; [exact Hin|]. now exists q0, c.
Qed.

Lemma next_waiting_minimal_and_calls_ordered_witness :
  let a := Sample.ticket 1 10 1 "REG-001" 2 waiting None 1000 in
  let b := Sample.ticket 2 11 1 "REG-002" 1 waiting None 2000 in
  let cnt := Sample.window 1 open None in
  let s := Sample.base [a; b] [cnt] in
  let e := Sample.clock 5000 in
  (exists m, Counter.getNextWaitingQueue 1 (reliable s e)
             = (Val (Some m), reliable s e) /\ qe_id m = 2) /\
  StronglySorted Spec.key_le
    (fst (call_repeatedly Sample.staff [1; 1; 1] (reliable s e))) /\
  List.length (fst (call_repeatedly Sample.staff [1; 1; 1] (reliable s e)))
  = 2%nat.
Proof.
  cbv zeta. split; [|split].
  - destruct (proj1 next_waiting_minimal_and_calls_ordered
                (Sample.base [Sample.ticket 1 10 1 "REG-001" 2 waiting None 1000;
                              Sample.ticket 2 11 1 "REG-002" 1 waiting None 2000]
                             [Sample.window 1 open None])
                (Sample.clock 5000) 1) as (m & Hm & _).
    + discriminate.
    + exists m. split; [exact Hm|].
      unfold Counter.getNextWaitingQueue in Hm. rewrite select_reliable in Hm.
      inversion Hm. reflexivity.
  - apply (proj1 (proj2 next_waiting_minimal_and_calls_ordered) Sample.staff 1).
    + simpl. repeat constructor; simpl; intuition discriminate.
    + simpl. intros c [<-|[]] _. reflexivity.
  - assert (Hnd : NoDup (map qe_id
                    [Sample.ticket 1 10 1 "REG-001" 2 waiting None 1000;
                     Sample.ticket 2 11 1 "REG-002" 1 waiting None 2000])).
    { simpl. repeat constructor; simpl; intuition discriminate. }
    assert (Hserve : counters_serve
                       (Sample.base
                          [Sample.ticket 1 10 1 "REG-001" 2 waiting None 1000;
                           Sample.ticket 2 11 1 "REG-002" 1 waiting None 2000]
                          [Sample.window 1 open None])
                       1 [1; 1; 1]).
    { intros c Hc. exists (Sample.window 1 open None).
      destruct Hc as [<-|[<-|[<-|[]]]]; repeat split; discriminate. }
    destruct (proj2 (proj2 next_waiting_minimal_and_calls_ordered)
                Sample.staff 1 [1; 1; 1]
                (Sample.base
                   [Sample.ticket 1 10 1 "REG-001" 2 waiting None 1000;
                    Sample.ticket 2 11 1 "REG-002" 1 waiting None 2000]
                   [Sample.window 1 open None])
                (Sample.clock 5000) eq_refl Hnd Hserve) as [Hlen _].
    exact Hlen.
Defined.

(* ===================================================================== *)
(** * Further properties: serving the called ticket *)
(* ===================================================================== *)

(** X11.  The ticket a call returns can always be taken to the end by
    the same counter.  After a successful call (in a store where the
    user of every entry exists), the counter's start of that ticket
    succeeds and makes it serving, and its completion then succeeds and
    makes it completed; afterwards every row of that ticket is completed
    at the instant of the completion, and the counter is open with no
    current ticket. *)
Theorem called_ticket_can_be_served_and_completed :
  forall (user : req_user) (c : Z) (w w' : world) (st : Z) (q : queue_entry)
         (e1 e2 : environment),
    (forall x, In x (queue_entries (store w)) ->
               In (qe_user_id x) (users (store w))) ->
    counterController.callNext user c w = (Val (json_success st q), w') ->
    let started :=
      counterController.startServing user c (qe_id q)
        (reliable (store w') e1) in
    let finished :=
      counterController.completeService user c (qe_id q)
        (reliable (store (snd started)) e2) in
    (exists q1, fst started = Val (json_success 200 q1) /\
                qe_id q1 = qe_id q /\ qe_status q1 = serving) /\
    (exists q2, fst finished = Val (json_success 200 q2) /\
                qe_id q2 = qe_id q /\ qe_status q2 = completed) /\
    (forall x, In x (queue_entries (store (snd finished))) ->
               qe_id x = qe_id q ->
               qe_status x = completed /\ qe_completed_at x = Some (now e2)) /\
    (forall x, In x (counters (store (snd finished))) -> ctr_id x = c ->
               ctr_status x = open /\ ctr_current_serving_queue_id x = None).
Proof.
  intros user c w w' st q e1 e2 Husers H started finished.
  apply callNext_success_reliable in H as [H _].
  apply callNext_reliable_success in H
    as (ctr & m & Hstaff & Hctr & Hopen & Hm & _ & Hq & Hw').
  set (s := store w) in *. set (e0 := env w) in *.
  apply next_waiting_minimal in Hm as [Hm _].
  apply waiting_of_In in Hm as (Hin & Hsvc & Hwait).
  pose proof (counter_row_In s c ctr Hctr) as (_ & _ & Hservice).
  assert (Hqid : qe_id q = qe_id m).
  { subst q. cbn. now apply hd_filter_id. }
  (* the store after the call *)
  set (g1 := fun x => if qe_id x =? qe_id m
                      then counterController.set_called c (now e0) x else x).
  set (f1 := fun x => if ctr_id x =? c
                      then Counter.with_status busy
                             (Counter.with_current_serving (Some (qe_id m)) x)
                      else x).
  assert (Hs1 : exists s1, store w' = s1 /\
            services s1 = services s /\ users s1 = users s /\
            queue_entries s1 = map g1 (queue_entries s) /\
            counters s1 = map f1 (counters s)).
  { apply (f_equal store) in Hw'. cbn [store reliable] in Hw'.
    exists (store w'). split; [reflexivity|]. rewrite Hw'. repeat split. }
  destruct Hs1 as (s1 & Hs1 & Sv1 & Us1 & Qs1 & Cs1).
  assert (Hg1 : forall x, written_once (g1 x) = written_once x).
  { intros x. unfold g1. now destruct (qe_id x =? qe_id m). }
  assert (Hrow0 : exists t0, entry_row s (qe_id m) = Some t0).
  { unfold entry_row. apply (first_row_of_In _ m).
    apply filter_In. split; [exact Hin|].
    rewrite Z.eqb_refl, Hsvc, Hservice, existsb_user; auto. }
  destruct Hrow0 as (t0 & Hrow0).
  pose proof (entry_row_In s _ _ Hrow0) as (_ & Hid0 & _).
  assert (Hrow1 : entry_row s1 (qe_id q) = Some (g1 t0)).
  { rewrite Hqid, (entry_row_updated s s1 g1 _ Sv1 Us1 Qs1 Hg1), Hrow0.
    reflexivity. }
  assert (Hc1 : counter_row s1 c = Some (f1 ctr)).
  { rewrite (counter_row_updated s s1 f1 c Sv1 Cs1), Hctr; [reflexivity| |];
      intros x; unfold f1; now destruct (ctr_id x =? c). }
  assert (Hassigned1 : qe_counter_id (g1 t0) = Some c).
  { unfold g1. now rewrite Hid0, Z.eqb_refl. }
  (* the start *)
  subst started finished. rewrite Hs1.
  rewrite startServing_reliable, Hstaff, Hc1, Hrow1, Hassigned1.
  cbn [negb option_Z_eqb]. rewrite Z.eqb_refl. cbn [negb fst snd store reliable].
  set (g2 := fun x => if qe_id x =? qe_id q
                      then counterController.set_serving (now e1) x else x).
  set (s2 := set_queue_logs
               (set_queue_entries s1 (map g2 (queue_entries s1))
                                  (queue_entries_id_seq s1)) _).
  assert (Hg2 : forall x, written_once (g2 x) = written_once x).
  { intros x. unfold g2. now destruct (qe_id x =? qe_id q). }
  assert (Hrow2 : entry_row s2 (qe_id q) = Some (g2 (g1 t0))).
  { rewrite (entry_row_updated s1 s2 g2 _ eq_refl eq_refl eq_refl Hg2), Hrow1.
    reflexivity. }
  assert (Hc2 : counter_row s2 c = Some (f1 ctr)).
  { now rewrite (counter_row_same s1 s2 c eq_refl eq_refl). }
  assert (Hassigned2 : qe_counter_id (g2 (g1 t0)) = Some c).
  { unfold g2. now destruct (qe_id (g1 t0) =? qe_id q). }
  assert (Hidg1 : qe_id (g1 t0) = qe_id q).
  { pose proof (written_once_id _ _ (Hg1 t0)). congruence. }
  split.
  { eexists. split; [reflexivity|]. split; [|reflexivity].
    cbn. now apply hd_filter_id. }
  (* the completion *)
  rewrite completeService_reliable, Hstaff, Hc2, Hrow2, Hassigned2.
  cbn [negb option_Z_eqb]. rewrite Z.eqb_refl. cbn [negb fst snd store reliable].
  split.
  { eexists. split; [reflexivity|]. split; [|reflexivity].
    cbn. apply hd_filter_id.
    pose proof (written_once_id _ _ (Hg2 (g1 t0))). congruence. }
  split.
  - intros x Hx Hidx. cbn in Hx. apply in_map_iff in Hx as (y & <- & Hy).
    destruct (qe_id y =? qe_id q) eqn:E; [split; reflexivity|].
    apply Z.eqb_neq in E. contradiction.
  - intros x Hx Hidx. cbn in Hx. apply in_map_iff in Hx as (y & <- & Hy).
    destruct (ctr_id y =? c) eqn:E; [split; reflexivity|].
    apply Z.eqb_neq in E. contradiction.
Qed.

Lemma called_ticket_can_be_served_and_completed_witness :
  let t := Sample.ticket 1 10 1 "REG-001" 1 waiting None 1000 in
  let s := Sample.base [t] [Sample.window 1 open None] in
  let w := reliable s (Sample.clock 2000) in
  let w' := snd (counterController.callNext Sample.staff 1 w) in
  let started :=
    counterController.startServing Sample.staff 1 1
      (reliable (store w') (Sample.clock 3000)) in
  let finished :=
    counterController.completeService Sample.staff 1 1
      (reliable (store (snd started)) (Sample.clock 4000)) in
  exists q2, fst finished = Val (json_success 200 q2) /\
             qe_id q2 = 1 /\ qe_status q2 = completed.
Proof.
  cbv zeta.
  refine (proj1 (proj2
    (called_ticket_can_be_served_and_completed Sample.staff 1
       (reliable (Sample.base
                    [Sample.ticket 1 10 1 "REG-001" 1 waiting None 1000]
                    [Sample.window 1 open None])
                 (Sample.clock 2000))
       (snd (counterController.callNext Sample.staff 1
               (reliable (Sample.base
                            [Sample.ticket 1 10 1 "REG-001" 1 waiting None 1000]
                            [Sample.window 1 open None])
                         (Sample.clock 2000))))
       200
       (counterController.set_called 1 2000
          (Sample.ticket 1 10 1 "REG-001" 1 waiting None 1000))
       (Sample.clock 3000) (Sample.clock 4000) _ eq_refl))).
  intros x [<-|[]]. cbn. tauto.
Defined.

(* ===================================================================== *)
(** * Further properties: the action log *)
(* ===================================================================== *)

Lemma reliable_store s e w : w = reliable s e -> store w = s.
Proof. now intros ->. Qed.

(** X12.  Every operation that answers with success has appended exactly
    one row to the action log, whichever queries failed on the way: the
    row names the action (created, called, started, completed or
    cancelled) and the id of the ticket in the reply, and, for a call, a
    start or a completion, the acting counter. *)
Theorem successful_operation_logs_once :
  forall (o : operation) (w w' : world) (st : Z) (q : queue_entry),
    handle o w = (Val (json_success st q), w') ->
    exists row,
      queue_logs (store w') = (queue_logs (store w) ++ [row])%list /\
      log_action row = action_of o /\
      log_queue_entry_id row = qe_id q /\
      (forall c, counter_of o = Some c -> log_counter_id row = Some c).
Proof.
  intros o w w' st q H. destruct o as [u sid|u c|u c qid|u c qid|u qid];
    cbn [handle action_of counter_of] in *.
  - apply requestQueue_success in H
      as (sid' & sv & number & _ & _ & _ & _ & _ & Hq & _ & Hs).
    cbv zeta in Hq, Hs. rewrite Hs. eexists. split; [reflexivity|].
    repeat split. discriminate.
  - apply callNext_success_reliable in H as [H _].
    apply callNext_reliable_success in H
      as (ctr & m & _ & _ & _ & _ & _ & Hq & Hw').
    apply reliable_store in Hw'. cbn [store reliable] in Hw'. rewrite Hw'.
    eexists. split; [reflexivity|]. repeat split.
    + subst q. cbn. symmetry. now apply hd_filter_id.
    + intros c0 E. now inversion E.
  - apply startServing_success_reliable in H as [H _].
    rewrite startServing_reliable in H.
    destruct (negb _); [discriminate|].
    destruct (counter_row _ _) as [ctr|]; [|discriminate].
    destruct (entry_row _ _) as [t|] eqn:Ht; [|discriminate].
    destruct (negb _); [discriminate|].
    inversion H; subst.
    eexists. split; [reflexivity|]. repeat split.
    + cbn. symmetry. apply hd_filter_id.
      now apply entry_row_In in Ht as (_ & Ht & _).
    + intros c0 E. now inversion E.
  - apply completeService_success_reliable in H as [H _].
    rewrite completeService_reliable in H.
    destruct (negb _); [discriminate|].
    destruct (counter_row _ _) as [ctr|]; [|discriminate].
    destruct (entry_row _ _) as [t|] eqn:Ht; [|discriminate].
    destruct (negb _); [discriminate|].
    inversion H; subst.
    eexists. split; [reflexivity|]. repeat split.
    + cbn. symmetry. apply hd_filter_id.
      now apply entry_row_In in Ht as (_ & Ht & _).
    + intros c0 E. now inversion E.
  - apply cancelQueue_success_reliable in H as [H _].
    rewrite cancelQueue_reliable in H.
    destruct (filter _ _) as [|t rest]; [discriminate|].
    destruct (_ || _); [discriminate|]. cbv zeta in H.
    destruct (filter (fun x => qe_id x =? qid) (queue_entries (store w)))
      as [|r rs] eqn:Hr; [discriminate|].
    cbn [map] in H. inversion H; subst.
    eexists. split; [reflexivity|]. repeat split.
    + cbn. assert (Hin : In r (r :: rs)) by now left.
      rewrite <- Hr in Hin. apply filter_In in Hin as [_ Hin].
      symmetry. now apply Z.eqb_eq.
    + discriminate.
Qed.

Lemma successful_operation_logs_once_witness :
  let t := Sample.ticket 1 10 1 "REG-001" 1 waiting None 1000 in
  let s := Sample.base [t] [Sample.window 1 open None] in
  let w := reliable s (Sample.clock 5000) in
  exists row,
    queue_logs (store (snd (handle (op_call Sample.staff 1) w)))
    = (queue_logs s ++ [row])%list /\
    log_action row = "called" /\
    log_queue_entry_id row = 1 /\
    log_counter_id row = Some 1.
Proof.
  cbv zeta.
  destruct (successful_operation_logs_once
              (op_call Sample.staff 1)
              (reliable (Sample.base
                           [Sample.ticket 1 10 1 "REG-001" 1 waiting None 1000]
                           [Sample.window 1 open None])
                        (Sample.clock 5000))
              (snd (handle (op_call Sample.staff 1)
                      (reliable (Sample.base
                           [Sample.ticket 1 10 1 "REG-001" 1 waiting None 1000]
                           [Sample.window 1 open None])
                        (Sample.clock 5000))))
              200
              (counterController.set_called 1 5000
                 (Sample.ticket 1 10 1 "REG-001" 1 waiting None 1000))
              eq_refl)
    as (row & H1 & H2 & H3 & H4).
  exists row. repeat split; auto.
Defined.

(* ===================================================================== *)
(** * Further properties: cancelling and asking again *)
(* ===================================================================== *)

Lemma cancelQueue_reply user qid w st q w' t :
  NoDup (map qe_id (queue_entries (store w))) ->
  In t (queue_entries (store w)) -> qe_id t = qid ->
  queueController.cancelQueue user qid w = (Val (json_success st q), w') ->
  q = Queue.set_cancelled (now (env w)) t.
Proof.
  intros Hnd Hin Hid H.
  apply cancelQueue_success_reliable in H as [H _].
  rewrite cancelQueue_reliable in H.
  destruct (filter _ _) as [|t' rest]; [discriminate|].
  destruct (_ || _); [discriminate|]. cbv zeta in H.
  subst qid. rewrite (filter_id_unique _ _ Hnd Hin) in H.
  cbn [map] in H. now inversion H.
Qed.

(** X13.  Cancelling frees the user for a new request.  In a store where
    ids are a key and nobody holds two active tickets of one service,
    after a successful cancellation the user holds no active ticket of
    the cancelled ticket's service; so a new request of that user for
    that service is admitted, provided the service is active and
    maintenance mode is off. *)
Theorem cancelled_user_can_request_again :
  forall (user : req_user) (qid : Z) (w w' : world) (st : Z)
         (q : queue_entry),
    NoDup (map qe_id (queue_entries (store w))) ->
    Spec.single_active (store w) ->
    queueController.cancelQueue user qid w = (Val (json_success st q), w') ->
    Spec.active_tickets (userId user) (qe_service_id q) (store w') = [] /\
    forall (e : environment) (sv : service),
      qe_service_id q <> 0 ->
      system_maintenance_mode (current_settings (store w)) = false ->
      find (fun row => svc_id row =? qe_service_id q) (services (store w))
      = Some sv ->
      svc_is_active sv = true ->
      is_success
        (fst (queueController.requestQueue user (Some (qe_service_id q))
                (reliable (store w') e))) = true.
Proof.
  intros user qid w w' st q Hnd Hsingle H.
  pose proof H as H0.
  apply cancelQueue_success in H0 as (t & Hin & Hid & Hown & Hact & _ & Hs).
  pose proof (cancelQueue_reply user qid w st q w' t Hnd Hin Hid H) as Hq.
  assert (Hsvc : qe_service_id q = qe_service_id t) by now subst q.
  assert (Hnone :
            Spec.active_tickets (userId user) (qe_service_id q) (store w') = []).
  { unfold Spec.active_tickets. rewrite Hs. cbn [queue_entries set_queue_logs
      set_queue_entries]. apply filter_none. intros x Hx.
    apply in_map_iff in Hx as (y & <- & Hy).
    destruct (Z.eqb_spec (qe_id y) qid) as [E|E].
    - cbn. now rewrite andb_false_r.
    - destruct ((qe_user_id y =? userId user) &&
                (qe_service_id y =? qe_service_id q) &&
                Queue.active (qe_status y)) eqn:Hy'; [|reflexivity].
      exfalso.
      assert (Ht : In t (Spec.active_tickets (userId user) (qe_service_id q)
                           (store w))).
      { apply filter_In. split; [exact Hin|].
        now rewrite Hown, Hsvc, !Z.eqb_refl, Hact. }
      assert (Hyin : In y (Spec.active_tickets (userId user)
                             (qe_service_id q) (store w))).
      { apply filter_In. now split. }
      pose proof (Hsingle (userId user) (qe_service_id q)) as Hlen.
      destruct (Spec.active_tickets (userId user) (qe_service_id q) (store w))
        as [|a [|b rest]]; [contradiction| |cbn in Hlen; lia].
      destruct Ht as [<-|[]]. destruct Hyin as [<-|[]]. congruence. }
  split; [exact Hnone|].
  intros e sv Hnz Hoff Hsv Hactive.
  assert (Hsame : services (store w') = services (store w) /\
                  system_settings (store w') = system_settings (store w)).
  { rewrite Hs. split; reflexivity. }
  destruct Hsame as [Hsv' Hset'].
  rewrite (requestQueue_from_settings (store w') e user _ _ _ Hnz
             (getSystemSettings_reliable (store w') e)).
  unfold current_settings in Hoff. rewrite Hset', Hoff, Hsv', Hsv, Hactive, Hnone.
  reflexivity.
Qed.

Lemma cancelled_user_can_request_again_witness :
  let t := Sample.ticket 1 10 1 "REG-001" 1 waiting None 1000 in
  let s := Sample.base [t] [] in
  let w := reliable s (Sample.clock 5000) in
  let w' := snd (queueController.cancelQueue Sample.student10 1 w) in
  Spec.active_tickets 10 1 (store w') = [] /\
  is_success
    (fst (queueController.requestQueue Sample.student10 (Some 1)
            (reliable (store w') (Sample.clock 6000)))) = true.
Proof.
  cbv zeta.
  destruct (cancelled_user_can_request_again Sample.student10 1
              (reliable (Sample.base
                           [Sample.ticket 1 10 1 "REG-001" 1 waiting None 1000]
                           [])
                        (Sample.clock 5000))
              (snd (queueController.cancelQueue Sample.student10 1
                      (reliable (Sample.base
                           [Sample.ticket 1 10 1 "REG-001" 1 waiting None 1000]
                           [])
                        (Sample.clock 5000))))
              200
              (Queue.set_cancelled 5000
                 (Sample.ticket 1 10 1 "REG-001" 1 waiting None 1000)))
    as [H1 H2].
  - cbn. repeat constructor. intros [].
  - intros u sid. unfold Spec.active_tickets.
    etransitivity; [apply filter_length_le | cbn; lia].
  - reflexivity.
  - split; [exact H1|].
    apply (H2 (Sample.clock 6000) Sample.registrar);
      [discriminate | reflexivity | reflexivity | reflexivity].
Defined.

(* ===================================================================== *)
(** * Further properties: positions are not recomputed *)
(* ===================================================================== *)

(** X14.  A later ticket can be called before an earlier one.  The
    position of a new ticket is the number of tickets waiting at its
    admission plus one, and stored positions are never recomputed; so
    when a waiting ticket [t] of the service carries a position above that
    number (tickets ahead of it have left the waiting list), the new
    ticket [q] is stored with a smaller position: both wait, [q] comes
    strictly before [t] in the order of [getNextWaitingQueue], and [t] is
    not the next ticket to be called. *)
Theorem later_ticket_overtakes_higher_position :
  forall (user : req_user) (serviceId : option Z) (w w' : world) (st : Z)
         (q t : queue_entry),
    queueController.requestQueue user serviceId w
    = (Val (json_success st q), w') ->
    In t (queue_entries (store w)) ->
    qe_service_id t = qe_service_id q ->
    qe_status t = waiting ->
    Spec.admission_position (qe_service_id q) (env w) (store w)
    < qe_queue_position t ->
    In t (Spec.waiting_of (qe_service_id q) (store w')) /\
    In q (Spec.waiting_of (qe_service_id q) (store w')) /\
    Spec.key_le q t /\ ~ Spec.key_le t q /\
    forall m,
      hd_error (Sql.order_by Counter.position_then_requested
                  (Spec.waiting_of (qe_service_id q) (store w'))) = Some m ->
      m <> t.
Proof.
  intros user serviceId w w' st q t H Hin Hsvc Hwait Hpos.
  apply requestQueue_success in H
    as (sid & sv & number & _ & _ & _ & _ & _ & Hq & _ & Hs).
  cbv zeta in Hq, Hs.
  assert (Hqs : qe_service_id q = sid) by now subst q.
  assert (Hqp : qe_queue_position q
                = Spec.admission_position sid (env w) (store w))
    by now subst q.
  assert (Hqw : qe_status q = waiting) by now subst q.
  assert (Hrows : queue_entries (store w')
                  = (queue_entries (store w) ++ [q])%list).
  { rewrite Hs, Hq. reflexivity. }
  rewrite Hqs in *.
  assert (Ht' : In t (Spec.waiting_of sid (store w'))).
  { apply waiting_of_In. rewrite Hrows. repeat split; auto.
    apply in_or_app. now left. }
  assert (Hq' : In q (Spec.waiting_of sid (store w'))).
  { apply waiting_of_In. rewrite Hrows. repeat split; auto.
    apply in_or_app. right. now left. }
  split; [exact Ht'|]. split; [exact Hq'|].
  split; [left; lia|]. split; [unfold Spec.key_le; lia|].
  intros m Hm ->. apply next_waiting_minimal in Hm as [_ Hm].
  specialize (Hm q Hq'). unfold Spec.key_le in Hm. lia.
Qed.

Lemma later_ticket_overtakes_higher_position_witness :
  let t := Sample.ticket 3 11 1 "REG-003" 3 waiting None 3000 in
  let s := Sample.base [t] [] in
  let r := queueController.requestQueue Sample.student10 (Some 1)
             (reliable s (Sample.clock 5000)) in
  let q := fst (Queue.insertSql 10 1 "REG-004" 2 10 (Sample.clock 5000) s) in
  In t (Spec.waiting_of 1 (store (snd r))) /\
  In q (Spec.waiting_of 1 (store (snd r))) /\
  Spec.key_le q t.
Proof.
  cbv zeta.
  destruct (later_ticket_overtakes_higher_position Sample.student10 (Some 1)
       (reliable (Sample.base
                    [Sample.ticket 3 11 1 "REG-003" 3 waiting None 3000] [])
                 (Sample.clock 5000))
       (snd (queueController.requestQueue Sample.student10 (Some 1)
               (reliable (Sample.base
                    [Sample.ticket 3 11 1 "REG-003" 3 waiting None 3000] [])
                 (Sample.clock 5000))))
       201
       (fst (Queue.insertSql 10 1 "REG-004" 2 10 (Sample.clock 5000)
               (Sample.base
                  [Sample.ticket 3 11 1 "REG-003" 3 waiting None 3000] [])))
       (Sample.ticket 3 11 1 "REG-003" 3 waiting None 3000)
       eq_refl (or_introl eq_refl) eq_refl eq_refl eq_refl)
    as (H1 & H2 & H3 & _).
  exact (conj H1 (conj H2 H3)).
Defined.

(* ===================================================================== *)
(** * Further properties: the numbers of one day *)
(* ===================================================================== *)

Section DayNumbers.
Variables (D : Z -> Z) (d sid : Z) (sv : service).
Hypothesis Hplain : Spec.plain (Spec.prefix sv) = true.

Lemma strip_prefix_app p r : Spec.strip_prefix p (p ++ r) = Some r.
Proof.
  induction p as [|c p IH]; [reflexivity|]. cbn. now rewrite Ascii.eqb_refl.
Qed.

Lemma string_app_assoc (p q r : string) : (p ++ q) ++ r = p ++ (q ++ r).
Proof. induction p as [|c p IH]; [reflexivity|]. cbn. now rewrite IH. Qed.

Lemma number_of_has_prefix p i : Spec.has_prefix p (number_of p i) = true.
Proof.
  unfold Spec.has_prefix, number_of.
  now rewrite <- string_app_assoc, strip_prefix_app.
Qed.

Lemma number_of_parsed i :
  JS.parseInt (JS.at_index (JS.split "-" (number_of (Spec.prefix sv) i)) 1)
  = JS.Num (Z.of_nat i).
Proof.
  apply numberPart_no_hyphen.
  - now apply plain_no_hyphen.
  - apply padded_digits. lia.
Qed.

Lemma number_of_injective i j :
  number_of (Spec.prefix sv) i = number_of (Spec.prefix sv) j -> i = j.
Proof.
  intros H. pose proof (number_of_parsed i) as Hi.
  rewrite H, number_of_parsed in Hi. inversion Hi. lia.
Qed.

Lemma next_number_of_day s t k :
  D t = d -> day_state D d sid sv s k ->
  next_number s {| now := t; today := D t; DATE := D |} sid sv
  = number_of (Spec.prefix sv) (S k).
Proof.
  intros Ht (Hfresh & Hsv & Hk). unfold next_number, number_of.
  rewrite (lastNumberSql_plain s _ sid _ Hplain). cbn [today DATE].
  do 3 f_equal. destruct k as [|k].
  - rewrite filter_none; [reflexivity|]. intros q Hq.
    destruct (Z.eqb_spec (qe_service_id q) sid) as [E|E]; [|reflexivity].
    destruct (Z.eqb_spec (D (qe_requested_at q)) (D t)) as [E'|E'];
      [|reflexivity].
    exfalso. apply (Hk q Hq E). congruence.
  - destruct Hk as (last & Hin & Hs & Hd & Hnum & Htop).
    set (rows := filter _ (queue_entries s)).
    assert (Hlast : In last rows).
    { apply filter_In. split; [exact Hin|].
      rewrite Hs, Hd, Ht, !Z.eqb_refl, Hnum. apply number_of_has_prefix. }
    assert (Hhd : hd_error (Sql.order_by Queue.id_desc rows) = Some last).
    { apply order_by_hd_top; [exact Hlast| |].
      - intros y Hy. apply filter_In in Hy as [Hy _].
        destruct (Htop y Hy) as [->|Hlt]; [now left | right].
        unfold Queue.id_desc. now apply Z.leb_gt.
      - intros y Hy. apply filter_In in Hy as [Hy _].
        unfold Queue.id_desc. apply Z.leb_le.
        destruct (Htop y Hy) as [->|Hlt]; lia. }
    destruct (Sql.order_by Queue.id_desc rows) as [|h rest]; [discriminate|].
    inversion Hhd; subst h. cbn [firstn map]. rewrite Hnum, number_of_parsed.
    cbn [JS.add].
    replace (Z.of_nat (S k) + 1) with (Z.of_nat (S (S k))) by lia.
    reflexivity.
Qed.

Lemma day_state_after_insert s u t k :
  D t = d -> day_state D d sid sv s k ->
  let e := {| now := t; today := D t; DATE := D |} in
  let number := next_number s e sid sv in
  let position := Spec.admission_position sid e s in
  let wait := JS.or_default (svc_estimated_service_time sv) 5 * position in
  let inserted := Queue.insertSql u sid number position wait e s in
  forall logs,
    day_state D d sid sv (set_queue_logs (snd inserted) logs) (S k) /\
    qe_queue_number (fst inserted) = number_of (Spec.prefix sv) (S k).
Proof.
  intros Ht Hst e number position wait inserted logs.
  pose proof (next_number_of_day s t k Ht Hst) as Hnum.
  destruct Hst as ([Hnd Hlt] & Hsv & Hk).
  split; [|exact Hnum].
  split; [|split; [exact Hsv|]].
  - split; cbn.
    + rewrite map_app. cbn. rewrite ids_below in Hlt.
      apply NoDup_app; [exact Hnd | repeat constructor; intros [] |].
      intros i Hi [<-|[]]. apply Hlt in Hi. lia.
    + intros q Hq. apply in_app_or in Hq as [Hq|[<-|[]]]; [|cbn; lia].
      apply Hlt in Hq. lia.
  - exists (fst inserted). cbn. repeat split.
    + apply in_or_app. right. now left.
    + exact Ht.
    + exact Hnum.
    + intros q Hq. apply in_app_or in Hq as [Hq|[<-|[]]]; [|now left].
      right. now apply Hlt.
Qed.

Lemma fst_request_each_cons u t rest s :
  let e := {| now := t; today := D t; DATE := D |} in
  let r := queueController.requestQueue u (Some sid) (reliable s e) in
  fst (request_each D sid ((u, t) :: rest) s)
  = match fst r with
    | Val (json_success _ q) =>
        q :: fst (request_each D sid rest (store (snd r)))
    | _ => fst (request_each D sid rest (store (snd r)))
    end.
Proof.
  cbv zeta. cbn [request_each].
  destruct (request_each D sid rest _) as [qs s']. cbn [fst].
  destruct (fst _) as [[st q|st err]|msg]; reflexivity.
Qed.

Lemma request_each_numbers reqs :
  forall s k,
    day_state D d sid sv s k ->
    (forall u t, In (u, t) reqs -> D t = d) ->
    map qe_queue_number (fst (request_each D sid reqs s))
    = map (number_of (Spec.prefix sv))
          (seq (S k) (List.length (fst (request_each D sid reqs s)))).
Proof.
  induction reqs as [|[u t] rest IH]; intros s k Hst Hday; [reflexivity|].
  assert (Ht : D t = d) by (apply (Hday u); now left).
  assert (Hrest : forall u' t', In (u', t') rest -> D t' = d)
    by (intros u' t' H; apply (Hday u'); now right).
  rewrite fst_request_each_cons. cbv zeta.
  set (e := {| now := t; today := D t; DATE := D |}).
  destruct (Z.eq_dec sid 0) as [Hz|Hnz].
  { assert (Hr : queueController.requestQueue u (Some sid) (reliable s e)
                 = (Val (json_error 400
                           (error_message "Service ID is required")),
                    reliable s e)) by (rewrite Hz; reflexivity).
    rewrite Hr. cbn [fst snd store reliable]. now apply IH. }
  rewrite (requestQueue_from_settings s e u sid _ _ Hnz
             (getSystemSettings_reliable s e)).
  destruct (system_maintenance_mode _);
    [cbn [fst snd store reliable]; now apply IH|].
  pose proof Hst as (_ & Hsv & _). rewrite Hsv.
  destruct (negb (svc_is_active sv));
    [cbn [fst snd store reliable]; now apply IH|].
  destruct (Spec.active_tickets (userId u) sid s) as [|x xs];
    [|cbn [fst snd store reliable]; now apply IH].
  cbv zeta. cbn [fst snd store reliable].
  destruct (day_state_after_insert s (userId u) t k Ht Hst
              (queue_logs s ++
               [ {| log_queue_entry_id :=
                      qe_id (fst (Queue.insertSql (userId u) sid
                                    (next_number s e sid sv)
                                    (Spec.admission_position sid e s)
                                    (JS.or_default
                                       (svc_estimated_service_time sv) 5 *
                                     Spec.admission_position sid e s) e s));
                    log_service_id := sid;
                    log_counter_id := None;
                    log_action := "created";
                    log_metadata := None |} ])%list)
    as [Hst' Hnum].
  fold e in Hst', Hnum.
  cbn [map List.length seq]. rewrite Hnum. f_equal.
  now apply IH.
Qed.

End DayNumbers.

(** Requests by different users, none of whom holds an active ticket
    of the service, are all admitted when the service is active and the
    system is not in maintenance: one ticket per request, in order. *)
Lemma request_each_admits_all D sid sv reqs :
  forall s,
    sid <> 0 ->
    system_maintenance_mode (current_settings s) = false ->
    find (fun row => svc_id row =? sid) (services s) = Some sv ->
    svc_is_active sv = true ->
    NoDup (map (fun r : req_user * Z => userId (fst r)) reqs) ->
    (forall r, In r reqs ->
               Spec.active_tickets (userId (fst r)) sid s = []) ->
    map qe_user_id (fst (request_each D sid reqs s))
    = map (fun r : req_user * Z => userId (fst r)) reqs.
Proof.
  induction reqs as [|[u t] rest IH]; intros s Hnz Hoff Hsv Hact Hnd Hnone;
    [reflexivity|].
  rewrite fst_request_each_cons. cbv zeta.
  set (e := {| now := t; today := D t; DATE := D |}).
  rewrite (requestQueue_from_settings s e u sid _ _ Hnz
             (getSystemSettings_reliable s e)).
  fold (current_settings s). rewrite Hoff, Hsv, Hact. cbn [negb].
  pose proof (Hnone (u, t) (or_introl eq_refl)) as Hu. cbn [fst] in Hu.
  rewrite Hu.
  cbv zeta. cbn [fst snd store reliable map].
  inversion Hnd as [|? ? Hnot Hnd']; subst. f_equal.
  apply IH; auto.
  intros [u' t'] Hin. cbn [fst].
  unfold Spec.active_tickets. cbn [queue_entries set_queue_logs
    Queue.insertSql snd set_queue_entries].
  rewrite filter_app. fold (Spec.active_tickets (userId u') sid s).
  pose proof (Hnone (u', t') (or_intror Hin)) as Hu'. cbn [fst] in Hu'.
  rewrite Hu'. cbn.
  destruct (Z.eqb_spec (userId u) (userId u')) as [E|_]; [|reflexivity].
  exfalso. apply Hnot. cbn [fst]. rewrite E.
  apply (in_map (fun r : req_user * Z => userId (fst r)) rest (u', t') Hin).
Qed.

Lemma NoDup_map_injective {A B} (f : A -> B) l :
  (forall x y, f x = f y -> x = y) -> NoDup l -> NoDup (map f l).
Proof.
  intros Hf. induction 1 as [|a l Hnot Hnd IH]; cbn; constructor; [|exact IH].
  intros Hin. apply in_map_iff in Hin as (b & Hb & Hin).
  apply Hf in Hb. now subst b.
Qed.

(** X15.  The numbers of one day are consecutive.  For a service whose
    name and configured prefix are ASCII text, whose prefix has no hyphen
    and no [LIKE] wildcard, and which has no ticket of day [d] yet, in a
    store where ids are a key below the id sequence: when requests for the
    service are handled one after the other on day [d] over a store that
    answers (the server's clock and the database agreeing on the day),
    the tickets created carry, in order, the numbers PREFIX-001,
    PREFIX-002, ... (three digits at least, more from 1000 on), whichever
    of the requests are refused in between; in particular no two of them
    carry the same number.  And when the service is active, the system is
    not in maintenance and the requests come from different users none of
    whom holds an active ticket of the service, every request creates a
    ticket, so that the n-th request gets PREFIX-n. *)
Theorem sequential_requests_number_consecutively :
  forall (D : Z -> Z) (d sid : Z) (sv : service) (s : db)
         (reqs : list (req_user * Z)),
    ids_fresh s ->
    find (fun row => svc_id row =? sid) (services s) = Some sv ->
    Spec.ascii_service sv = true ->
    Spec.plain (Spec.prefix sv) = true ->
    (forall q, In q (queue_entries s) -> qe_service_id q = sid ->
               D (qe_requested_at q) <> d) ->
    (forall u t, In (u, t) reqs -> D t = d) ->
    let created := fst (request_each D sid reqs s) in
    map qe_queue_number created
    = map (number_of (Spec.prefix sv)) (seq 1 (List.length created)) /\
    NoDup (map qe_queue_number created) /\
    (sid <> 0 ->
     system_maintenance_mode (current_settings s) = false ->
     svc_is_active sv = true ->
     NoDup (map (fun r : req_user * Z => userId (fst r)) reqs) ->
     (forall r, In r reqs ->
                Spec.active_tickets (userId (fst r)) sid s = []) ->
     map qe_user_id created
     = map (fun r : req_user * Z => userId (fst r)) reqs /\
     map qe_queue_number created
     = map (number_of (Spec.prefix sv)) (seq 1 (List.length reqs))).
Proof.
  intros D d sid sv s reqs Hfresh Hsv _ Hplain Hnone Hday created.
  assert (Hnums : map qe_queue_number created
                  = map (number_of (Spec.prefix sv))
                        (seq 1 (List.length created))).
  { apply (request_each_numbers D d sid sv Hplain reqs s 0%nat);
      [|exact Hday].
    split; [exact Hfresh|]. split; [exact Hsv | exact Hnone]. }
  split; [exact Hnums|]. split.
  - rewrite Hnums. apply NoDup_map_injective; [|apply seq_NoDup].
    intros i j. now apply number_of_injective.
  - intros Hnz Hoff Hact Hnd Hfree.
    pose proof (request_each_admits_all D sid sv reqs s Hnz Hoff Hsv Hact
                  Hnd Hfree) as Hall.
    fold created in Hall. split; [exact Hall|].
    rewrite Hnums. do 2 f_equal.
    rewrite <- (length_map qe_user_id created), Hall. apply length_map.
Qed.

Lemma sequential_requests_number_consecutively_witness :
  map qe_queue_number
    (fst (request_each (fun x => x / 86400000) 1
            [(Sample.student10, 1000); (Sample.student11, 2000)]
            (Sample.base [] [])))
  = ["REG-001"; "REG-002"].
Proof.
  assert (Hnd : NoDup (map (fun r : req_user * Z => userId (fst r))
                         [(Sample.student10, 1000); (Sample.student11, 2000)])).
  { cbn. repeat constructor; cbn; intuition discriminate. }
  destruct (sequential_requests_number_consecutively
              (fun x => x / 86400000) 0 1 Sample.registrar (Sample.base [] [])
              [(Sample.student10, 1000); (Sample.student11, 2000)])
    as (_ & _ & Hall).
  - split; [constructor | intros q []].
  - reflexivity.
  - reflexivity.
  - reflexivity.
  - intros q [].
  - intros u t [H|[H|[]]]; inversion H; reflexivity.
  - destruct (Hall ltac:(discriminate) eq_refl eq_refl Hnd) as [_ Hnums].
    + intros r [<-|[<-|[]]]; reflexivity.
    + exact Hnums.
Defined.

(* ===================================================================== *)
(** * Further properties: the status of a counter *)
(* ===================================================================== *)

Lemma allowedStatuses_cases status :
  match Counter.allowedStatuses status with
  | Some open => status = "open"
  | Some busy => status = "busy"
  | Some closed => status = "closed"
  | Some break => status = "break"
  | None => ~ In status ["open"; "busy"; "closed"; "break"]
  end.
Proof.
  unfold Counter.allowedStatuses.
  destruct (String.eqb_spec status "open") as [->|H1]; [reflexivity|].
  destruct (String.eqb_spec status "busy") as [->|H2]; [reflexivity|].
  destruct (String.eqb_spec status "closed") as [->|H3]; [reflexivity|].
  destruct (String.eqb_spec status "break") as [->|H4]; [reflexivity|].
  cbn. intuition congruence.
Qed.

Lemma allowedStatuses_nonempty status st :
  Counter.allowedStatuses status = Some st -> String.eqb status "" = false.
Proof.
  intros H. destruct (String.eqb_spec status "") as [->|]; [|reflexivity].
  discriminate H.
Qed.

(** X16.  What [updateCounterStatus] refuses, whatever the store does.
    A user who is neither counter staff nor admin gets 403.  For staff, a
    missing or empty status gets 400 "Status is required", and a status
    other than open, busy, closed and break gets 400 "Invalid counter
    status".  None of these refusals sends a query: the world, its failure
    plan included, is left as it was. *)
Theorem updateCounterStatus_validation :
  forall (user : req_user) (c : Z) (w : world),
    let r := counterControllerExt.updateCounterStatus user c in
    (is_staff (user_role user) = false ->
     forall status,
       r status w
       = (Val (reply_error 403
                 (error_message "Access denied. Counter staff only.")), w)) /\
    (is_staff (user_role user) = true ->
     r None w
     = (Val (reply_error 400 (error_message "Status is required")), w) /\
     r (Some "") w
     = (Val (reply_error 400 (error_message "Status is required")), w) /\
     forall status,
       status <> "" ->
       ~ In status ["open"; "busy"; "closed"; "break"] ->
       r (Some status) w
       = (Val (reply_error 400 (error_message "Invalid counter status")), w)).
Proof.
  intros user c w r. subst r.
  unfold counterControllerExt.updateCounterStatus, try_catch.
  split.
  - intros -> status. reflexivity.
  - intros ->. cbn [negb]. split; [reflexivity|]. split; [reflexivity|].
    intros status Hne Hbad.
    destruct (String.eqb_spec status "") as [E|_]; [contradiction|].
    unfold Counter.updateStatus.
    pose proof (allowedStatuses_cases status) as Hc.
    destruct (Counter.allowedStatuses status) as [[]|];
      [subst status; exfalso; apply Hbad; cbn; tauto ..|].
    reflexivity.
Qed.

Lemma updateCounterStatus_validation_witness :
  counterControllerExt.updateCounterStatus Sample.staff 1 (Some "paused")
    Sample.day_start
  = (Val (reply_error 400 (error_message "Invalid counter status")),
     Sample.day_start).
Proof.
  refine (proj2 (proj2 (proj2
            (updateCounterStatus_validation Sample.staff 1 Sample.day_start)
            eq_refl)) "paused" _ _).
  - discriminate.
  - cbn. intros [H|[H|[H|[H|[]]]]]; discriminate H.
Defined.

Lemma set_counters_same s : set_counters s (counters s) = s.
Proof. now destruct s. Qed.

Lemma map_unchanged {A} (p : A -> bool) (f : A -> A) l :
  (forall x, In x l -> p x = false) ->
  map (fun x => if p x then f x else x) l = l.
Proof.
  intros H. induction l as [|a l IH]; [reflexivity|]. cbn.
  rewrite (H a (or_introl eq_refl)), IH; [reflexivity|].
  intros x Hx. apply H. now right.
Qed.

(** X17.  What an accepted status does, over a store that answers.  For
    staff and one of the four statuses, the reply is a success that
    carries the first counter with the id, updated, and in the store
    exactly the counters with that id change, in their status only; the
    current ticket of the counter, the queue entries and the log stay as
    they were.  The counter's existence is not checked: for an id no
    counter has, the reply is still a success, with no data, and the store
    is unchanged. *)
Theorem updateCounterStatus_sets_only_the_status :
  forall (user : req_user) (c : Z) (status : string) (st : counter_status)
         (s : db) (e : environment),
    is_staff (user_role user) = true ->
    Counter.allowedStatuses status = Some st ->
    let r :=
      counterControllerExt.updateCounterStatus user c (Some status)
        (reliable s e) in
    fst r
    = Val (reply_success 200
             (option_map (Counter.with_status st)
                (find (fun x => ctr_id x =? c) (counters s)))) /\
    snd r
    = reliable
        (set_counters s
           (map (fun x => if ctr_id x =? c then Counter.with_status st x
                          else x)
                (counters s))) e /\
    ((forall x, In x (counters s) -> ctr_id x <> c) ->
     r = (Val (reply_success 200 None), reliable s e)).
Proof.
  intros user c status st s e Hstaff Hst r.
  assert (Hr : r = (Val (reply_success 200
                           (Sql.first_row
                              (map (Counter.with_status st)
                                   (filter (fun x => ctr_id x =? c)
                                           (counters s))))),
                    reliable
                      (set_counters s
                         (map (fun x => if ctr_id x =? c
                                        then Counter.with_status st x else x)
                              (counters s))) e)).
  { subst r.
    unfold counterControllerExt.updateCounterStatus, try_catch.
    rewrite Hstaff, (allowedStatuses_nonempty _ _ Hst). cbn [negb].
    unfold Counter.updateStatus. rewrite Hst.
    now rewrite bind_query_reliable. }
  rewrite Hr. cbn [fst snd]. split; [|split; [reflexivity|]].
  - rewrite first_row_map. unfold Sql.first_row. now rewrite filter_hd_find.
  - intros Hnone.
    assert (Hf : forall x, In x (counters s) -> (ctr_id x =? c) = false).
    { intros x Hx. apply Z.eqb_neq. now apply Hnone. }
    rewrite (filter_none _ _ Hf), (map_unchanged _ _ _ Hf), set_counters_same.
    reflexivity.
Qed.

Lemma updateCounterStatus_sets_only_the_status_witness :
  let s := Sample.base [] [Sample.window 1 busy (Some 7)] in
  fst (counterControllerExt.updateCounterStatus Sample.staff 1 (Some "break")
         (reliable s (Sample.clock 5000)))
  = Val (reply_success 200 (Some (Sample.window 1 break (Some 7)))).
Proof.
  cbv zeta.
  exact (proj1 (updateCounterStatus_sets_only_the_status Sample.staff 1
                  "break" break
                  (Sample.base [] [Sample.window 1 busy (Some 7)])
                  (Sample.clock 5000) eq_refl eq_refl)).
Defined.

(** X18.  Completing a ticket reopens the counter.  After a completion
    that answers with success, whichever queries failed on the way, every
    counter with the acting id is [open] and has no current ticket,
    whatever its status was before (busy, on break or closed) and
    whichever ticket it pointed to, and the other counters are as they
    were. *)
Theorem completion_reopens_counter :
  forall (user : req_user) (c qid : Z) (w w' : world) (st : Z)
         (q : queue_entry),
    counterController.completeService user c qid w
    = (Val (json_success st q), w') ->
    counters (store w')
    = map (fun x => if ctr_id x =? c
                    then Counter.with_status open
                           (Counter.with_current_serving None x)
                    else x)
          (counters (store w)) /\
    (forall x, In x (counters (store w')) -> ctr_id x = c ->
               ctr_status x = open /\ ctr_current_serving_queue_id x = None) /\
    qe_status q = completed /\ qe_completed_at q = Some (now (env w)).
Proof.
  intros user c qid w w' st q H.
  apply completeService_success_reliable in H as [H _].
  rewrite completeService_reliable in H.
  destruct (negb _); [discriminate|].
  destruct (counter_row _ _) as [ctr|]; [|discriminate].
  destruct (entry_row _ _) as [t|]; [|discriminate].
  destruct (negb _); [discriminate|].
  inversion H as [[Hst Hq Hw']].
  split; [reflexivity|]. split; [|split; reflexivity].
  intros x Hx Hid. cbn in Hx. apply in_map_iff in Hx as (y & <- & Hy).
  destruct (ctr_id y =? c) eqn:E; [split; reflexivity|].
  apply Z.eqb_neq in E. contradiction.
Qed.

Lemma completion_reopens_counter_witness :
  let t := Sample.ticket 1 10 1 "REG-001" 1 serving (Some 1) 1000 in
  let s := Sample.base [t] [Sample.window 1 closed (Some 1)] in
  let r := counterController.completeService Sample.staff 1 1
             (reliable s (Sample.clock 5000)) in
  counters (store (snd r)) = [Sample.window 1 open None].
Proof.
  cbv zeta.
  exact (proj1 (completion_reopens_counter Sample.staff 1 1
                  (reliable (Sample.base
                       [Sample.ticket 1 10 1 "REG-001" 1 serving (Some 1) 1000]
                       [Sample.window 1 closed (Some 1)])
                     (Sample.clock 5000))
                  (snd (counterController.completeService Sample.staff 1 1
                     (reliable (Sample.base
                       [Sample.ticket 1 10 1 "REG-001" 1 serving (Some 1) 1000]
                       [Sample.window 1 closed (Some 1)])
                     (Sample.clock 5000))))
                  200
                  (counterController.set_completed 5000
                     (Sample.ticket 1 10 1 "REG-001" 1 serving (Some 1) 1000))
                  eq_refl)).
Defined.

Lemma updateCounterStatus_store user c status st s e :
  is_staff (user_role user) = true ->
  Counter.allowedStatuses status = Some st ->
  store (snd (counterControllerExt.updateCounterStatus user c (Some status)
                (reliable s e)))
  = set_counters s
      (map (fun x => if ctr_id x =? c then Counter.with_status st x else x)
           (counters s)).
Proof.
  intros Hstaff Hst.
  unfold counterControllerExt.updateCounterStatus, try_catch.
  rewrite Hstaff, (allowedStatuses_nonempty _ _ Hst). cbn [negb].
  unfold Counter.updateStatus. rewrite Hst.
  now rewrite bind_query_reliable.
Qed.

Lemma counter_row_with_status s c st ctr :
  counter_row s c = Some ctr ->
  counter_row
    (set_counters s
       (map (fun x => if ctr_id x =? c then Counter.with_status st x else x)
            (counters s))) c
  = Some (Counter.with_status st ctr).
Proof.
  intros H.
  rewrite (counter_row_updated s
             (set_counters s
                (map (fun x => if ctr_id x =? c
                               then Counter.with_status st x else x)
                     (counters s)))
             (fun x => if ctr_id x =? c then Counter.with_status st x else x)
             c eq_refl eq_refl).
  - rewrite H. cbn. apply counter_row_In in H as (_ & -> & _).
    now rewrite Z.eqb_refl.
  - intros x. now destruct (ctr_id x =? c).
  - intros x. now destruct (ctr_id x =? c).
Qed.

(** X19.  A closed counter takes no call until it is opened again.
    After staff set an existing counter to closed (over a store that
    answers), a call for that counter is refused with 400 "Counter is
    closed" and changes nothing, although the closing itself touched no
    queue entry; after the counter is set to open again, a call succeeds
    as soon as a ticket of its service waits. *)
Theorem closed_counter_takes_no_call :
  forall (user caller : req_user) (c : Z) (s : db) (e e' : environment)
         (ctr : counter),
    is_staff (user_role user) = true ->
    is_staff (user_role caller) = true ->
    counter_row s c = Some ctr ->
    let shut :=
      store (snd (counterControllerExt.updateCounterStatus user c
                    (Some "closed") (reliable s e))) in
    let reopened :=
      store (snd (counterControllerExt.updateCounterStatus user c
                    (Some "open") (reliable shut e))) in
    queue_entries shut = queue_entries s /\
    counterController.callNext caller c (reliable shut e')
    = (Val (json_error 400 (error_message "Counter is closed")),
       reliable shut e') /\
    (Spec.waiting_of (ctr_service_id ctr) s <> [] ->
     is_success (fst (counterController.callNext caller c
                        (reliable reopened e'))) = true).
Proof.
  intros user caller c s e e' ctr Huser Hcaller Hctr shut reopened.
  assert (Hshut : shut = set_counters s
            (map (fun x => if ctr_id x =? c
                           then Counter.with_status closed x else x)
                 (counters s))).
  { subst shut. now apply updateCounterStatus_store. }
  assert (Hre : reopened = set_counters shut
            (map (fun x => if ctr_id x =? c
                           then Counter.with_status open x else x)
                 (counters shut))).
  { subst reopened. now apply updateCounterStatus_store. }
  pose proof (counter_row_with_status s c closed ctr Hctr) as Hrow.
  rewrite <- Hshut in Hrow.
  pose proof (counter_row_with_status shut c open _ Hrow) as Hrow'.
  rewrite <- Hre in Hrow'.
  split; [now rewrite Hshut|]. split.
  - rewrite callNext_reliable, Hcaller, Hrow. reflexivity.
  - intros Hwait.
    rewrite callNext_reliable, Hcaller, Hrow'. cbn [negb].
    cbn [counter_status_eqb Counter.with_status ctr_status ctr_service_id].
    assert (Hw : Spec.waiting_of (ctr_service_id ctr) reopened
                 = Spec.waiting_of (ctr_service_id ctr) s).
    { unfold Spec.waiting_of. now rewrite Hre, Hshut. }
    rewrite Hw.
    destruct (hd_error _) as [m|] eqn:Hm; [reflexivity|].
    apply next_waiting_none in Hm. contradiction.
Qed.

Lemma closed_counter_takes_no_call_witness :
  let t := Sample.ticket 1 10 1 "REG-001" 1 waiting None 1000 in
  let s := Sample.base [t] [Sample.window 1 open None] in
  let shut :=
    store (snd (counterControllerExt.updateCounterStatus Sample.staff 1
                  (Some "closed") (reliable s (Sample.clock 2000)))) in
  counterController.callNext Sample.staff 1 (reliable shut (Sample.clock 3000))
  = (Val (json_error 400 (error_message "Counter is closed")),
     reliable shut (Sample.clock 3000)).
Proof.
  cbv zeta.
  exact (proj1 (proj2
           (closed_counter_takes_no_call Sample.staff Sample.staff 1
              (Sample.base
                 [Sample.ticket 1 10 1 "REG-001" 1 waiting None 1000]
                 [Sample.window 1 open None])
              (Sample.clock 2000) (Sample.clock 3000)
              (Sample.window 1 open None) eq_refl eq_refl eq_refl))).
Defined.

(* ===================================================================== *)
(** * Further properties: reading a ticket *)
(* ===================================================================== *)

(** X20.  Who may read a ticket.  [getQueueStatus] never writes,
    whatever the store does.  Over a store that answers, an id with no
    entry (or whose service or user is gone) gets 404; an existing entry
    is shown to its owner, to counter staff and to admins, and is refused
    with 403 "Access denied" to any other student. *)
Theorem getQueueStatus_access :
  forall (user : req_user) (qid : Z),
    preserves eq (queueControllerExt.getQueueStatus user qid) /\
    forall (s : db) (e : environment),
      let r := queueControllerExt.getQueueStatus user qid (reliable s e) in
      (entry_row s qid = None ->
       fst r = Val (reply_error 404 (error_message "Queue entry not found")))
      /\
      (forall t, entry_row s qid = Some t ->
         (qe_user_id t = userId user \/ is_staff (user_role user) = true ->
          fst r = Val (reply_success 200 t)) /\
         (qe_user_id t <> userId user -> user_role user = student ->
          fst r = Val (reply_error 403 (error_message "Access denied")))).
Proof.
  intros user qid. split.
  - unfold queueControllerExt.getQueueStatus, Queue.findById.
    frame; congruence.
  - intros s e r. subst r.
    unfold queueControllerExt.getQueueStatus, try_catch, Queue.findById.
    rewrite bind_select_reliable. fold (entry_row s qid).
    split; [intros ->; reflexivity|].
    intros t ->. split.
    + intros [Hown|Hstaff].
      * rewrite Hown, Z.eqb_refl. reflexivity.
      * rewrite Hstaff, andb_false_r. reflexivity.
    + intros Hne Hrole. apply Z.eqb_neq in Hne. rewrite Hne, Hrole.
      reflexivity.
Qed.

Lemma getQueueStatus_access_witness :
  let t := Sample.ticket 1 10 1 "REG-001" 1 waiting None 1000 in
  let s := Sample.base [t] [] in
  fst (queueControllerExt.getQueueStatus Sample.student11 1
         (reliable s (Sample.clock 5000)))
  = Val (reply_error 403 (error_message "Access denied")).
Proof.
  cbv zeta.
  refine (proj2 (proj2 (proj2 (getQueueStatus_access Sample.student11 1)
                          (Sample.base
                             [Sample.ticket 1 10 1 "REG-001" 1 waiting None 1000]
                             [])
                          (Sample.clock 5000))
                   (Sample.ticket 1 10 1 "REG-001" 1 waiting None 1000)
                   eq_refl) _ eq_refl).
  discriminate.
Defined.

(* ===================================================================== *)
(** * Further properties: the state of a service's queue *)
(* ===================================================================== *)

Section ServiceStatus.

Lemma parseInt_String n :
  0 <= n -> JS.parseInt (Some (JS.String_ (JS.Num n))) = JS.Num n.
Proof. intros Hn. cbn. now apply parseInt_decimal, decimal_value_String. Qed.

(** A count survives its trip through the driver's string and
    [parseInt(...) || 0]. *)
Lemma count_read {A} (l : list A) :
  number_or (JS.parseInt (Some (count_text l))) 0 = Z.of_nat (List.length l).
Proof.
  unfold count_text. rewrite parseInt_String by lia.
  cbn. now destruct (Z.of_nat (List.length l)).
Qed.

Lemma queue_status_eqb_eq a b : queue_status_eqb a b = true <-> a = b.
Proof. destruct a, b; simpl; split; congruence. Qed.

Lemma active_of_status sid st rows :
  Queue.active st = true ->
  filter (fun q => queue_status_eqb (qe_status q) st)
         (filter (fun q => (qe_service_id q =? sid) &&
                           Queue.active (qe_status q)) rows)
  = filter (fun q => (qe_service_id q =? sid) &&
                     queue_status_eqb (qe_status q) st) rows.
Proof.
  intros Hst. rewrite <- filter_andb. apply filter_ext_in_bool.
  intros q _. destruct (qe_service_id q =? sid); [|reflexivity]. cbn.
  destruct (queue_status_eqb (qe_status q) st) eqn:E;
    [|now rewrite andb_false_r].
  apply queue_status_eqb_eq in E. now rewrite E, Hst.
Qed.

Lemma rank_then_position_spec a b :
  QueueExt.rank_then_position a b = true <->
  QueueExt.status_rank (qe_status (fst a))
  < QueueExt.status_rank (qe_status (fst b)) \/
  (QueueExt.status_rank (qe_status (fst a))
   = QueueExt.status_rank (qe_status (fst b)) /\
   qe_queue_position (fst a) <= qe_queue_position (fst b)).
Proof.
  unfold QueueExt.rank_then_position. cbv zeta.
  rewrite orb_true_iff, andb_true_iff, Z.ltb_lt, Z.eqb_eq, Z.leb_le. tauto.
Qed.

Lemma rank_then_position_total a b :
  QueueExt.rank_then_position a b = false ->
  QueueExt.rank_then_position b a = true.
Proof.
  intros H. apply rank_then_position_spec.
  assert (N : ~ (QueueExt.rank_then_position a b = true)) by congruence.
  rewrite rank_then_position_spec in N. lia.
Qed.

Lemma rank_then_position_trans a b c :
  QueueExt.rank_then_position a b = true ->
  QueueExt.rank_then_position b c = true ->
  QueueExt.rank_then_position a c = true.
Proof. rewrite !rank_then_position_spec. lia. Qed.

Lemma status_rank_serving st : QueueExt.status_rank st <= 1 -> st = serving.
Proof. destruct st; cbn; intros H; try lia; reflexivity. Qed.

(** In the listing, the first serving row is the first row, and its
    position is the least among the serving rows. *)
Lemma first_serving_row rows x :
  find (fun q : queue_entry * option Z =>
          queue_status_eqb (qe_status (fst q)) serving)
       (Sql.order_by QueueExt.rank_then_position rows) = Some x ->
  In x rows /\ qe_status (fst x) = serving /\
  forall y, In y rows -> qe_status (fst y) = serving ->
            qe_queue_position (fst x) <= qe_queue_position (fst y).
Proof.
  intros H.
  pose proof (find_some _ _ H) as [Hin Hs].
  apply queue_status_eqb_eq in Hs.
  apply order_by_In in Hin.
  destruct (order_by_nonempty QueueExt.rank_then_position rows) as [h Hh].
  { intros E. now rewrite E in Hin. }
  pose proof (order_by_hd_least _ rank_then_position_total
                rank_then_position_trans rows h Hh) as Hleast.
  assert (Hhs : qe_status (fst h) = serving).
  { apply status_rank_serving.
    specialize (Hleast x Hin). apply rank_then_position_spec in Hleast.
    rewrite Hs in Hleast. cbn in Hleast. lia. }
  assert (Hx : x = h).
  { destruct (Sql.order_by QueueExt.rank_then_position rows) as [|h' t];
      [discriminate|].
    cbn in Hh. inversion Hh; subst h'. cbn in H.
    rewrite Hhs in H. cbn in H. now inversion H. }
  subst h. repeat split; auto.
  intros y Hy Hys. specialize (Hleast y Hy).
  apply rank_then_position_spec in Hleast. rewrite Hs, Hys in Hleast. lia.
Qed.

(** The rows of the listing: each active entry of the service, once per
    counter with its [counter_id] and at least once. *)
Lemma listing_rows sid s x :
  In x (flat_map
          (fun q =>
             match filter (fun c => option_Z_eqb (qe_counter_id q)
                                                 (Some (ctr_id c)))
                          (counters s) with
             | [] => [(q, None)]
             | cs => map (fun c => (q, Some (ctr_counter_number c))) cs
             end)
          (filter (fun q => (qe_service_id q =? sid) &&
                            Queue.active (qe_status q))
                  (queue_entries s))) ->
  In (fst x) (queue_entries s) /\ qe_service_id (fst x) = sid.
Proof.
  intros H. apply in_flat_map in H as (q & Hq & Hx).
  apply filter_In in Hq as [Hq Hc]. apply andb_true_iff in Hc as [Hc _].
  apply Z.eqb_eq in Hc.
  assert (E : fst x = q).
  { destruct (filter _ (counters s)) as [|c0 cs].
    - destruct Hx as [<-|[]]. reflexivity.
    - apply in_map_iff in Hx as (c1 & <- & _). reflexivity. }
  now rewrite E.
Qed.

Lemma listing_has_row sid s q :
  In q (queue_entries s) -> qe_service_id q = sid ->
  Queue.active (qe_status q) = true ->
  exists n,
    In (q, n)
       (flat_map
          (fun q =>
             match filter (fun c => option_Z_eqb (qe_counter_id q)
                                                 (Some (ctr_id c)))
                          (counters s) with
             | [] => [(q, None)]
             | cs => map (fun c => (q, Some (ctr_counter_number c))) cs
             end)
          (filter (fun q => (qe_service_id q =? sid) &&
                            Queue.active (qe_status q))
                  (queue_entries s))).
Proof.
  intros Hin Hs Ha.
  assert (Hq : In q (filter (fun q => (qe_service_id q =? sid) &&
                                      Queue.active (qe_status q))
                            (queue_entries s))).
  { apply filter_In. split; [exact Hin|].
    apply andb_true_iff. split; [now apply Z.eqb_eq | exact Ha]. }
  destruct (filter (fun c => option_Z_eqb (qe_counter_id q) (Some (ctr_id c)))
                   (counters s)) as [|c0 cs] eqn:E.
  - exists None. apply in_flat_map. exists q. split; [exact Hq|].
    rewrite E. now left.
  - exists (Some (ctr_counter_number c0)). apply in_flat_map.
    exists q. split; [exact Hq|]. rewrite E. now left.
Qed.

End ServiceStatus.

(** X21.  What the service status endpoint reports.  [getServiceQueueStatus]
    never writes, whatever the store does.  Over a store that answers, an
    unknown service gets 404; for an existing one (active or not) the
    reply carries its name, the numbers of its waiting, called and serving
    entries, and as [currentServing] the queue number of a serving entry
    whose position is the least among the serving entries of the service.
    [currentServing] is null when no entry is serving, and only then,
    unless such a least serving entry has an empty queue number. *)
Theorem getServiceQueueStatus_report :
  forall (sid : Z),
    preserves eq (queueControllerExt.getServiceQueueStatus sid) /\
    forall (s : db) (e : environment),
      let r := queueControllerExt.getServiceQueueStatus sid (reliable s e) in
      let of_status st :=
        filter (fun q => (qe_service_id q =? sid) &&
                         queue_status_eqb (qe_status q) st)
               (queue_entries s) in
      (find (fun row => svc_id row =? sid) (services s) = None ->
       fst r = Val (reply_error 404 (error_message "Service not found"))) /\
      (forall sv,
          find (fun row => svc_id row =? sid) (services s) = Some sv ->
          exists data,
            fst r = Val (reply_success 200 data) /\
            queueControllerExt.serviceName data = svc_name sv /\
            queueControllerExt.waitingCount data
            = Z.of_nat (List.length (of_status waiting)) /\
            queueControllerExt.calledCount data
            = Z.of_nat (List.length (of_status called)) /\
            queueControllerExt.servingCount data
            = Z.of_nat (List.length (of_status serving)) /\
            (of_status serving = [] ->
             queueControllerExt.currentServing data = None) /\
            (forall n,
                queueControllerExt.currentServing data = Some n ->
                exists q,
                  In q (of_status serving) /\ qe_queue_number q = n /\
                  forall q', In q' (of_status serving) ->
                             qe_queue_position q <= qe_queue_position q') /\
            (queueControllerExt.currentServing data = None ->
             of_status serving = [] \/
             exists q,
               In q (of_status serving) /\ qe_queue_number q = "" /\
               forall q', In q' (of_status serving) ->
                          qe_queue_position q <= qe_queue_position q')).
Proof.
  intros sid. split.
  - unfold queueControllerExt.getServiceQueueStatus, Service.findById,
      ServiceExt.getQueueStatus, QueueExt.getServiceQueueStatus.
    frame; congruence.
  - intros s e r of_status. subst r.
    unfold queueControllerExt.getServiceQueueStatus, try_catch,
      Service.findById.
    rewrite bind_select_reliable. unfold Sql.first_row.
    rewrite filter_hd_find.
    split; [intros ->; reflexivity|].
    intros sv ->.
    unfold ServiceExt.getQueueStatus. rewrite bind_select_reliable.
    unfold QueueExt.getServiceQueueStatus. rewrite bind_select_reliable.
    cbv zeta. eexists. split; [reflexivity|].
    cbn [queueControllerExt.serviceName queueControllerExt.waitingCount
         queueControllerExt.calledCount queueControllerExt.servingCount
         queueControllerExt.currentServing ServiceExt.waiting_count
         ServiceExt.called_count ServiceExt.serving_count].
    rewrite !count_read, !active_of_status by reflexivity.
    split; [reflexivity|]. split; [reflexivity|]. split; [reflexivity|].
    split; [reflexivity|].
    set (rows := flat_map _ _).
    assert (Hof : forall q, In q (of_status serving) <->
                            In q (queue_entries s) /\ qe_service_id q = sid /\
                            qe_status q = serving).
    { intros q. unfold of_status.
      rewrite filter_In, andb_true_iff, Z.eqb_eq, queue_status_eqb_eq.
      tauto. }
    split.
    + intros Hnone.
      destruct (find _ (Sql.order_by QueueExt.rank_then_position rows))
        as [x|] eqn:Hx; [|reflexivity].
      exfalso. apply first_serving_row in Hx as (Hin & Hs & _).
      apply listing_rows in Hin as [Hin Hsid].
      assert (H : In (fst x) (of_status serving)) by (apply Hof; auto).
      now rewrite Hnone in H.
    + split.
      * intros n Hn.
        destruct (find _ (Sql.order_by QueueExt.rank_then_position rows))
          as [x|] eqn:Hx; [|discriminate].
        destruct (String.eqb (qe_queue_number (fst x)) ""); [discriminate|].
        inversion Hn; subst n. clear Hn.
        apply first_serving_row in Hx as (Hin & Hs & Hleast).
        pose proof (listing_rows sid s x Hin) as [Hin' Hsid].
        exists (fst x). split; [apply Hof; auto|]. split; [reflexivity|].
        intros q' Hq'. apply Hof in Hq' as (Hq1 & Hq2 & Hq3).
        destruct (listing_has_row sid s q' Hq1 Hq2) as [c Hc];
          [now rewrite Hq3|].
        apply (Hleast (q', c)); [exact Hc | exact Hq3].
      * intros Hn.
        destruct (find _ (Sql.order_by QueueExt.rank_then_position rows))
          as [x|] eqn:Hx.
        -- right.
           destruct (String.eqb_spec (qe_queue_number (fst x)) "") as [E|_];
             [|discriminate].
           apply first_serving_row in Hx as (Hin & Hs & Hleast).
           pose proof (listing_rows sid s x Hin) as [Hin' Hsid].
           exists (fst x). split; [apply Hof; auto|]. split; [exact E|].
           intros q' Hq'. apply Hof in Hq' as (Hq1 & Hq2 & Hq3).
           destruct (listing_has_row sid s q' Hq1 Hq2) as [c Hc];
             [now rewrite Hq3|].
           apply (Hleast (q', c)); [exact Hc | exact Hq3].
        -- left.
           destruct (of_status serving) as [|q l] eqn:E; [reflexivity|].
           exfalso.
           assert (Hq : In q (q :: l)) by now left.
           apply Hof in Hq as (Hq1 & Hq2 & Hq3).
           destruct (listing_has_row sid s q Hq1 Hq2) as [c Hc];
             [now rewrite Hq3|].
           apply (order_by_In QueueExt.rank_then_position) in Hc.
           pose proof (find_none _ _ Hx _ Hc) as Hf. cbn [fst] in Hf.
           rewrite Hq3 in Hf. discriminate.
Qed.

Lemma getServiceQueueStatus_report_witness :
  let a := Sample.ticket 1 10 1 "REG-001" 1 serving (Some 1) 1000 in
  let b := Sample.ticket 2 11 1 "REG-002" 2 waiting None 2000 in
  let s := Sample.base [a; b] [Sample.window 1 busy (Some 1)] in
  exists data,
    fst (queueControllerExt.getServiceQueueStatus 1
           (reliable s (Sample.clock 5000)))
    = Val (reply_success 200 data) /\
    queueControllerExt.waitingCount data = 1 /\
    queueControllerExt.servingCount data = 1 /\
    queueControllerExt.currentServing data = Some "REG-001".
Proof.
  cbv zeta.
  destruct (proj2 (proj2 (getServiceQueueStatus_report 1)
              (Sample.base
                 [Sample.ticket 1 10 1 "REG-001" 1 serving (Some 1) 1000;
                  Sample.ticket 2 11 1 "REG-002" 2 waiting None 2000]
                 [Sample.window 1 busy (Some 1)])
              (Sample.clock 5000))
              Sample.registrar eq_refl)
    as (data & H1 & _ & H2 & _ & H3 & _ & H4 & H5).
  exists data. split; [exact H1|]. split; [exact H2|]. split; [exact H3|].
  destruct (queueControllerExt.currentServing data) as [n|].
  - destruct (H4 n eq_refl) as (q & Hq & Hn & _).
    destruct Hq as [<-|[]]. now rewrite <- Hn.
  - destruct (H5 eq_refl) as [H|(q & Hq & Hn & _)]; [discriminate|].
    destruct Hq as [<-|[]]. discriminate.
Defined.

(* ===================================================================== *)
(** * Further properties: the pages of a user's history *)
(* ===================================================================== *)

Section History.

Context {A : Type} (le : A -> A -> bool).
Hypothesis le_total : forall x y, le x y = false -> le y x = true.
Hypothesis le_trans : forall x y z, le x y = true -> le y z = true -> le x z = true.





End History.













(* ===================================================================== *)
(** * Further properties: a deactivated service *)
(* ===================================================================== *)






(* ===================================================================== *)
(** * Further properties: the details of a counter *)
(* ===================================================================== *)

Lemma nonzero_branch {X} (z : Z) (a b : X) :
  z <> 0 -> match z with 0 => a | _ => b end = b.
Proof. intros H. destruct z; congruence. Qed.

Lemma getCounterById_readonly id :
  preserves eq (counterControllerExt.getCounterById id).
Proof.
  unfold counterControllerExt.getCounterById, Counter.findById,
    Queue.findById, ServiceExt.getQueueStatus.
  frame; try congruence.
  all: try (destruct z; frame; congruence).
Qed.

(** X24.  The details of a counter show the ticket it has just called.
    [getCounterById] never writes.  After a successful call (ids being a
    non-zero key, the user of every entry existing), the details of the
    calling counter, read over a store that answers, show the counter
    [busy] and pointing to the called ticket, and that ticket with its
    number and the status [called]. *)
Theorem getCounterById_after_call :
  forall (user : req_user) (c : Z) (w w' : world) (st : Z) (q : queue_entry)
         (e' : environment),
    NoDup (map qe_id (queue_entries (store w))) ->
    (forall x, In x (queue_entries (store w)) ->
               qe_id x <> 0 /\ In (qe_user_id x) (users (store w))) ->
    counterController.callNext user c w = (Val (json_success st q), w') ->
    preserves eq (counterControllerExt.getCounterById c) /\
    exists d,
      fst (counterControllerExt.getCounterById c (reliable (store w') e'))
      = Val (reply_success 200 d) /\
      ctr_status (counterControllerExt.details_counter d) = busy /\
      ctr_current_serving_queue_id (counterControllerExt.details_counter d)
      = Some (qe_id q) /\
      counterControllerExt.details_currentServing d
      = Some (qe_id q, qe_queue_number q, called).
Proof.
  intros user c w w' st q e' Hnd Hrows H.
  split; [apply getCounterById_readonly|].
  apply callNext_success_reliable in H as [H _].
  apply callNext_reliable_success in H
    as (ctr & m & Hstaff & Hctr & Hopen & Hm & _ & Hq & Hw').
  set (s := store w) in *. set (e0 := env w) in *.
  apply next_waiting_minimal in Hm as [Hm _].
  apply waiting_of_In in Hm as (Hin & Hsvc & Hwait).
  pose proof (counter_row_In s c ctr Hctr) as (_ & Hcid & Hservice).
  rewrite (filter_id_unique _ _ Hnd Hin) in Hq. cbn [hd] in Hq.
  set (g1 := fun x => if qe_id x =? qe_id m
                      then counterController.set_called c (now e0) x else x).
  set (f1 := fun x => if ctr_id x =? c
                      then Counter.with_status busy
                             (Counter.with_current_serving (Some (qe_id m)) x)
                      else x).
  apply (f_equal store) in Hw'. cbn [store reliable] in Hw'.
  assert (Sv1 : services (store w') = services s) by now rewrite Hw'.
  assert (Us1 : users (store w') = users s) by now rewrite Hw'.
  assert (Qs1 : queue_entries (store w') = map g1 (queue_entries s))
    by now rewrite Hw'.
  assert (Cs1 : counters (store w') = map f1 (counters s)) by now rewrite Hw'.
  assert (Hg1 : forall x, written_once (g1 x) = written_once x).
  { intros x. unfold g1. now destruct (qe_id x =? qe_id m). }
  assert (Hrow0 : entry_row s (qe_id m) = Some m).
  { unfold entry_row.
    rewrite filter_andb, filter_andb, (filter_id_unique _ _ Hnd Hin).
    cbn [filter]. rewrite Hsvc, Hservice. cbn [filter].
    rewrite existsb_user; [reflexivity|]. now apply Hrows. }
  assert (Hrow1 : entry_row (store w') (qe_id m) = Some (g1 m)).
  { now rewrite (entry_row_updated s _ g1 _ Sv1 Us1 Qs1 Hg1), Hrow0. }
  assert (Hc1 : counter_row (store w') c = Some (f1 ctr)).
  { rewrite (counter_row_updated s _ f1 c Sv1 Cs1), Hctr; [reflexivity| |];
      intros x; unfold f1; now destruct (ctr_id x =? c). }
  assert (Hf1 : f1 ctr = Counter.with_status busy
                           (Counter.with_current_serving (Some (qe_id m)) ctr)).
  { unfold f1. now rewrite Hcid, Z.eqb_refl. }
  assert (Hg1m : g1 m = q).
  { unfold g1. now rewrite Z.eqb_refl, Hq. }
  assert (Hnz : qe_id m <> 0) by now apply Hrows.
  unfold counterControllerExt.getCounterById, try_catch, Counter.findById.
  rewrite bind_select_reliable. fold (counter_row (store w') c).
  rewrite Hc1, Hf1.
  cbn [ctr_current_serving_queue_id Counter.with_status
       Counter.with_current_serving].
  rewrite (nonzero_branch (qe_id m) _ _ Hnz).
  unfold Queue.findById. rewrite bind_select_reliable.
  fold (entry_row (store w') (qe_id m)). rewrite Hrow1, Hg1m.
  unfold ServiceExt.getQueueStatus. rewrite bind_select_reliable.
  eexists. split; [reflexivity|].
  cbn [counterControllerExt.details_counter
       counterControllerExt.details_currentServing ctr_status
       ctr_current_serving_queue_id Counter.with_status
       Counter.with_current_serving].
  split; [reflexivity|]. subst q. split; reflexivity.
Qed.

Lemma getCounterById_after_call_witness :
  let t := Sample.ticket 1 10 1 "REG-001" 1 waiting None 1000 in
  let s := Sample.base [t] [Sample.window 1 open None] in
  let w := reliable s (Sample.clock 2000) in
  let w' := snd (counterController.callNext Sample.staff 1 w) in
  exists d,
    fst (counterControllerExt.getCounterById 1
           (reliable (store w') (Sample.clock 3000)))
    = Val (reply_success 200 d) /\
    counterControllerExt.details_currentServing d
    = Some (1, "REG-001", called).
Proof.
  cbv zeta.
  destruct (proj2 (getCounterById_after_call Sample.staff 1
              (reliable (Sample.base
                           [Sample.ticket 1 10 1 "REG-001" 1 waiting None 1000]
                           [Sample.window 1 open None])
                        (Sample.clock 2000))
              (snd (counterController.callNext Sample.staff 1
                      (reliable (Sample.base
                           [Sample.ticket 1 10 1 "REG-001" 1 waiting None 1000]
                           [Sample.window 1 open None])
                        (Sample.clock 2000))))
              200
              (counterController.set_called 1 2000
                 (Sample.ticket 1 10 1 "REG-001" 1 waiting None 1000))
              (Sample.clock 3000)
              ltac:(cbn; repeat constructor; intros [])
              ltac:(intros x [<-|[]]; cbn; split; [discriminate | tauto])
              eq_refl))
    as (d & H1 & _ & _ & H2).
  exists d. split; [exact H1 | exact H2].
Defined.

(* ===================================================================== *)
(** * Further properties: the broadcasts *)
(* ===================================================================== *)

Lemma swallow_quiet body w :
  preserves eq body ->
  fst (QueueEvents.swallow body w) = Val tt /\
  store (snd (QueueEvents.swallow body w)) = store w /\
  env (snd (QueueEvents.swallow body w)) = env w.
Proof.
  intros Hb. destruct (QueueEvents.swallow body w) as [r w'] eqn:E.
  now apply swallow_inv in E.
Qed.

(** X25.  A broadcast never fails and never writes.  Each of the five
    emitters returns normally and leaves the store as it was, whichever
    of its queries fail and even when it is handed an undefined queue
    entry: its whole body sits in a [try] whose [catch] only logs. *)
Theorem emitters_never_fail :
  forall (w : world) (q : queue_entry) (oq : option queue_entry)
         (c : counter),
    let quiet (m : M unit) :=
      fst (m w) = Val tt /\ store (snd (m w)) = store w /\
      env (snd (m w)) = env w in
    quiet (QueueEvents.emitQueueCreated q) /\
    quiet (QueueEvents.emitQueueCalled q c) /\
    quiet (QueueEvents.emitQueueServingStarted oq c) /\
    quiet (QueueEvents.emitQueueCompleted oq c) /\
    quiet (QueueEvents.emitQueueCancelled oq).
Proof.
  intros w q oq c quiet. subst quiet. cbv beta.
  repeat split;
    try (apply swallow_quiet; first
           [ apply refresh_readonly
           | apply emitted_entry_readonly; intros x;
             first [ apply refresh_readonly | now apply preserves_ret ] ]).
Qed.

(* ===================================================================== *)
(** * Further properties: the positions of one run of requests *)
(* ===================================================================== *)

Lemma waiting_of_after_insert sid u n p t e s logs :
  Spec.waiting_of sid
    (set_queue_logs (snd (Queue.insertSql u sid n p t e s)) logs)
  = (Spec.waiting_of sid s ++ [fst (Queue.insertSql u sid n p t e s)])%list.
Proof.
  unfold Spec.waiting_of. cbn. rewrite filter_app. cbn.
  now rewrite Z.eqb_refl.
Qed.

Lemma request_each_positions D sid reqs :
  forall s,
    StronglySorted Z.lt (map snd reqs) ->
    (forall x t, In x (queue_entries s) -> In t (map snd reqs) ->
                 qe_requested_at x < t) ->
    map qe_queue_position (fst (request_each D sid reqs s))
    = map (fun i => Z.of_nat (List.length (Spec.waiting_of sid s) + i))
          (seq 1 (List.length (fst (request_each D sid reqs s)))).
Proof.
  induction reqs as [|[u t] rest IH]; intros s Hsorted Hpast; [reflexivity|].
  cbn [map snd] in Hsorted. inversion Hsorted as [|? ? Hrest Hlater]; subst.
  rewrite Forall_forall in Hlater.
  rewrite fst_request_each_cons. cbv zeta.
  set (e := {| now := t; today := D t; DATE := D |}).
  assert (Hsame : map qe_queue_position (fst (request_each D sid rest s))
                  = map (fun i => Z.of_nat
                                    (List.length (Spec.waiting_of sid s) + i))
                        (seq 1 (List.length
                                  (fst (request_each D sid rest s))))).
  { apply IH; [exact Hrest|]. intros x t' Hx Ht'. apply Hpast; [exact Hx|].
    now right. }
  destruct (Z.eq_dec sid 0) as [Hz|Hnz].
  { assert (Hr : queueController.requestQueue u (Some sid) (reliable s e)
                 = (Val (json_error 400
                           (error_message "Service ID is required")),
                    reliable s e)) by (rewrite Hz; reflexivity).
    rewrite Hr. exact Hsame. }
  rewrite (requestQueue_from_settings s e u sid _ _ Hnz
             (getSystemSettings_reliable s e)).
  destruct (system_maintenance_mode _); [exact Hsame|].
  destruct (find _ (services s)) as [sv|]; [|exact Hsame].
  destruct (negb (svc_is_active sv)); [exact Hsame|].
  destruct (Spec.active_tickets (userId u) sid s) as [|x xs];
    [|exact Hsame].
  cbv zeta. cbn [fst snd store reliable map List.length seq].
  f_equal.
  - cbn [Queue.insertSql fst qe_queue_position].
    rewrite admission_position_all_past.
    + rewrite Nat2Z.inj_add. reflexivity.
    + intros x Hx. cbn [now e]. apply Hpast; [exact Hx | now left].
  - rewrite IH; [|exact Hrest|].
    + rewrite waiting_of_after_insert, length_app. cbn [List.length].
      rewrite <- (seq_shift _ 1%nat), !map_map.
      apply map_ext. intros i. f_equal. lia.
    + intros x t' Hx Ht'. cbn in Hx.
      apply in_app_or in Hx as [Hx|[<-|[]]].
      * apply Hpast; [exact Hx | now right].
      * cbn. now apply Hlater.
Qed.

(** X26.  The positions of one run of requests are consecutive.  When
    requests for a service are handled one after the other at strictly
    increasing instants, all later than every stored entry, over a store
    that answers and with no call, completion or cancellation in
    between, the tickets created get the positions w+1, w+2, ..., where
    [w] is the number of tickets of the service waiting at the start,
    whichever of the requests are refused in between.  And when the
    service is active, the system is not in maintenance and the requests
    come from different users none of whom holds an active ticket of the
    service, every request creates a ticket, so that the n-th request
    gets position w+n. *)
Theorem sequential_requests_position_consecutively :
  forall (D : Z -> Z) (sid : Z) (s : db) (reqs : list (req_user * Z)),
    StronglySorted Z.lt (map snd reqs) ->
    (forall x t, In x (queue_entries s) -> In t (map snd reqs) ->
                 qe_requested_at x < t) ->
    let created := fst (request_each D sid reqs s) in
    map qe_queue_position created
    = map (fun i => Z.of_nat (List.length (Spec.waiting_of sid s) + i))
          (seq 1 (List.length created)) /\
    (forall sv,
       sid <> 0 ->
       system_maintenance_mode (current_settings s) = false ->
       find (fun row => svc_id row =? sid) (services s) = Some sv ->
       svc_is_active sv = true ->
       NoDup (map (fun r : req_user * Z => userId (fst r)) reqs) ->
       (forall r, In r reqs ->
                  Spec.active_tickets (userId (fst r)) sid s = []) ->
       map qe_user_id created
       = map (fun r : req_user * Z => userId (fst r)) reqs /\
       map qe_queue_position created
       = map (fun i => Z.of_nat (List.length (Spec.waiting_of sid s) + i))
             (seq 1 (List.length reqs))).
Proof.
  intros D sid s reqs Hsorted Hpast created.
  assert (Hpos : map qe_queue_position created
                 = map (fun i => Z.of_nat
                                   (List.length (Spec.waiting_of sid s) + i))
                       (seq 1 (List.length created)))
    by now apply request_each_positions.
  split; [exact Hpos|].
  intros sv Hnz Hoff Hsv Hact Hnd Hfree.
  pose proof (request_each_admits_all D sid sv reqs s Hnz Hoff Hsv Hact
                Hnd Hfree) as Hall.
  fold created in Hall. split; [exact Hall|].
  rewrite Hpos. do 2 f_equal.
  rewrite <- (length_map qe_user_id created), Hall. apply length_map.
Qed.

Lemma sequential_requests_position_consecutively_witness :
  map qe_queue_position
    (fst (request_each (fun x => x / 86400000) 1
            [(Sample.student10, 1000); (Sample.student11, 2000)]
            (Sample.base
               [Sample.ticket 1 12 1 "REG-001" 1 waiting None 500] [])))
  = [2; 3].
Proof.
  assert (Hnd : NoDup (map (fun r : req_user * Z => userId (fst r))
                         [(Sample.student10, 1000); (Sample.student11, 2000)])).
  { cbn. repeat constructor; cbn; intuition discriminate. }
  destruct (sequential_requests_position_consecutively
              (fun x => x / 86400000) 1
              (Sample.base
                 [Sample.ticket 1 12 1 "REG-001" 1 waiting None 500] [])
              [(Sample.student10, 1000); (Sample.student11, 2000)])
    as [_ Hall].
  - cbn. repeat constructor.
  - intros x t [<-|[]] [<-|[<-|[]]]; cbn; lia.
  - destruct (Hall Sample.registrar ltac:(discriminate) eq_refl eq_refl
                eq_refl Hnd) as [_ Hpos].
    + intros r [<-|[<-|[]]]; reflexivity.
    + exact Hpos.
Defined.

(* ===================================================================== *)
(** * Further properties: one active ticket per user and service *)
(* ===================================================================== *)

Lemma filter_map_length_le {A} (p : A -> bool) (g : A -> A) l :
  (forall x, In x l -> p (g x) = true -> p x = true) ->
  (List.length (filter p (map g l)) <= List.length (filter p l))%nat.
Proof.
  induction l as [|a l IH]; intros H; [cbn; lia|]. cbn.
  assert (IH' : (List.length (filter p (map g l))
                 <= List.length (filter p l))%nat).
  { apply IH. intros x Hx. apply H. now right. }
  destruct (p (g a)) eqn:E.
  - rewrite (H a (or_introl eq_refl) E). cbn. lia.
  - destruct (p a); cbn; lia.
Qed.

Lemma single_active_after_update s s' (g : queue_entry -> queue_entry) :
  queue_entries s' = map g (queue_entries s) ->
  (forall x, In x (queue_entries s) ->
             qe_user_id (g x) = qe_user_id x /\
             qe_service_id (g x) = qe_service_id x /\
             (Queue.active (qe_status (g x)) = true ->
              Queue.active (qe_status x) = true)) ->
  Spec.single_active s -> Spec.single_active s'.
Proof.
  intros Hq Hg Hs u sid. specialize (Hs u sid).
  unfold Spec.active_tickets in *. rewrite Hq.
  etransitivity; [|exact Hs].
  apply filter_map_length_le. intros x Hx.
  destruct (Hg x Hx) as (-> & -> & Ha).
  rewrite !andb_true_iff. intros [Hus Hact]. split; [exact Hus|]. auto.
Qed.

(** X27.  Every operation but the start keeps the rule "at most one
    active ticket per user and service".  In a store where ids are a key
    and nobody holds two waiting, called or serving tickets of one
    service, a request, a call, a completion or a cancellation handled
    over a store that answers leaves a store where still nobody does: a
    request is admitted only to a user without an active ticket of the
    service, a call moves a waiting ticket to called, and a completion or
    a cancellation takes a ticket out of the active ones. *)
Theorem single_active_kept_except_by_start :
  forall (o : operation) (s : db) (e : environment),
    is_start o = false ->
    NoDup (map qe_id (queue_entries s)) ->
    Spec.single_active s ->
    Spec.single_active (store (snd (handle o (reliable s e)))).
Proof.
  intros o s e Ho Hnd Hs.
  destruct o as [u sid|u c|u c qid|u c qid|u qid]; [| |discriminate| |];
    cbn [handle].
  - now apply requestQueue_keeps_single_active.
  - rewrite callNext_reliable.
    destruct (negb _); [exact Hs|].
    destruct (counter_row s c) as [ctr|]; [|exact Hs].
    destruct (counter_status_eqb _ _); [exact Hs|].
    destruct (hd_error _) as [m|] eqn:Hm; [|exact Hs].
    cbn [snd store reliable].
    apply next_waiting_minimal in Hm as [Hm _].
    apply waiting_of_In in Hm as (Hin & _ & Hw).
    eapply single_active_after_update; [reflexivity| |exact Hs].
    intros x Hx. cbn.
    destruct (Z.eqb_spec (qe_id x) (qe_id m)) as [E|_]; [|tauto].
    assert (Hxm : x = m).
    { assert (Hf : In x (filter (fun y => qe_id y =? qe_id m)
                                (queue_entries s)))
        by (apply filter_In; split; [exact Hx | now apply Z.eqb_eq]).
      rewrite (filter_id_unique _ _ Hnd Hin) in Hf.
      now destruct Hf as [->|[]]. }
    subst x. rewrite Hw. cbn. tauto.
  - rewrite completeService_reliable.
    destruct (negb _); [exact Hs|].
    destruct (counter_row s c) as [ctr|]; [|exact Hs].
    destruct (entry_row s qid) as [t|]; [|exact Hs].
    destruct (negb _); [exact Hs|].
    cbn [snd store reliable].
    eapply single_active_after_update; [reflexivity| |exact Hs].
    intros x Hx. cbn.
    destruct (qe_id x =? qid); [|tauto]. cbn. intuition discriminate.
  - rewrite cancelQueue_reliable.
    destruct (filter _ _) as [|t rest]; [exact Hs|].
    destruct (_ || _); [exact Hs|]. cbv zeta.
    assert (Hgoal : Spec.single_active
              (set_queue_logs
                 (set_queue_entries s
                    (map (fun q => if qe_id q =? qid
                                   then Queue.set_cancelled (now e) q else q)
                         (queue_entries s))
                    (queue_entries_id_seq s))
                 (queue_logs s ++
                  [ {| log_queue_entry_id := qid;
                       log_service_id := qe_service_id t;
                       log_counter_id := qe_counter_id t;
                       log_action := "cancelled";
                       log_metadata := None |} ])%list)).
    { eapply single_active_after_update; [reflexivity| |exact Hs].
      intros x Hx. cbn.
      destruct (qe_id x =? qid); [|tauto]. cbn. intuition discriminate. }
    destruct (map _ (filter _ _)); exact Hgoal.
Qed.

Lemma single_active_kept_except_by_start_witness :
  let t := Sample.ticket 1 10 1 "REG-001" 1 waiting None 1000 in
  let s := Sample.base [t] [Sample.window 1 open None] in
  Spec.single_active
    (store (snd (handle (op_call Sample.staff 1)
                   (reliable s (Sample.clock 5000))))).
Proof.
  cbv zeta.
  apply (single_active_kept_except_by_start (op_call Sample.staff 1)
           (Sample.base
              [Sample.ticket 1 10 1 "REG-001" 1 waiting None 1000]
              [Sample.window 1 open None])
           (Sample.clock 5000)).
  - reflexivity.
  - cbn. repeat constructor. intros [].
  - intros u sid. unfold Spec.active_tickets.
    etransitivity; [apply filter_length_le | cbn; lia].
Defined.

(* ===================================================================== *)
(** * Further properties: after a cancellation *)
(* ===================================================================== *)

Lemma existsb_service (svs : list service) sid :
  (exists sv, In sv svs /\ svc_id sv = sid) ->
  existsb (fun sv => svc_id sv =? sid) svs = true.
Proof.
  intros (sv & Hin & Hid). apply existsb_exists. exists sv.
  split; [exact Hin | now apply Z.eqb_eq].
Qed.

(** X28.  A cancelled ticket stays cancelled and can still be read.
    After a successful cancellation (ids being a key, the service and the
    user of the ticket existing), over a store that answers: the owner
    reading the ticket gets it back with status [cancelled], and the
    owner cancelling it once more is refused with 400 "Queue entry cannot
    be cancelled", which changes nothing. *)
Theorem cancelled_ticket_stays_cancelled :
  forall (user : req_user) (qid : Z) (w w' : world) (st : Z)
         (q : queue_entry) (e' : environment),
    NoDup (map qe_id (queue_entries (store w))) ->
    (forall x, In x (queue_entries (store w)) ->
               In (qe_user_id x) (users (store w)) /\
               exists sv, In sv (services (store w)) /\
                          svc_id sv = qe_service_id x) ->
    queueController.cancelQueue user qid w = (Val (json_success st q), w') ->
    qe_status q = cancelled /\
    fst (queueControllerExt.getQueueStatus user qid (reliable (store w') e'))
    = Val (reply_success 200 q) /\
    queueController.cancelQueue user qid (reliable (store w') e')
    = (Val (json_error 400 (error_message "Queue entry cannot be cancelled")),
       reliable (store w') e').
Proof.
  intros user qid w w' st q e' Hnd Hfk H.
  pose proof H as H0.
  apply cancelQueue_success in H0 as (t & Hin & Hid & Hown & _ & _ & Hs).
  pose proof (cancelQueue_reply user qid w st q w' t Hnd Hin Hid H) as Hq.
  set (s := store w) in *.
  set (g := fun x => if qe_id x =? qid
                     then Queue.set_cancelled (now (env w)) x else x).
  assert (Sv : services (store w') = services s) by now rewrite Hs.
  assert (Us : users (store w') = users s) by now rewrite Hs.
  assert (Qs : queue_entries (store w') = map g (queue_entries s))
    by now rewrite Hs.
  assert (Hg : forall x, written_once (g x) = written_once x).
  { intros x. unfold g. now destruct (qe_id x =? qid). }
  assert (Hgt : g t = q).
  { unfold g. now rewrite Hid, Z.eqb_refl, Hq. }
  destruct (Hfk t Hin) as [Huser Hsvc].
  assert (Hrow0 : entry_row s qid = Some t).
  { unfold entry_row. rewrite <- Hid.
    rewrite filter_andb, filter_andb, (filter_id_unique _ _ Hnd Hin).
    cbn [filter]. rewrite (existsb_service _ _ Hsvc). cbn [filter].
    now rewrite existsb_user. }
  assert (Hrow1 : entry_row (store w') qid = Some q).
  { now rewrite (entry_row_updated s _ g _ Sv Us Qs Hg), Hrow0, <- Hgt. }
  split; [now subst q|]. split.
  - unfold queueControllerExt.getQueueStatus, try_catch, Queue.findById.
    rewrite bind_select_reliable. fold (entry_row (store w') qid).
    rewrite Hrow1.
    assert (Hqo : qe_user_id q = userId user) by now subst q.
    now rewrite Hqo, Z.eqb_refl.
  - assert (Hnd' : NoDup (map qe_id (queue_entries (store w')))).
    { rewrite Qs. unfold g.
      now rewrite (ids_after_update qid (Queue.set_cancelled (now (env w)))). }
    assert (Hin' : In q (queue_entries (store w'))).
    { rewrite Qs, <- Hgt. now apply in_map. }
    assert (Hqid : qe_id q = qid) by now subst q.
    rewrite cancelQueue_reliable. rewrite <- Hqid.
    rewrite (owned_rows_unique _ _ _ Hnd' Hin').
    assert (Hqo : qe_user_id q = userId user) by now subst q.
    rewrite Hqo, Z.eqb_refl. now subst q.
Qed.

Lemma cancelled_ticket_stays_cancelled_witness :
  let t := Sample.ticket 1 10 1 "REG-001" 1 waiting None 1000 in
  let s := Sample.base [t] [] in
  let w := reliable s (Sample.clock 5000) in
  let w' := snd (queueController.cancelQueue Sample.student10 1 w) in
  queueController.cancelQueue Sample.student10 1
    (reliable (store w') (Sample.clock 6000))
  = (Val (json_error 400 (error_message "Queue entry cannot be cancelled")),
     reliable (store w') (Sample.clock 6000)).
Proof.
  cbv zeta.
  refine (proj2 (proj2
    (cancelled_ticket_stays_cancelled Sample.student10 1
       (reliable (Sample.base
                    [Sample.ticket 1 10 1 "REG-001" 1 waiting None 1000] [])
                 (Sample.clock 5000))
       (snd (queueController.cancelQueue Sample.student10 1
               (reliable (Sample.base
                    [Sample.ticket 1 10 1 "REG-001" 1 waiting None 1000] [])
                 (Sample.clock 5000))))
       200
       (Queue.set_cancelled 5000
          (Sample.ticket 1 10 1 "REG-001" 1 waiting None 1000))
       (Sample.clock 6000) _ _ eq_refl))).
  - cbn. repeat constructor. intros [].
  - intros x [<-|[]]. cbn. split; [tauto|].
    exists Sample.registrar. split; [now left | reflexivity].
Defined.

(* ===================================================================== *)
(** * Further properties: a request that fails at its last query *)
(* ===================================================================== *)

Section PlannedRuns.
Context {A B : Type}.

Lemma bind_query_next (stmt : environment -> db -> A * db) (k : A -> M B)
    s e rest :
  bind (query stmt) k {| store := s; env := e; plan := None :: rest |}
  = k (fst (stmt e s)) {| store := snd (stmt e s); env := e; plan := rest |}.
Proof. unfold bind, query. cbn. now destruct (stmt e s). Qed.

Lemma bind_select_next (rows : environment -> db -> A) (k : A -> M B)
    s e rest :
  bind (select rows) k {| store := s; env := e; plan := None :: rest |}
  = k (rows e s) {| store := s; env := e; plan := rest |}.
Proof. unfold select. now rewrite bind_query_next. Qed.

End PlannedRuns.

Lemma create_failing_at_the_log (userId sid : Z) s e sv msg :
  find (fun row => svc_id row =? sid) (services s) = Some sv ->
  Queue.create userId sid
    {| store := s; env := e;
       plan := [None; None; None; None; None; Some msg] |}
  = (Exn msg,
     reliable
       (snd (Queue.insertSql userId sid (next_number s e sid sv)
               (Spec.admission_position sid e s)
               (JS.or_default (svc_estimated_service_time sv) 5
                * Spec.admission_position sid e s) e s)) e).
Proof.
  intros Hsv. destruct (find_filter _ _ _ Hsv) as [others Hf].
  unfold Queue.create.
  assert (Hgen : Queue.generateQueueNumber sid
                   {| store := s; env := e;
                      plan := [None; None; None; None; None; Some msg] |}
                 = (Val (next_number s e sid sv),
                    {| store := s; env := e;
                       plan := [None; None; None; Some msg] |})).
  { unfold Queue.generateQueueNumber.
    rewrite bind_select_next, Hf. cbn [map]. rewrite prefix_of_spec.
    unfold bind at 1. unfold todayISO at 1. cbn [env today].
    rewrite bind_select_next. reflexivity. }
  rewrite (bind_val _ _ _ _ _ Hgen).
  unfold Queue.calculateQueuePosition.
  assert (Hpos : forall rest,
            Queue.calculateQueuePosition sid
              {| store := s; env := e; plan := None :: rest |}
            = (Val (Spec.admission_position sid e s),
               {| store := s; env := e; plan := rest |})).
  { intros rest. unfold Queue.calculateQueuePosition.
    rewrite bind_select_next. reflexivity. }
  fold (Queue.calculateQueuePosition sid).
  rewrite (bind_val _ _ _ _ _ (Hpos _)).
  rewrite bind_select_next, Hf. cbn [map].
  rewrite bind_query_next.
  unfold Queue.logQueueAction, bind, query. cbn [plan store env].
  reflexivity.
Qed.

(** X29.  A request is not atomic.  When every guard of a request passes
    and the store then fails exactly at the last query, the insertion
    into the action log, the request is answered with 500 "Error creating
    queue entry" although the ticket has been stored (with no log row);
    the user's next request for the service is then refused with 400 as
    a duplicate, naming the id of the stored ticket. *)
Theorem request_failing_at_the_log_keeps_the_ticket :
  forall (user : req_user) (sid : Z) (s : db) (e e' : environment)
         (sv : service) (msg : string),
    sid <> 0 ->
    system_maintenance_mode (current_settings s) = false ->
    find (fun row => svc_id row =? sid) (services s) = Some sv ->
    svc_is_active sv = true ->
    Spec.active_tickets (userId user) sid s = [] ->
    let w := {| store := s; env := e;
                plan := [None; None; None; None; None; None; None; None;
                         Some msg] |} in
    let r := queueController.requestQueue user (Some sid) w in
    let position := Spec.admission_position sid e s in
    let row :=
      fst (Queue.insertSql (userId user) sid (next_number s e sid sv) position
             (JS.or_default (svc_estimated_service_time sv) 5 * position)
             e s) in
    fst r = Val (json_error 500 (error_message "Error creating queue entry")) /\
    queue_entries (store (snd r)) = (queue_entries s ++ [row])%list /\
    queue_logs (store (snd r)) = queue_logs s /\
    queueController.requestQueue user (Some sid) (reliable (store (snd r)) e')
    = (Val (json_error 400
              {| message := "You already have an active queue for this service";
                 queueId := Some (qe_id row);
                 maintenanceMode := false |}),
       reliable (store (snd r)) e').
Proof.
  intros user sid s e e' sv msg Hnz Hoff Hsv Hactive Hnone w r position row.
  assert (Hr : r = (Val (json_error 500
                           (error_message "Error creating queue entry")),
                    reliable
                      (snd (Queue.insertSql (userId user) sid
                              (next_number s e sid sv) position
                              (JS.or_default (svc_estimated_service_time sv) 5
                               * position) e s)) e)).
  { subst r w position.
    unfold queueController.requestQueue, try_catch.
    rewrite (nonzero_branch sid _ _ Hnz).
    assert (Hset : forall rest,
              queueController.getSystemSettings
                {| store := s; env := e; plan := None :: rest |}
              = (Val (current_settings s),
                 {| store := s; env := e; plan := rest |})).
    { intros rest. unfold queueController.getSystemSettings, try_catch.
      rewrite bind_select_next. unfold current_settings.
      now destruct (system_settings s). }
    rewrite (bind_val _ _ _ _ _ (Hset _)), Hoff.
    unfold Service.findById. rewrite bind_select_next.
    unfold Sql.first_row. rewrite filter_hd_find, Hsv, Hactive. cbn [negb].
    unfold Queue.findByUserAndService. rewrite bind_select_next.
    fold (Spec.active_tickets (userId user) sid s). rewrite Hnone.
    unfold Sql.first_row. cbn [hd_error].
    unfold bind at 1.
    rewrite (create_failing_at_the_log (userId user) sid s e sv msg Hsv).
    reflexivity. }
  rewrite Hr. cbn [fst snd store reliable].
  split; [reflexivity|]. split; [reflexivity|]. split; [reflexivity|].
  set (s' := snd (Queue.insertSql _ _ _ _ _ _ _)).
  rewrite (requestQueue_from_settings s' e' user sid _ _ Hnz
             (getSystemSettings_reliable s' e')).
  unfold current_settings in Hoff.
  assert (Hs1 : system_settings s' = system_settings s) by reflexivity.
  assert (Hs2 : services s' = services s) by reflexivity.
  rewrite Hs1, Hoff, Hs2, Hsv, Hactive. cbn [negb].
  assert (Hact : Spec.active_tickets (userId user) sid s' = [row]).
  { unfold Spec.active_tickets. subst s'. cbn.
    rewrite filter_app. fold (Spec.active_tickets (userId user) sid s).
    rewrite Hnone. cbn. now rewrite !Z.eqb_refl. }
  rewrite Hact. reflexivity.
Qed.

Lemma request_failing_at_the_log_keeps_the_ticket_witness :
  let w := {| store := Sample.base [] []; env := Sample.clock 1000;
              plan := [None; None; None; None; None; None; None; None;
                       Some "connection lost"] |} in
  let r := queueController.requestQueue Sample.student10 (Some 1) w in
  fst r = Val (json_error 500 (error_message "Error creating queue entry")) /\
  map qe_queue_number (queue_entries (store (snd r))) = ["REG-001"].
Proof.
  cbv zeta.
  destruct (request_failing_at_the_log_keeps_the_ticket Sample.student10 1
              (Sample.base [] []) (Sample.clock 1000) (Sample.clock 2000)
              Sample.registrar "connection lost"
              ltac:(discriminate) eq_refl eq_refl eq_refl eq_refl)
    as (H1 & H2 & _).
  split; [exact H1|]. rewrite H2. reflexivity.
Defined.

(* ===================================================================== *)
(** * Creations in flight together *)
(* ===================================================================== *)

Lemma bind_assoc {A B C} (m : M A) (f : A -> M B) (g : B -> M C) w :
  bind (bind m f) g w = bind m (fun x => bind (f x) g) w.
Proof. unfold bind. now destruct (m w) as [[a|msg] w']. Qed.

Lemma bind_ext {A B} (m : M A) (f g : A -> M B) w :
  (forall x w', f x w' = g x w') -> bind m f w = bind m g w.
Proof.
  intros H. unfold bind. destruct (m w) as [[a|msg] w']; [apply H | reflexivity].
Qed.

(** Run alone, the task of a creation is [Queue.create]. *)
Lemma run_create userId serviceId w :
  run (QueueTask.create userId serviceId) w = Queue.create userId serviceId w.
Proof.
  unfold Queue.create, Queue.generateQueueNumber.
  cbn [run QueueTask.create].
  rewrite bind_assoc. apply bind_ext. intros [|[name pfx] rest] w1;
    [reflexivity|].
  cbn [run QueueTask.read_last_number]. cbv zeta.
  rewrite !bind_assoc. apply bind_ext. intros day w2.
  rewrite bind_assoc. apply bind_ext. intros lastResult w3.
  rewrite bind_ret.
  cbn [run QueueTask.read_position]. apply bind_ext. intros position w4.
  cbn [run QueueTask.read_estimate]. apply bind_ext. intros rows w5.
  cbn [run QueueTask.insert_row]. cbv zeta. apply bind_ext. intros row w6.
  cbn [run QueueTask.log_created]. apply bind_ext. intros [] w7. reflexivity.
Qed.

Section StagesOfACreation.
Variables (sv : service) (sid : Z).





Variables (ea eb : environment) (ua ub : Z).





End StagesOfACreation.

Section NumbersInFlight.
Variables (D : Z -> Z) (d sid : Z) (sv : service) (k : nat).
Hypothesis Hplain : Spec.plain (Spec.prefix sv) = true.









End NumbersInFlight.




